(** * KA10 central processor: a shallow embedding of [ka10_cpu.c]

    The development models the KA10 build of the simulator (every
    [#if KI] block takes its [#else] branch).  C globals become the fields
    of one record [cpu]; every C function becomes a Rocq function from
    [cpu] to [cpu] (paired with the returned integer when the C function
    returns one).  Integers are [Z]; the wrap-around of [uint64] and of
    [char] is written out with [u64] and [to_char]. *)

From Stdlib Require Import ZArith Lia Bool.
From stdpp Require Import base list functions.
From coqutil Require Import Datatypes.RecordSetters.
From Equations Require Import Equations.
Import TriangleBracketNotations.
Local Open Scope Z_scope.

(** ** Octal literals

    The source writes nearly every constant in octal.  [0200%o] reads its
    digits in base eight, so that the definitions below can be compared
    with the C text digit by digit. *)

Fixpoint oct_digits (fuel : nat) (d : Z) : option Z :=
  match fuel with
  | O => if d =? 0 then Some 0 else None
  | S fuel' =>
      if d =? 0 then Some 0
      else if 8 <=? d mod 10 then None
      else match oct_digits fuel' (d / 10) with
           | Some hi => Some (8 * hi + d mod 10)
           | None => None
           end
  end.

Definition of_octal (d : Z) : option Z :=
  if d <? 0 then None else oct_digits 40 d.

Fixpoint dec_digits (fuel : nat) (v : Z) : Z :=
  match fuel with
  | O => 0
  | S fuel' => if v =? 0 then 0 else 10 * dec_digits fuel' (v / 8) + v mod 8
  end.

Definition to_octal (v : Z) : option Z :=
  if v <? 0 then None else Some (dec_digits 40 v).

Declare Scope octal_scope.
Delimit Scope octal_scope with o.
Number Notation Z of_octal to_octal : octal_scope.

(** ** Sequencing

    [let* x := e in k] runs the statement [e] and passes what it yields to
    the statements [k] that follow.  It is [let] written as a function, so
    that a proof can go through the code one statement at a time. *)
Definition let_in {A B : Type} (e : A) (k : A -> B) : B := k e.

Notation "'let*' x := e 'in' k" := (let_in e (fun x => k))
  (at level 10, x pattern, e at level 200, k at level 200).

(** ** C operators on integers *)

Infix ".&" := Z.land (at level 40, left associativity).
Infix ".|" := Z.lor (at level 50, left associativity).
Infix ".^" := Z.lxor (at level 50, left associativity).

(** [if (x)] *)
Definition nz (x : Z) : bool := negb (x =? 0).

(** The integer value of a C comparison. *)
Definition b2z (b : bool) : Z := if b then 1 else 0.

(** [!x] *)
Definition lnot (x : Z) : Z := b2z (x =? 0).

(** Arithmetic on [uint64] wraps modulo 2^64. *)
Definition u64 (x : Z) : Z := x mod 2 ^ 64.

(** A store into a [char] variable keeps the low eight bits, read as a
    signed byte.  Every value the interrupt code stores lies in 0..0177,
    where the conversion is the identity (lemma [to_char_small]). *)
Definition to_char (x : Z) : Z := (x + 128) mod 256 - 128.

(** C arrays of fixed size.  The indices the code computes are masked into
    range; an index outside the list reads 0 and writes nothing. *)
Definition array_get (a : list Z) (i : Z) : Z :=
  if i <? 0 then 0 else default 0 (a !! Z.to_nat i).

Definition array_set (a : list Z) (i v : Z) : list Z :=
  if i <? 0 then a else <[Z.to_nat i := v]> a.

(** ** Word masks and flag bits

    [ka10_defs.h] is not part of the sources at hand; its constants are
    reconstructed here. *)

(** Modelled from the spec: the masks of [ka10_defs.h] (absent), section 3:
    FMASK all 36 bits, SMASK bit 0, CMASK bits 1-35, RMASK the right half,
    LMASK the left half, C1 the carry out of bit 0 (bit 36). *)
Definition FMASK : Z := 0777777777777%o.
Definition SMASK : Z := 0400000000000%o.
Definition CMASK : Z := 0377777777777%o.
Definition RMASK : Z := 0000000777777%o.
Definition LMASK : Z := 0777777000000%o.
Definition C1 : Z := 01000000000000%o.

(** Modelled from the spec: the macro [PMASK] of [ka10_defs.h] (absent):
    a byte pointer without its position field, which section 4.6 places in
    bits 0-5; these are the thirty bits 6-35. *)
Definition PMASK : Z := 0007777777777%o.

(** Modelled from the spec: the macro [CM] of [ka10_defs.h] (absent): the
    36-bit one's complement, from section 4.1 where negation is
    [(~x + 1) & FMASK]. *)
Definition CM (x : Z) : Z := FMASK .^ x.

(** Modelled from the spec: the flag bits of [ka10_defs.h] (absent).
    Section 3 lists them from the top of the 13-bit flag word: overflow,
    carry-0, carry-1, floating overflow, byte interrupt, user, user-I/O.
    The source agrees: JFCL tests [(FLAGS >> 9) & AC], JRSTF clears USERIO
    under [(AR >> 23) & 0100], and [FLAGS &= 01777] precedes every
    recomputation of the three arithmetic flags.  The KA10 has no trap
    flags, so TRP1 is empty. *)
Definition OVR : Z := 010000%o.
Definition CRY0 : Z := 004000%o.
Definition CRY1 : Z := 002000%o.
Definition FLTOVR : Z := 001000%o.
Definition BYTI : Z := 000400%o.
Definition USER : Z := 000200%o.
Definition USERIO : Z := 000100%o.
Definition TRP1 : Z := 0.

(** Modelled from the spec: [MAXMEMSIZE] of [ka10_defs.h] (absent):
    section 3 gives the KA10 memory as at most 2^18 words. *)
Definition MAXMEMSIZE : Z := 01000000%o.

(** The operand-fetch flags of [opflags]. *)
Definition FCE : Z := 000001%o.
Definition FCEPSE : Z := 000002%o.
Definition SCE : Z := 000004%o.
Definition FAC : Z := 000010%o.
Definition FAC2 : Z := 000020%o.
Definition SAC : Z := 000040%o.
Definition SACZ : Z := 000100%o.
Definition SAC2 : Z := 000200%o.
Definition MBR : Z := 000400%o.
Definition SWAR : Z := 001000%o.
Definition FBR : Z := 002000%o.
Definition FMB : Z := 004000%o.

(** ** Machine state *)

Record cpu : Type := mkcpu {
  (* memory and fast registers *)
  M : Z -> Z;
  FM : list Z;
  (* working registers *)
  AR : Z; MQ : Z; BR : Z; AD : Z; MB : Z;
  AB : Z; PC : Z; IR : Z; FLAGS : Z; AC : Z;
  BYF5 : Z; uuo_cycle : Z; SC : Z; SCAD : Z;
  (* KA10 protection registers *)
  Pl : Z; Ph : Z; Rl : Z; Rh : Z; Pflag : Z;
  (* processor flags *)
  push_ovf : Z; mem_prot : Z; nxm_flag : Z; clk_flg : Z;
  ov_irq : Z; fov_irq : Z;
  (* priority interrupt system *)
  PIR : Z; PIH : Z; PIE : Z; pi_enable : Z; parity_irq : Z;
  pi_pending : Z; pi_req : Z; pi_enc : Z; apr_irq : Z;
  clk_en : Z; clk_irq : Z; pi_restore : Z; pi_hold : Z;
  dev_irq : list Z;
  (* simulator: event countdown, cpu_unit.capac,
     cpu_unit.flags & UNIT_TWOSEG *)
  sim_interval : Z;
  MEMSIZE : Z;
  twoseg : Z;
  (* locals of sim_instr *)
  i_flags : Z; pi_ov : Z; pi_cycle : Z;
  f_load_pc : Z; f_inst_fetch : Z; f_pc_inh : Z;
  sac_inh : Z; flag1 : Z; flag3 : Z; f : Z
}.

(** ** Field updates

    [s <| x := v |>] is the state [s] with field [x] replaced by [v].  The
    setter of the field number [k] rebuilds the record from the
    projections of [s], applying the update to field [k] alone. *)
Ltac update_field k g s :=
  let field i v := (tryif constr_eq k i then exact (g v) else exact v) in
  unshelve econstructor;
  [>
    field 0%nat (M s) |
    field 1%nat (FM s) |
    field 2%nat (AR s) |
    field 3%nat (MQ s) |
    field 4%nat (BR s) |
    field 5%nat (AD s) |
    field 6%nat (MB s) |
    field 7%nat (AB s) |
    field 8%nat (PC s) |
    field 9%nat (IR s) |
    field 10%nat (FLAGS s) |
    field 11%nat (AC s) |
    field 12%nat (BYF5 s) |
    field 13%nat (uuo_cycle s) |
    field 14%nat (SC s) |
    field 15%nat (SCAD s) |
    field 16%nat (Pl s) |
    field 17%nat (Ph s) |
    field 18%nat (Rl s) |
    field 19%nat (Rh s) |
    field 20%nat (Pflag s) |
    field 21%nat (push_ovf s) |
    field 22%nat (mem_prot s) |
    field 23%nat (nxm_flag s) |
    field 24%nat (clk_flg s) |
    field 25%nat (ov_irq s) |
    field 26%nat (fov_irq s) |
    field 27%nat (PIR s) |
    field 28%nat (PIH s) |
    field 29%nat (PIE s) |
    field 30%nat (pi_enable s) |
    field 31%nat (parity_irq s) |
    field 32%nat (pi_pending s) |
    field 33%nat (pi_req s) |
    field 34%nat (pi_enc s) |
    field 35%nat (apr_irq s) |
    field 36%nat (clk_en s) |
    field 37%nat (clk_irq s) |
    field 38%nat (pi_restore s) |
    field 39%nat (pi_hold s) |
    field 40%nat (dev_irq s) |
    field 41%nat (sim_interval s) |
    field 42%nat (MEMSIZE s) |
    field 43%nat (twoseg s) |
    field 44%nat (i_flags s) |
    field 45%nat (pi_ov s) |
    field 46%nat (pi_cycle s) |
    field 47%nat (f_load_pc s) |
    field 48%nat (f_inst_fetch s) |
    field 49%nat (f_pc_inh s) |
    field 50%nat (sac_inh s) |
    field 51%nat (flag1 s) |
    field 52%nat (flag3 s) |
    field 53%nat (f s)
  ].

#[global] Instance upd_M : Setter M :=
  fun g s => ltac:(update_field 0%nat g s).
#[global] Instance upd_FM : Setter FM :=
  fun g s => ltac:(update_field 1%nat g s).
#[global] Instance upd_AR : Setter AR :=
  fun g s => ltac:(update_field 2%nat g s).
#[global] Instance upd_MQ : Setter MQ :=
  fun g s => ltac:(update_field 3%nat g s).
#[global] Instance upd_BR : Setter BR :=
  fun g s => ltac:(update_field 4%nat g s).
#[global] Instance upd_AD : Setter AD :=
  fun g s => ltac:(update_field 5%nat g s).
#[global] Instance upd_MB : Setter MB :=
  fun g s => ltac:(update_field 6%nat g s).
#[global] Instance upd_AB : Setter AB :=
  fun g s => ltac:(update_field 7%nat g s).
#[global] Instance upd_PC : Setter PC :=
  fun g s => ltac:(update_field 8%nat g s).
#[global] Instance upd_IR : Setter IR :=
  fun g s => ltac:(update_field 9%nat g s).
#[global] Instance upd_FLAGS : Setter FLAGS :=
  fun g s => ltac:(update_field 10%nat g s).
#[global] Instance upd_AC : Setter AC :=
  fun g s => ltac:(update_field 11%nat g s).
#[global] Instance upd_BYF5 : Setter BYF5 :=
  fun g s => ltac:(update_field 12%nat g s).
#[global] Instance upd_uuo_cycle : Setter uuo_cycle :=
  fun g s => ltac:(update_field 13%nat g s).
#[global] Instance upd_SC : Setter SC :=
  fun g s => ltac:(update_field 14%nat g s).
#[global] Instance upd_SCAD : Setter SCAD :=
  fun g s => ltac:(update_field 15%nat g s).
#[global] Instance upd_Pl : Setter Pl :=
  fun g s => ltac:(update_field 16%nat g s).
#[global] Instance upd_Ph : Setter Ph :=
  fun g s => ltac:(update_field 17%nat g s).
#[global] Instance upd_Rl : Setter Rl :=
  fun g s => ltac:(update_field 18%nat g s).
#[global] Instance upd_Rh : Setter Rh :=
  fun g s => ltac:(update_field 19%nat g s).
#[global] Instance upd_Pflag : Setter Pflag :=
  fun g s => ltac:(update_field 20%nat g s).
#[global] Instance upd_push_ovf : Setter push_ovf :=
  fun g s => ltac:(update_field 21%nat g s).
#[global] Instance upd_mem_prot : Setter mem_prot :=
  fun g s => ltac:(update_field 22%nat g s).
#[global] Instance upd_nxm_flag : Setter nxm_flag :=
  fun g s => ltac:(update_field 23%nat g s).
#[global] Instance upd_clk_flg : Setter clk_flg :=
  fun g s => ltac:(update_field 24%nat g s).
#[global] Instance upd_ov_irq : Setter ov_irq :=
  fun g s => ltac:(update_field 25%nat g s).
#[global] Instance upd_fov_irq : Setter fov_irq :=
  fun g s => ltac:(update_field 26%nat g s).
#[global] Instance upd_PIR : Setter PIR :=
  fun g s => ltac:(update_field 27%nat g s).
#[global] Instance upd_PIH : Setter PIH :=
  fun g s => ltac:(update_field 28%nat g s).
#[global] Instance upd_PIE : Setter PIE :=
  fun g s => ltac:(update_field 29%nat g s).
#[global] Instance upd_pi_enable : Setter pi_enable :=
  fun g s => ltac:(update_field 30%nat g s).
#[global] Instance upd_parity_irq : Setter parity_irq :=
  fun g s => ltac:(update_field 31%nat g s).
#[global] Instance upd_pi_pending : Setter pi_pending :=
  fun g s => ltac:(update_field 32%nat g s).
#[global] Instance upd_pi_req : Setter pi_req :=
  fun g s => ltac:(update_field 33%nat g s).
#[global] Instance upd_pi_enc : Setter pi_enc :=
  fun g s => ltac:(update_field 34%nat g s).
#[global] Instance upd_apr_irq : Setter apr_irq :=
  fun g s => ltac:(update_field 35%nat g s).
#[global] Instance upd_clk_en : Setter clk_en :=
  fun g s => ltac:(update_field 36%nat g s).
#[global] Instance upd_clk_irq : Setter clk_irq :=
  fun g s => ltac:(update_field 37%nat g s).
#[global] Instance upd_pi_restore : Setter pi_restore :=
  fun g s => ltac:(update_field 38%nat g s).
#[global] Instance upd_pi_hold : Setter pi_hold :=
  fun g s => ltac:(update_field 39%nat g s).
#[global] Instance upd_dev_irq : Setter dev_irq :=
  fun g s => ltac:(update_field 40%nat g s).
#[global] Instance upd_sim_interval : Setter sim_interval :=
  fun g s => ltac:(update_field 41%nat g s).
#[global] Instance upd_MEMSIZE : Setter MEMSIZE :=
  fun g s => ltac:(update_field 42%nat g s).
#[global] Instance upd_twoseg : Setter twoseg :=
  fun g s => ltac:(update_field 43%nat g s).
#[global] Instance upd_i_flags : Setter i_flags :=
  fun g s => ltac:(update_field 44%nat g s).
#[global] Instance upd_pi_ov : Setter pi_ov :=
  fun g s => ltac:(update_field 45%nat g s).
#[global] Instance upd_pi_cycle : Setter pi_cycle :=
  fun g s => ltac:(update_field 46%nat g s).
#[global] Instance upd_f_load_pc : Setter f_load_pc :=
  fun g s => ltac:(update_field 47%nat g s).
#[global] Instance upd_f_inst_fetch : Setter f_inst_fetch :=
  fun g s => ltac:(update_field 48%nat g s).
#[global] Instance upd_f_pc_inh : Setter f_pc_inh :=
  fun g s => ltac:(update_field 49%nat g s).
#[global] Instance upd_sac_inh : Setter sac_inh :=
  fun g s => ltac:(update_field 50%nat g s).
#[global] Instance upd_flag1 : Setter flag1 :=
  fun g s => ltac:(update_field 51%nat g s).
#[global] Instance upd_flag3 : Setter flag3 :=
  fun g s => ltac:(update_field 52%nat g s).
#[global] Instance upd_f : Setter f :=
  fun g s => ltac:(update_field 53%nat g s).

(** ** Interrupt requests *)

Definition set_interrupt (dev lvl : Z) (s : cpu) : cpu :=
  let lvl := lvl .& 07%o in
  if nz lvl then
    s <| dev_irq := array_set (dev_irq s) (dev ≫ 2) (to_char (0200%o ≫ lvl)) |>
      <| pi_pending := 1 |>
  else s.

Definition clr_interrupt (dev : Z) (s : cpu) : cpu :=
  s <| dev_irq := array_set (dev_irq s) (dev ≫ 2) 0 |>.

Definition check_apr_irq (s : cpu) : cpu :=
  let flg := 0 in
  let s := clr_interrupt 0 s in
  let s := clr_interrupt 4 s in
  let s :=
    if nz (apr_irq s) then
      let flg := flg .| (b2z (nz (FLAGS s .& OVR)) .& ov_irq s) in
      let flg := flg .| (b2z (nz (FLAGS s .& FLTOVR)) .& fov_irq s) in
      let flg := flg .| (nxm_flag s .| mem_prot s .| push_ovf s) in
      if nz flg then set_interrupt 0 (apr_irq s) s else s
    else s in
  if nz (clk_flg s .& clk_en s) then set_interrupt 4 (clk_irq s) s else s.

(** ** Priority interrupt arbitration *)

(** The scan [for(i = 2; i <= 7; i++)] of [check_irq_level]: levels are
    added to [pi_ok] from 0040 downward for as long as the level above is
    neither requested nor held. *)
Fixpoint pi_ok_scan (n : nat) (lvl pi_t pi_ok : Z) : Z :=
  match n with
  | O => pi_ok
  | S n' =>
      if nz (lvl .& pi_t) then pi_ok_scan n' (lvl ≫ 1) pi_t (pi_ok .| lvl)
      else pi_ok
  end.

(** The encoder [for(lvl = i = 1; i<=7; i++, lvl++)] of [check_irq_level]. *)
Fixpoint pi_encode (n : nat) (lvl pi_r : Z) : Z :=
  match n with
  | O => lvl
  | S n' =>
      if nz (pi_r .& 0100%o) then lvl else pi_encode n' (lvl + 1) (pi_r ≪ 1)
  end.

Definition check_irq_level (s : cpu) : Z * cpu :=
  let lvl := foldl Z.lor 0 (dev_irq s) in
  let s := if lvl =? 0 then s <| pi_pending := 0 |> else s in
  let s := s <| PIR := to_char (PIR s .| (lvl .& PIE s)) |> in
  let pi_t := (Z.lnot (PIR s) .& Z.lnot (PIH s)) ≫ 1 in
  let pi_ok := 0100%o .& (PIR s .& Z.lnot (PIH s)) in
  let pi_ok :=
    if pi_ok =? 0 then pi_ok_scan 6 0040%o pi_t pi_ok else pi_ok in
  let s := s <| pi_req := PIR s .& Z.lnot (PIH s) .& pi_ok |> in
  if nz (pi_req s) then
    (1, s <| pi_enc := pi_encode 7 1 (pi_req s) |>)
  else (0, s).

(** The loop [for(i = 1; i <= 7; i++)] of [restore_pi_hold]. *)
Fixpoint pi_dismiss (n : nat) (lvl : Z) (s : cpu) : cpu :=
  match n with
  | O => s
  | S n' =>
      if nz (lvl .& PIH s) then
        let s := s <| PIR := to_char (PIR s .& Z.lnot lvl) |> in
        s <| PIH := to_char (PIH s .& Z.lnot lvl) |>
      else pi_dismiss n' (lvl ≫ 1) s
  end.

Definition restore_pi_hold (s : cpu) : cpu :=
  if pi_enable s =? 0 then s
  else
    let s := pi_dismiss 7 0100%o s in
    let s := if nz (array_get (dev_irq s) 0) then check_apr_irq s else s in
    s <| pi_pending := 1 |>.

Definition set_pi_hold (s : cpu) : cpu :=
  let s := s <| PIH := to_char (PIH s .| (0200%o ≫ pi_enc s)) |> in
  s <| PIR := to_char (PIR s .& Z.lnot (0200%o ≫ pi_enc s)) |>.

(** The four sub-functions a device handler is called with; the handler
    selects on [dev & 3], whose encoding is in [ka10_defs.h]. *)
Inductive iot_fn : Type := CONI | CONO | DATAI | DATAO.

Definition dev_pi (fn : iot_fn) (data : Z) (s : cpu) : Z * cpu :=
  match fn with
  | CONO =>
      let res := data in
      let s :=
        if nz (res .& 010000%o) then
          s <| PIR := 0 |> <| PIH := 0 |> <| PIE := 0 |>
            <| pi_enable := 0 |> <| parity_irq := 0 |>
        else s in
      let s := if nz (res .& 0200%o) then s <| pi_enable := 1 |> else s in
      let s := if nz (res .& 0400%o) then s <| pi_enable := 0 |> else s in
      let s :=
        if nz (res .& 01000%o) then
          s <| PIE := to_char (PIE s .& Z.lnot (data .& 0177%o)) |>
        else s in
      let s :=
        if nz (res .& 02000%o) then
          s <| PIE := to_char (PIE s .| (data .& 0177%o)) |>
        else s in
      let s :=
        if nz (res .& 04000%o) then
          s <| PIR := to_char (PIR s .| (data .& 0177%o)) |>
            <| pi_pending := 1 |>
        else s in
      let s := if nz (res .& 040000%o) then s <| parity_irq := 1 |> else s in
      let s := if nz (res .& 0100000%o) then s <| parity_irq := 0 |> else s in
      (data, s)
  | CONI =>
      let res := u64 (PIE s) in
      let res := res .| u64 (pi_enable s ≪ 7) in
      let res := res .| u64 (PIH s ≪ 8) in
      let res := res .| u64 (parity_irq s ≪ 15) in
      (res, s)
  | DATAO | DATAI => (data, s)
  end.

(** [cpu_reset]; the calls into the simulator library at its end
    (breakpoint types, clock calibration, unit activation) touch nothing
    modelled here. *)
Definition cpu_reset (s : cpu) : cpu :=
  s <| BYF5 := 0 |> <| uuo_cycle := 0 |>
    <| Pl := 0 |> <| Ph := 0 |> <| Rl := 0 |> <| Rh := 0 |> <| Pflag := 0 |>
    <| push_ovf := 0 |> <| mem_prot := 0 |> <| nxm_flag := 0 |> <| clk_flg := 0 |>
    <| PIR := 0 |> <| PIH := 0 |> <| PIE := 0 |> <| pi_enable := 0 |>
    <| parity_irq := 0 |>
    <| pi_pending := 0 |> <| pi_req := 0 |> <| pi_enc := 0 |> <| apr_irq := 0 |>
    <| ov_irq := 0 |> <| fov_irq := 0 |> <| clk_en := 0 |> <| clk_irq := 0 |>
    <| pi_restore := 0 |> <| pi_hold := 0 |>
    <| dev_irq := replicate 128 0 |>.

(** ** KA10 relocation and protection *)

(** [page_lookup(addr, flag, &loc, wr)] of the KA10 build.  The result is
    [Some loc] when the C function returns 1 after storing [loc], and
    [None] when it returns 0 and leaves [*loc] alone. *)
Definition page_lookup (addr flag wr : Z) (s : cpu) : option Z * cpu :=
  if (flag =? 0) && nz (FLAGS s .& USER) then
    if addr <=? (Pl s ≪ 10) + 01777%o then
      (Some ((AB s + (Rl s ≪ 10)) .& RMASK), s)
    else if nz (twoseg s)
            && ((lnot (Pflag s) .& wr) =? wr)
            && nz (AB s .& 0400000%o)
            && (addr <=? (Ph s ≪ 10) + 01777%o) then
      (Some ((AB s + (Rh s ≪ 10)) .& RMASK), s)
    else
      let* s := s <| mem_prot := 1 |> in
      let* s := set_interrupt 0 (apr_irq s) s in
      (None, s)
  else (Some addr, s).

(** ** Memory and fast registers *)

(** [#define get_reg(reg) FM[(reg) & 017]] *)
Definition get_reg (reg : Z) (s : cpu) : Z :=
  array_get (FM s) (reg .& 017%o).

(** [#define set_reg(reg, value, mem) FM[(reg) & 017] = value] *)
Definition set_reg (reg value : Z) (s : cpu) : cpu :=
  s <| FM := array_set (FM s) (reg .& 017%o) value |>.

Definition Mem_read (flag : Z) (s : cpu) : Z * cpu :=
  if AB s <? 020%o then
    (0, s <| MB := get_reg (AB s) s |>)
  else
    let* s := s <| sim_interval := sim_interval s - 1 |> in
    let* (loc, s) := page_lookup (AB s) flag 0 s in
    match loc with
    | None => (1, s)
    | Some addr =>
        if addr >? MEMSIZE s then
          let* s := s <| nxm_flag := 1 |> in
          let* s := set_interrupt 0 (apr_irq s) s in
          (1, s)
        else (0, s <| MB := M s addr |>)
    end.

Definition Mem_write (flag : Z) (s : cpu) : Z * cpu :=
  if AB s <? 020%o then
    (0, set_reg (AB s) (MB s) s)
  else
    let* s := s <| sim_interval := sim_interval s - 1 |> in
    let* (loc, s) := page_lookup (AB s) flag 1 s in
    match loc with
    | None => (1, s)
    | Some addr =>
        if addr >? MEMSIZE s then
          let* s := s <| nxm_flag := 1 |> in
          let* s := set_interrupt 0 (apr_irq s) s in
          (1, s)
        else (0, s <| M := <[addr := MB s]> (M s) |>)
    end.

(** The status codes the examine and deposit hooks return. *)
Inductive t_stat : Type := SCPE_OK | SCPE_NXM | SCPE_REL | SCPE_ARG.

(** [cpu_ex] called with a valid [vptr]; [sw_v] is [sw & SWMASK ('V')].
    The word stored through [vptr] is returned next to the status. *)
Definition cpu_ex (ea : Z) (sw_v : Z) (s : cpu) : t_stat * option Z :=
  if ea <? 020%o then (SCPE_OK, Some (array_get (FM s) ea .& FMASK))
  else if nz sw_v && (ea >=? MAXMEMSIZE) then (SCPE_REL, None)
  else if ea >=? MEMSIZE s then (SCPE_NXM, None)
  else (SCPE_OK, Some (M s ea .& FMASK)).

Definition cpu_dep (val ea : Z) (sw_v : Z) (s : cpu) : t_stat * cpu :=
  if ea <? 020%o then (SCPE_OK, s <| FM := array_set (FM s) ea (val .& FMASK) |>)
  else if nz sw_v && (ea >=? MAXMEMSIZE) then (SCPE_REL, s)
  else if ea >=? MEMSIZE s then (SCPE_NXM, s)
  else (SCPE_OK, s <| M := <[ea := val .& FMASK]> (M s) |>).

(** ** The operand-fetch table

    One entry for each of the 512 opcodes, in the order of the source (the
    KA10 branch of the table: the double-precision opcodes 110-127 have no
    flags). *)
Definition opflags : list Z := [
  (* UUO00 *) 0; (* LUUO01 *) 0; (* LUUO02 *) 0; (* LUUO03 *) 0;
  (* LUUO04 *) 0; (* LUUO05 *) 0; (* LUUO06 *) 0; (* LUUO07 *) 0;
  (* LUUO10 *) 0; (* LUUO11 *) 0; (* LUUO12 *) 0; (* LUUO13 *) 0;
  (* LUUO14 *) 0; (* LUUO15 *) 0; (* LUUO16 *) 0; (* LUUO17 *) 0;
  (* LUUO20 *) 0; (* LUUO21 *) 0; (* LUUO22 *) 0; (* LUUO23 *) 0;
  (* LUUO24 *) 0; (* LUUO25 *) 0; (* LUUO26 *) 0; (* LUUO27 *) 0;
  (* LUUO30 *) 0; (* LUUO31 *) 0; (* LUUO32 *) 0; (* LUUO33 *) 0;
  (* LUUO34 *) 0; (* LUUO35 *) 0; (* LUUO36 *) 0; (* LUUO37 *) 0;
  (* MUUO40 *) 0; (* MUUO41 *) 0; (* MUUO42 *) 0; (* MUUO43 *) 0;
  (* MUUO44 *) 0; (* MUUO45 *) 0; (* MUUO46 *) 0; (* MUUO47 *) 0;
  (* MUUO50 *) 0; (* MUUO51 *) 0; (* MUUO52 *) 0; (* MUUO53 *) 0;
  (* MUUO54 *) 0; (* MUUO55 *) 0; (* MUUO56 *) 0; (* MUUO57 *) 0;
  (* MUUO60 *) 0; (* MUUO61 *) 0; (* MUUO62 *) 0; (* MUUO63 *) 0;
  (* MUUO64 *) 0; (* MUUO65 *) 0; (* MUUO66 *) 0; (* MUUO67 *) 0;
  (* MUUO70 *) 0; (* MUUO71 *) 0; (* MUUO72 *) 0; (* MUUO73 *) 0;
  (* MUUO74 *) 0; (* MUUO75 *) 0; (* MUUO76 *) 0; (* MUUO77 *) 0;
  (* UJEN *) 0; (* UUO101 *) 0; (* GFAD *) 0; (* GFSB *) 0;
  (* JSYS *) 0; (* ADJSP *) 0; (* GFMP *) 0; (* GFDV *) 0;
  (* DFAD *) 0; (* DFSB *) 0; (* DFMP *) 0; (* DFDV *) 0;
  (* DADD *) 0; (* DSUB *) 0; (* DMUL *) 0; (* DDIV *) 0;
  (* DMOVE *) 0; (* DMOVN *) 0; (* FIX *) 0; (* EXTEND *) 0;
  (* DMOVEM *) 0; (* DMOVNM *) 0; (* FIXR *) 0; (* FLTR *) 0;
  (* UFA *) FCE .| FBR; (* DFN *) FCE .| FAC; (* FSC *) FAC .| SAC; (* IBP *) FCEPSE;
  (* ILDB *) FCEPSE; (* LDB *) FCE; (* IDPB *) FCEPSE; (* DPB *) FCE;
  (* FAD *) SAC .| FBR .| FCE; (* FADL *) SAC .| SAC2 .| FBR .| FCE; (* FADM *) FCEPSE .| FBR; (* FADB *) SAC .| FBR .| FCEPSE;
  (* FADR *) SAC .| FBR .| FCE; (* FADRI *) SAC .| FBR .| SWAR; (* FADRM *) FCEPSE .| FBR; (* FADRB *) SAC .| FBR .| FCEPSE;
  (* FSB *) SAC .| FBR .| FCE; (* FSBL *) SAC .| SAC2 .| FBR .| FCE; (* FSBM *) FCEPSE .| FBR; (* FSBB *) SAC .| FBR .| FCEPSE;
  (* FSBR *) SAC .| FBR .| FCE; (* FSBRI *) SAC .| FBR .| SWAR; (* FSBRM *) FCEPSE .| FBR; (* FSBRB *) SAC .| FBR .| FCEPSE;
  (* FMP *) SAC .| FBR .| FCE; (* FMPL *) SAC .| SAC2 .| FBR .| FCE; (* FMPM *) FCEPSE .| FBR; (* FMPB *) SAC .| FBR .| FCEPSE;
  (* FMPR *) SAC .| FBR .| FCE; (* FMPRI *) SAC .| FBR .| SWAR; (* FMPRM *) FCEPSE .| FBR; (* FMPRB *) SAC .| FBR .| FCEPSE;
  (* FDV *) SAC .| FBR .| FCE; (* FDVL *) FAC2 .| SAC2 .| SAC .| FBR .| FCE; (* FDVM *) FCEPSE .| FBR; (* FDVB *) SAC .| FBR .| FCEPSE;
  (* FDVR *) SAC .| FBR .| FCE; (* FDVRI *) SAC .| FBR .| SWAR; (* FDVRM *) FCEPSE .| FBR; (* FDVRB *) SAC .| FBR .| FCEPSE;
  (* MOVE *) SAC .| FCE; (* MOVEI *) SAC; (* MOVEM *) FAC .| SCE; (* MOVES *) SACZ .| FCEPSE;
  (* MOVS *) SWAR .| SAC .| FCE; (* MOVSI *) SWAR .| SAC; (* MOVSM *) SWAR .| FAC .| SCE; (* MOVSS *) SWAR .| SACZ .| FCEPSE;
  (* MOVN *) SAC .| FCE; (* MOVNI *) SAC; (* MOVNM *) FAC .| SCE; (* MOVNS *) SACZ .| FCEPSE;
  (* MOVM *) SAC .| FCE; (* MOVMI *) SAC; (* MOVMM *) FAC .| SCE; (* MOVMS *) SACZ .| FCEPSE;
  (* IMUL *) SAC .| FCE .| FBR; (* IMULI *) SAC .| FBR; (* IMULM *) FCEPSE .| FBR; (* IMULB *) SAC .| FCEPSE .| FBR;
  (* MUL *) SAC2 .| SAC .| FCE .| FBR; (* MULI *) SAC2 .| SAC .| FBR; (* MULM *) FCEPSE .| FBR; (* MULB *) SAC2 .| SAC .| FCEPSE .| FBR;
  (* IDIV *) SAC2 .| SAC .| FCE .| FAC; (* IDIVI *) SAC2 .| SAC .| FAC; (* IDIVM *) FCEPSE .| FAC; (* IDIVB *) SAC2 .| SAC .| FCEPSE .| FAC;
  (* DIV *) SAC2 .| SAC .| FCE .| FAC; (* DIVI *) SAC2 .| SAC .| FAC; (* DIVM *) FCEPSE .| FAC; (* DIVB *) SAC2 .| SAC .| FCEPSE .| FAC;
  (* ASH *) FAC .| SAC; (* ROT *) FAC .| SAC; (* LSH *) FAC .| SAC; (* JFFO *) FAC;
  (* ASHC *) FAC .| SAC .| SAC2 .| FAC2; (* ROTC *) FAC .| SAC .| SAC2 .| FAC2; (* LSHC *) FAC .| SAC .| SAC2 .| FAC2; (* UUO247 *) 0;
  (* EXCH *) FAC .| FCEPSE; (* BLT *) FAC; (* AOBJP *) FAC .| SAC; (* AOBJN *) FAC .| SAC;
  (* JRST *) 0; (* JFCL *) 0; (* XCT *) 0; (* MAP *) SAC;
  (* PUSHJ *) FAC .| SAC; (* PUSH *) FAC .| FCE .| SAC; (* POP *) FAC .| SAC; (* POPJ *) FAC .| SAC;
  (* JSR *) SCE; (* JSP *) SAC; (* JSA *) FBR .| SCE; (* JRA *) 0;
  (* ADD *) FBR .| SAC .| FCE; (* ADDI *) FBR .| SAC; (* ADDM *) FBR .| FCEPSE; (* ADDB *) FBR .| SAC .| FCEPSE;
  (* SUB *) FBR .| SAC .| FCE; (* SUBI *) FBR .| SAC; (* SUBM *) FBR .| FCEPSE; (* SUBB *) FBR .| SAC .| FCEPSE;
  (* CAI *) 0; (* CAIL *) 0; (* CAIE *) 0; (* CAILE *) 0;
  (* CAIA *) 0; (* CAIGE *) 0; (* CAIN *) 0; (* CAIG *) 0;
  (* CAM *) FCE; (* CAML *) FCE; (* CAME *) FCE; (* CAMLE *) FCE;
  (* CAMA *) FCE; (* CAMGE *) FCE; (* CAMN *) FCE; (* CAMG *) FCE;
  (* JUMP *) FAC; (* JUMPL *) FAC; (* JUMPE *) FAC; (* JUMPLE *) FAC;
  (* JUMPA *) FAC; (* JUMPGE *) FAC; (* JUMPN *) FAC; (* JUMPG *) FAC;
  (* SKIP *) SACZ .| FCE; (* SKIPL *) SACZ .| FCE; (* SKIPE *) SACZ .| FCE; (* SKIPLE *) SACZ .| FCE;
  (* SKIPA *) SACZ .| FCE; (* SKIPGE *) SACZ .| FCE; (* SKIPN *) SACZ .| FCE; (* SKIPG *) SACZ .| FCE;
  (* AOJ *) SAC .| FAC; (* AOJL *) SAC .| FAC; (* AOJE *) SAC .| FAC; (* AOJLE *) SAC .| FAC;
  (* AOJA *) SAC .| FAC; (* AOJGE *) SAC .| FAC; (* AOJN *) SAC .| FAC; (* AOJG *) SAC .| FAC;
  (* AOS *) SACZ .| FCEPSE; (* AOSL *) SACZ .| FCEPSE; (* AOSE *) SACZ .| FCEPSE; (* AOSLE *) SACZ .| FCEPSE;
  (* AOSA *) SACZ .| FCEPSE; (* AOSGE *) SACZ .| FCEPSE; (* AOSN *) SACZ .| FCEPSE; (* AOSG *) SACZ .| FCEPSE;
  (* SOJ *) SAC .| FAC; (* SOJL *) SAC .| FAC; (* SOJE *) SAC .| FAC; (* SOJLE *) SAC .| FAC;
  (* SOJA *) SAC .| FAC; (* SOJGE *) SAC .| FAC; (* SOJN *) SAC .| FAC; (* SOJG *) SAC .| FAC;
  (* SOS *) SACZ .| FCEPSE; (* SOSL *) SACZ .| FCEPSE; (* SOSE *) SACZ .| FCEPSE; (* SOSLE *) SACZ .| FCEPSE;
  (* SOSA *) SACZ .| FCEPSE; (* SOSGE *) SACZ .| FCEPSE; (* SOSN *) SACZ .| FCEPSE; (* SOSG *) SACZ .| FCEPSE;
  (* SETZ *) FBR .| SAC; (* SETZI *) FBR .| SAC; (* SETZM *) FBR .| SCE; (* SETZB *) FBR .| SAC .| SCE;
  (* AND *) FBR .| SAC .| FCE; (* ANDI *) FBR .| SAC; (* ANDM *) FBR .| FCEPSE; (* ANDB *) FBR .| SAC .| FCEPSE;
  (* ANDCA *) FBR .| SAC .| FCE; (* ANDCAI *) FBR .| SAC; (* ANDCAM *) FBR .| FCEPSE; (* ANDCAB *) FBR .| SAC .| FCEPSE;
  (* SETM *) FBR .| SAC .| FCE; (* SETMI *) FBR .| SAC; (* SETMM *) FBR; (* SETMB *) FBR .| SAC .| FCE;
  (* ANDCM *) FBR .| SAC .| FCE; (* ANDCMI *) FBR .| SAC; (* ANDCMM *) FBR .| FCEPSE; (* ANDCMB *) FBR .| SAC .| FCEPSE;
  (* SETA *) FBR .| SAC; (* SETAI *) FBR .| SAC; (* SETAM *) FBR .| SCE; (* SETAB *) FBR .| SAC .| SCE;
  (* XOR *) FBR .| SAC .| FCE; (* XORI *) FBR .| SAC; (* XORM *) FBR .| FCEPSE; (* XORB *) FBR .| SAC .| FCEPSE;
  (* IOR *) FBR .| SAC .| FCE; (* IORI *) FBR .| SAC; (* IORM *) FBR .| FCEPSE; (* IORB *) FBR .| SAC .| FCEPSE;
  (* ANDCB *) FBR .| SAC .| FCE; (* ANDCBI *) FBR .| SAC; (* ANDCBM *) FBR .| FCEPSE; (* ANDCBB *) FBR .| SAC .| FCEPSE;
  (* EQV *) FBR .| SAC .| FCE; (* EQVI *) FBR .| SAC; (* EQVM *) FBR .| FCEPSE; (* EQVB *) FBR .| SAC .| FCEPSE;
  (* SETCA *) FBR .| SAC; (* SETCAI *) FBR .| SAC; (* SETCAM *) FBR .| SCE; (* SETCAB *) FBR .| SAC .| SCE;
  (* ORCA *) FBR .| SAC .| FCE; (* ORCAI *) FBR .| SAC; (* ORCAM *) FBR .| FCEPSE; (* ORCAB *) FBR .| SAC .| FCEPSE;
  (* SETCM *) FBR .| SAC .| FCE; (* SETCMI *) FBR .| SAC; (* SETCMM *) FBR .| FCEPSE; (* SETCMB *) FBR .| SAC .| FCEPSE;
  (* ORCM *) FBR .| SAC .| FCE; (* ORCMI *) FBR .| SAC; (* ORCMM *) FBR .| FCEPSE; (* ORCMB *) FBR .| SAC .| FCEPSE;
  (* ORCB *) FBR .| SAC .| FCE; (* ORCBI *) FBR .| SAC; (* ORCBM *) FBR .| FCEPSE; (* ORCBB *) FBR .| SAC .| FCEPSE;
  (* SETO *) FBR .| SAC; (* SETOI *) FBR .| SAC; (* SETOM *) FBR .| SCE; (* SETOB *) FBR .| SAC .| SCE;
  (* HLL *) FBR .| SAC .| FCE; (* HLLI *) FBR .| SAC; (* HLLM *) FAC .| FMB .| FCEPSE; (* HLLS *) FMB .| SACZ .| FCEPSE;
  (* HRL *) SWAR .| FBR .| SAC .| FCE; (* HRLI *) SWAR .| FBR .| SAC; (* HRLM *) SWAR .| FAC .| FMB .| FCEPSE; (* HRLS *) SWAR .| FMB .| SACZ .| FCEPSE;
  (* HLLZ *) FBR .| SAC .| FCE; (* HLLZI *) FBR .| SAC; (* HLLZM *) FAC .| FMB .| FCEPSE; (* HLLZS *) FMB .| SACZ .| FCEPSE;
  (* HRLZ *) SWAR .| FBR .| SAC .| FCE; (* HRLZI *) SWAR .| FBR .| SAC; (* HRLZM *) SWAR .| FAC .| FMB .| FCEPSE; (* HRLZS *) SWAR .| FMB .| SACZ .| FCEPSE;
  (* HLLO *) FBR .| SAC .| FCE; (* HLLOI *) FBR .| SAC; (* HLLOM *) FAC .| FMB .| FCEPSE; (* HLLOS *) FMB .| SACZ .| FCEPSE;
  (* HRLO *) SWAR .| FBR .| SAC .| FCE; (* HRLOI *) SWAR .| FBR .| SAC; (* HRLOM *) SWAR .| FAC .| FMB .| FCEPSE; (* HRLOS *) SWAR .| FMB .| SACZ .| FCEPSE;
  (* HLLE *) FBR .| SAC .| FCE; (* HLLEI *) FBR .| SAC; (* HLLEM *) FAC .| FMB .| FCEPSE; (* HLLES *) FMB .| SACZ .| FCEPSE;
  (* HRLE *) SWAR .| FBR .| SAC .| FCE; (* HRLEI *) SWAR .| FBR .| SAC; (* HRLEM *) SWAR .| FAC .| FMB .| FCEPSE; (* HRLES *) SWAR .| FMB .| SACZ .| FCEPSE;
  (* HRR *) FBR .| SAC .| FCE; (* HRRI *) FBR .| SAC; (* HRRM *) FAC .| FMB .| FCEPSE; (* HRRS *) FMB .| SACZ .| FCEPSE;
  (* HLR *) SWAR .| FBR .| SAC .| FCE; (* HLRI *) SWAR .| FBR .| SAC; (* HLRM *) SWAR .| FAC .| FMB .| FCEPSE; (* HLRS *) SWAR .| FMB .| SACZ .| FCEPSE;
  (* HRRZ *) FBR .| SAC .| FCE; (* HRRZI *) FBR .| SAC; (* HRRZM *) FAC .| FMB .| FCEPSE; (* HRRZS *) FMB .| SACZ .| FCEPSE;
  (* HLRZ *) SWAR .| FBR .| SAC .| FCE; (* HLRZI *) SWAR .| FBR .| SAC; (* HLRZM *) SWAR .| FAC .| FMB .| FCEPSE; (* HLRZS *) SWAR .| FMB .| SACZ .| FCEPSE;
  (* HRRO *) FBR .| SAC .| FCE; (* HRROI *) FBR .| SAC; (* HRROM *) FAC .| FMB .| FCEPSE; (* HRROS *) FMB .| SACZ .| FCEPSE;
  (* HLRO *) SWAR .| FBR .| SAC .| FCE; (* HLROI *) SWAR .| FBR .| SAC; (* HLROM *) SWAR .| FAC .| FMB .| FCEPSE; (* HLROS *) SWAR .| FMB .| SACZ .| FCEPSE;
  (* HRRE *) FBR .| SAC .| FCE; (* HRREI *) FBR .| SAC; (* HRREM *) FAC .| FMB .| FCEPSE; (* HRRES *) FMB .| SACZ .| FCEPSE;
  (* HLRE *) SWAR .| FBR .| SAC .| FCE; (* HLREI *) SWAR .| FBR .| SAC; (* HLREM *) SWAR .| FAC .| FMB .| FCEPSE; (* HLRES *) SWAR .| FMB .| SACZ .| FCEPSE;
  (* TRN *) FBR; (* TLN *) FBR .| SWAR; (* TRNE *) FBR; (* TLNE *) FBR .| SWAR;
  (* TRNA *) FBR; (* TLNA *) FBR .| SWAR; (* TRNN *) FBR; (* TLNN *) FBR .| SWAR;
  (* TDN *) FBR .| FCE; (* TSN *) FBR .| SWAR .| FCE; (* TDNE *) FBR .| FCE; (* TSNE *) FBR .| SWAR .| FCE;
  (* TDNA *) FBR .| FCE; (* TSNA *) FBR .| SWAR .| FCE; (* TDNN *) FBR .| FCE; (* TSNN *) FBR .| SWAR .| FCE;
  (* TRZ *) FBR .| SAC; (* TLZ *) FBR .| SAC .| SWAR; (* TRZE *) FBR .| SAC; (* TLZE *) FBR .| SAC .| SWAR;
  (* TRZA *) FBR .| SAC; (* TLZA *) FBR .| SAC .| SWAR; (* TRZN *) FBR .| SAC; (* TLZN *) FBR .| SAC .| SWAR;
  (* TDZ *) FBR .| SAC .| FCE; (* TSZ *) FBR .| SAC .| SWAR .| FCE; (* TDZE *) FBR .| SAC .| FCE; (* TSZE *) FBR .| SAC .| SWAR .| FCE;
  (* TDZA *) FBR .| SAC .| FCE; (* TSZA *) FBR .| SAC .| SWAR .| FCE; (* TDZN *) FBR .| SAC .| FCE; (* TSZN *) FBR .| SAC .| SWAR .| FCE;
  (* TRC *) FBR .| SAC; (* TLC *) FBR .| SAC .| SWAR; (* TRCE *) FBR .| SAC; (* TLCE *) FBR .| SAC .| SWAR;
  (* TRCA *) FBR .| SAC; (* TLCA *) FBR .| SAC .| SWAR; (* TRCN *) FBR .| SAC; (* TLCN *) FBR .| SAC .| SWAR;
  (* TDC *) FBR .| SAC .| FCE; (* TSC *) FBR .| SAC .| SWAR .| FCE; (* TDCE *) FBR .| SAC .| FCE; (* TSCE *) FBR .| SAC .| SWAR .| FCE;
  (* TDCA *) FBR .| SAC .| FCE; (* TSCA *) FBR .| SAC .| SWAR .| FCE; (* TDCN *) FBR .| SAC .| FCE; (* TSCN *) FBR .| SAC .| SWAR .| FCE;
  (* TRO *) FBR .| SAC; (* TLO *) FBR .| SAC .| SWAR; (* TROE *) FBR .| SAC; (* TLOE *) FBR .| SAC .| SWAR;
  (* TROA *) FBR .| SAC; (* TLOA *) FBR .| SAC .| SWAR; (* TRON *) FBR .| SAC; (* TLON *) FBR .| SAC .| SWAR;
  (* TDO *) FBR .| SAC .| FCE; (* TSO *) FBR .| SWAR .| SAC .| FCE; (* TDOE *) FBR .| SAC .| FCE; (* TSOE *) FBR .| SAC .| SWAR .| FCE;
  (* TDOA *) FBR .| SAC .| FCE; (* TSOA *) FBR .| SWAR .| SAC .| FCE; (* TDON *) FBR .| SAC .| FCE; (* TSON *) FBR .| SAC .| SWAR .| FCE;
  (* IOT700 *) 0; (* IOT701 *) 0; (* IOT702 *) 0; (* IOT703 *) 0;
  (* IOT704 *) 0; (* IOT705 *) 0; (* IOT706 *) 0; (* IOT707 *) 0;
  (* IOT710 *) 0; (* IOT711 *) 0; (* IOT712 *) 0; (* IOT713 *) 0;
  (* IOT714 *) 0; (* IOT715 *) 0; (* IOT716 *) 0; (* IOT717 *) 0;
  (* IOT720 *) 0; (* IOT721 *) 0; (* IOT722 *) 0; (* IOT723 *) 0;
  (* IOT724 *) 0; (* IOT725 *) 0; (* IOT726 *) 0; (* IOT727 *) 0;
  (* IOT730 *) 0; (* IOT731 *) 0; (* IOT732 *) 0; (* IOT733 *) 0;
  (* IOT734 *) 0; (* IOT735 *) 0; (* IOT736 *) 0; (* IOT737 *) 0;
  (* IOT740 *) 0; (* IOT741 *) 0; (* IOT742 *) 0; (* IOT743 *) 0;
  (* IOT744 *) 0; (* IOT745 *) 0; (* IOT746 *) 0; (* IOT747 *) 0;
  (* IOT750 *) 0; (* IOT751 *) 0; (* IOT752 *) 0; (* IOT753 *) 0;
  (* IOT754 *) 0; (* IOT755 *) 0; (* IOT756 *) 0; (* IOT757 *) 0;
  (* IOT760 *) 0; (* IOT761 *) 0; (* IOT762 *) 0; (* IOT763 *) 0;
  (* IOT764 *) 0; (* IOT765 *) 0; (* IOT766 *) 0; (* IOT767 *) 0;
  (* IOT770 *) 0; (* IOT771 *) 0; (* IOT772 *) 0; (* IOT773 *) 0;
  (* IOT774 *) 0; (* IOT775 *) 0; (* IOT776 *) 0; (* IOT777 *) 0
].

(** ** Instruction execution: operand fetch *)

(** [#define SWAP_AR ((RMASK & AR) << 18) | ((AR >> 18) & RMASK)] *)
Definition SWAP_AR (s : cpu) : Z :=
  u64 ((RMASK .& AR s) ≪ 18) .| ((AR s ≫ 18) .& RMASK).

(** Where control goes when a phase of [sim_instr] ends: on to the next
    statement, or to the label [last]. *)
Inductive flow : Type := Next | GotoLast.

(** From the label [fetch_opr] to the [switch]: the pseudo registers are
    loaded as the flags of the instruction ask. *)
Definition fetch_opr (s : cpu) : flow * cpu :=
  let* s := s <| f_inst_fetch := 1 |> <| f_load_pc := 1 |> <| f_pc_inh := 0 |>
             <| sac_inh := 0 |> in
  let* (fl, s) :=
    if nz (i_flags s .& (FCEPSE .| FCE)) then
      let* (r, s) := Mem_read 0 s in
      if nz r then (GotoLast, s) else (Next, s <| AR := MB s |>)
    else (Next, s) in
  match fl with
  | GotoLast => (GotoLast, s)
  | Next =>
      let* s :=
        if nz (i_flags s .& FAC) then
          let* s := s <| BR := AR s |> in
          s <| AR := get_reg (AC s) s |>
        else s in
      let* s := if nz (i_flags s .& SWAR) then s <| AR := SWAP_AR s |> else s in
      let* s := if nz (i_flags s .& FBR) then s <| BR := get_reg (AC s) s |> else s in
      let* s := if nz (i_flags s .& FMB) then s <| BR := MB s |> else s in
      let* s :=
        if nz (i_flags s .& FAC2) then s <| MQ := get_reg ((AC s + 1) .& 017%o) s |>
        else if BYF5 s =? 0 then s <| MQ := 0 |>
        else s in
      (Next, s)
  end.

(** ** Instruction execution: byte instructions *)

(** A measure that decreases along [SC = (SC + 1) & 0777] until [SC] is 0:
    after one step the counter lies in 0..0777, and from there it climbs to
    0777 and wraps to 0. *)
Definition sc_measure (sc : Z) : nat :=
  Z.to_nat (if sc =? 0 then 0
            else if (0 <? sc) && (sc <? 512) then 512 - sc else 513).

Lemma sc_measure_step (sc : Z) :
  sc <> 0 -> (sc_measure ((sc + 1) .& 0777%o) < sc_measure sc)%nat.
Proof.
  intros Hsc. unfold sc_measure.
  change 0777%o with (Z.ones 9). rewrite Z.land_ones by lia.
  change (2 ^ 9) with 512.
  pose proof (Z.mod_pos_bound (sc + 1) 512 ltac:(lia)) as Hb.
  assert (Hs : 0 < sc < 511 -> (sc + 1) mod 512 = sc + 1)
    by (intros; apply Z.mod_small; lia).
  assert (Hw : sc = 511 -> (sc + 1) mod 512 = 0) by (intros ->; reflexivity).
  repeat match goal with
         | |- context [?a =? ?b] => destruct (Z.eqb_spec a b)
         | |- context [?a <? ?b] => destruct (Z.ltb_spec a b)
         end; cbn [andb]; lia.
Qed.

(** [while(SC != 0) { AR >>= 1; SC = (SC + 1) & 0777; }] of LDB, on the
    pair (AR, SC). *)
Equations ldb_shift (ar sc : Z) : Z * Z by wf (sc_measure sc) lt :=
  ldb_shift ar sc with Z.eq_dec sc 0 => {
    | left _ := (ar, sc);
    | right _ := ldb_shift (ar ≫ 1) ((sc + 1) .& 0777%o) }.
Next Obligation. now apply sc_measure_step. Qed.

(** [while(SC != 0) { AR <<= 1; MQ <<= 1; SC = (SC + 1) & 0777; }] of DPB,
    on the triple (AR, MQ, SC). *)
Equations dpb_shift (ar mq sc : Z) : Z * Z * Z by wf (sc_measure sc) lt :=
  dpb_shift ar mq sc with Z.eq_dec sc 0 => {
    | left _ := (ar, mq, sc);
    | right _ := dpb_shift (u64 (ar ≪ 1)) (u64 (mq ≪ 1)) ((sc + 1) .& 0777%o) }.
Next Obligation. now apply sc_measure_step. Qed.

(** The body of [if ((FLAGS & BYTI) == 0)] under [case 3: case 4: case 6:]
    of the byte group: the pointer in AR is advanced by one byte. *)
Definition byte_incr (s : cpu) : cpu :=
  let* s := s <| SC := (AR s ≫ 24) .& 077%o |> in
  let* s := s <| SCAD := (((AR s ≫ 30) .& 077%o) + (0777%o .^ SC s) + 1) .& 0777%o |> in
  let* s :=
    if nz (SCAD s .& 0400%o) then
      let* s := s <| SC := ((0777%o .^ ((AR s ≫ 24) .& 077%o)) + 044%o + 1) .& 0777%o |> in
      s <| AR := u64 (AR s + 1) .& FMASK |>
    else s <| SC := SCAD s |> in
  let* s := s <| AR := AR s .& PMASK |> in
  s <| AR := AR s .| u64 ((SC s .& 077%o) ≪ 30) |>.

(** The code under [case 5: case 7:], which the incrementing forms fall
    into: the first pass sets up the shift count and the mask and asks for
    a second pass; the second pass loads or deposits the byte. *)
Definition byte_ldb_dpb (s : cpu) : cpu :=
  if ((FLAGS s .& BYTI) =? 0) || (BYF5 s =? 0) then
    let* s := s <| SC := (AR s ≫ 30) .& 077%o |> in
    let* s := s <| MQ := u64 (1 ≪ (077%o .& (AR s ≫ 24))) |> in
    let* s := s <| MQ := u64 (MQ s - 1) |> in
    let* s := s <| SC := ((0777%o .^ SC s) + 1) .& 0777%o |> in
    let* s := s <| f_load_pc := 0 |> <| f_inst_fetch := 0 |> <| f_pc_inh := 1 |> in
    let* s := s <| FLAGS := FLAGS s .| BYTI |> in
    s <| BYF5 := 1 |>
  else
    let* s :=
      if (IR s .& 06%o) =? 4 then
        let* s := s <| AR := MB s |> in
        let* p := ldb_shift (AR s) (SC s) in
        let* s := s <| AR := fst p |> <| SC := snd p |> in
        let* s := s <| AR := AR s .& MQ s |> in
        set_reg (AC s) (AR s) s
      else
        let* s := s <| BR := MB s |> in
        let* s := s <| AR := get_reg (AC s) s .& MQ s |> in
        let* p := dpb_shift (AR s) (MQ s) (SC s) in
        let* s := s <| AR := fst (fst p) |> <| MQ := snd (fst p) |> <| SC := snd p |> in
        let* s := s <| BR := BR s .& CM (MQ s) |> in
        let* s := s <| AR := AR s .& FMASK |> in
        let* s := s <| BR := BR s .| (AR s .& MQ s) |> in
        let* s := s <| MB := BR s |> in
        let* (_, s) := Mem_write 0 s in
        s in
    let* s := s <| FLAGS := FLAGS s .& Z.lnot BYTI |> in
    s <| BYF5 := 0 |>.

(** [case 0130] for the byte instructions proper (IBP, ILDB, LDB, IDPB,
    DPB); the three floating-point opcodes that share the group are not
    embedded. *)
Definition op_byte (s : cpu) : option cpu :=
  let* op := IR s .& 07%o in
  if (op =? 3) || (op =? 4) || (op =? 6) then
    if (FLAGS s .& BYTI) =? 0 then
      let* s := byte_incr s in
      if (IR s .& 04%o) =? 0 then Some s
      else let* s := byte_ldb_dpb s in Some s
    else let* s := byte_ldb_dpb s in Some s
  else if (op =? 5) || (op =? 7) then let* s := byte_ldb_dpb s in Some s
  else None.

(** ** Instruction execution: full-word arithmetic *)

(** [case 0210]: MOVN, MOVM. *)
Definition op_movn (s : cpu) : cpu :=
  if nz (IR s .& 04%o) && ((AR s .& SMASK) =? 0) then s
  else
    let* s := s <| flag1 := 0 |> <| flag3 := 0 |> in
    let* s := s <| FLAGS := FLAGS s .& 01777%o |> in
    let* s :=
      if nz ((((AR s .& CMASK) .^ CMASK) + 1) .& SMASK) then
        s <| FLAGS := FLAGS s .| CRY1 |> <| flag1 := 1 |>
      else s in
    let* s := s <| AD := u64 (CM (AR s) + 1) |> in
    let* s :=
      if nz (AD s .& C1) then
        s <| FLAGS := FLAGS s .| CRY0 |> <| flag3 := 1 |>
      else s in
    let* s :=
      if negb (flag1 s =? flag3 s) && (pi_cycle s =? 0) then
        check_apr_irq (s <| FLAGS := FLAGS s .| (OVR .| TRP1) |>)
      else s in
    s <| AR := AD s .& FMASK |>.

(** [case 0270]: ADD, SUB.  AR holds the memory (or immediate) operand and
    BR the accumulator; SUB computes BR - AR as [CM(AR) + BR + 1]. *)
Definition op_add_sub (s : cpu) : cpu :=
  let* s :=
    if nz (IR s .& 04%o) then
      let* s := s <| flag1 := 0 |> <| flag3 := 0 |> in
      let* s := s <| FLAGS := FLAGS s .& 01777%o |> in
      let* s :=
        if nz ((((AR s .& CMASK) .^ CMASK) + (BR s .& CMASK) + 1) .& SMASK) then
          s <| FLAGS := FLAGS s .| CRY1 |> <| flag1 := 1 |>
        else s in
      let* s := s <| BR := u64 (CM (AR s) + BR s + 1) |> in
      let* s :=
        if nz (BR s .& C1) then
          s <| FLAGS := FLAGS s .| CRY0 |> <| flag3 := 1 |>
        else s in
      if negb (flag1 s =? flag3 s) then
        check_apr_irq (s <| FLAGS := FLAGS s .| OVR |>)
      else s
    else
      let* s := s <| flag1 := 0 |> <| flag3 := 0 |> in
      let* s := s <| FLAGS := FLAGS s .& 01777%o |> in
      let* s :=
        if nz (((AR s .& CMASK) + (BR s .& CMASK)) .& SMASK) then
          s <| FLAGS := FLAGS s .| CRY1 |> <| flag1 := 1 |>
        else s in
      let* s := s <| BR := u64 (AR s + BR s) |> in
      let* s :=
        if nz (BR s .& C1) then
          s <| FLAGS := FLAGS s .| CRY0 |> <| flag3 := 1 |>
        else s in
      if negb (flag1 s =? flag3 s) then
        check_apr_irq (s <| FLAGS := FLAGS s .| OVR |>)
      else s in
  let* s := s <| BR := BR s .& FMASK |> in
  s <| AR := BR s |>.

(** ** Instruction execution: compare, jump and skip *)

(** From the label [skip_op] to the [break]. *)
Definition skip_op (s : cpu) : cpu :=
  let* s := s <| AD := AD s .& FMASK |> in
  let* s := s <| AR := AD s |> in
  let* s := s <| f := f s .| (b2z (AD s =? 0) ≪ 1) |> in
  let* s := s <| f := f s .& IR s |> in
  if Bool.eqb (nz (IR s .& 04%o)) (f s =? 0) then
    let* sel := IR s .& 070%o in
    if (sel =? 020%o) || (sel =? 040%o) || (sel =? 060%o) then
      s <| PC := AB s |> <| f_pc_inh := 1 |>
    else
      s <| PC := (PC s + 1) .& RMASK |>
  else s.

(** [case 0300: case 0310:] CAM, CAI. *)
Definition op_cam (s : cpu) : cpu :=
  let* s := s <| f := 0 |> in
  let* s := s <| AD := u64 ((CM (AR s) + get_reg (AC s) s) + 1) |> in
  let* s :=
    if nz (get_reg (AC s) s .& SMASK) && ((AR s .& SMASK) =? 0) then
      s <| f := 1 |>
    else s in
  let* s :=
    if ((get_reg (AC s) s .& SMASK) =? (AR s .& SMASK)) && nz (AD s .& SMASK) then
      s <| f := 1 |>
    else s in
  skip_op s.

(** [case 0320: case 0330:] JUMP, SKIP. *)
Definition op_jump_skip (s : cpu) : cpu :=
  let* s := s <| AD := AR s |> in
  let* s := s <| f := b2z (nz (AD s .& SMASK)) |> in
  skip_op s.

(** [case 0340: case 0350: case 0360: case 0370:] AOJ, AOS, SOJ, SOS. *)
Definition op_aoj_sos (s : cpu) : cpu :=
  let* s := s <| flag1 := 0 |> <| flag3 := 0 |> in
  let* s := s <| FLAGS := FLAGS s .& 01777%o |> in
  let* s := s <| AD := if nz (IR s .& 020%o) then FMASK else 1 |> in
  let* s :=
    if nz (((AR s .& CMASK) + (AD s .& CMASK)) .& SMASK) then
      s <| FLAGS := FLAGS s .| CRY1 |> <| flag1 := 1 |>
    else s in
  let* s := s <| AD := u64 (AR s + AD s) |> in
  let* s :=
    if nz (AD s .& C1) then
      s <| FLAGS := FLAGS s .| CRY0 |> <| flag3 := 1 |>
    else s in
  let* s :=
    if negb (flag1 s =? flag3 s) then
      check_apr_irq (s <| FLAGS := FLAGS s .| OVR |>)
    else s in
  let* s := s <| f := b2z (nz (AD s .& SMASK)) |> in
  skip_op s.

(** ** Instruction execution: multiplication *)

(** [case 0220]: IMUL, MUL.  The magnitudes are multiplied in two parts
    of 18 bits; the products are [uint64] and wrap at 64 bits. *)
Definition op_mul (s : cpu) : cpu :=
  let* s := s <| flag3 := 0 |> in
  let* s :=
    if nz (AR s .& SMASK) then
      let* s := s <| AR := u64 (CM (AR s) + 1) .& FMASK |> in
      s <| flag3 := 1 |>
    else s in
  let* s :=
    if nz (BR s .& SMASK) then
      let* s := s <| BR := u64 (CM (BR s) + 1) .& FMASK |> in
      s <| flag3 := lnot (flag3 s) |>
    else s in
  if (AR s =? 0) || (BR s =? 0) then
    let* s := s <| MQ := 0 |> in
    s <| AR := MQ s |>
  else
    let* s := if BR s =? SMASK then s <| flag3 := lnot (flag3 s) |> else s in
    let* s := s <| MQ := u64 (AR s * (BR s .& RMASK)) |> in
    let* s := s <| AR := u64 (AR s * ((BR s ≫ 18) .& RMASK)) |> in
    let* s := s <| MQ := u64 (MQ s + (u64 (AR s ≪ 18) .& LMASK)) |> in
    let* s := s <| AR := AR s ≫ 18 |> in
    let* s := s <| AR := u64 (u64 (AR s ≪ 1) + (MQ s ≫ 35)) |> in
    let* s := s <| MQ := MQ s .& CMASK |> in
    if (IR s .& 4) =? 0 then
      let* s :=
        if AR s >? u64 (flag3 s)
        then check_apr_irq (s <| FLAGS := FLAGS s .| OVR |>)
        else s in
      let* s :=
        if nz (flag3 s) then
          let* s := s <| MQ := MQ s .^ CMASK |> in
          let* s := s <| MQ := u64 (MQ s + 1) |> in
          s <| MQ := MQ s .| SMASK |>
        else s in
      s <| AR := MQ s |>
    else
      let* s :=
        if nz (AR s .& SMASK)
        then check_apr_irq (s <| FLAGS := FLAGS s .| OVR |>)
        else s in
      let* s :=
        if nz (flag3 s) then
          let* s := s <| AR := AR s .^ FMASK |> in
          let* s := s <| MQ := MQ s .^ CMASK |> in
          let* s := s <| MQ := u64 (MQ s + 1) |> in
          if nz (MQ s .& SMASK) then
            let* s := s <| AR := u64 (AR s + 1) |> in
            s <| MQ := MQ s .& CMASK |>
          else s
        else s in
      let* s := s <| AR := AR s .& FMASK |> in
      s <| MQ := (MQ s .& Z.lnot SMASK) .| (AR s .& SMASK) |>.

(** ** Instruction execution: branches that store nothing *)

(** [case 0250], [case 5]: JFCL. *)
Definition op_jfcl (s : cpu) : cpu :=
  let* s :=
    if nz ((FLAGS s ≫ 9) .& AC s)
    then s <| PC := AR s mod 2 ^ 32 |> <| f_pc_inh := 1 |>
    else s in
  s <| FLAGS := FLAGS s .& (017777%o .^ (AC s ≪ 9)) |>.

(** [case 0250], [case 6]: XCT. *)
Definition op_xct (s : cpu) : cpu :=
  let* s := s <| f_load_pc := 0 |> in
  s <| f_pc_inh := 1 |>.

(** ** Instruction execution: Boolean functions *)

(** [case 0400] to [case 0470]: the sixteen functions of two words,
    selected by [(IR >> 2) & 017]. *)
Definition op_bool (s : cpu) : cpu :=
  let* fn := (IR s ≫ 2) .& 017%o in
  if fn =? 0 then s <| AR := 0 |>
  else if fn =? 1 then s <| AR := AR s .& BR s |>
  else if fn =? 2 then s <| AR := AR s .& CM (BR s) |>
  else if fn =? 3 then s
  else if fn =? 4 then s <| AR := CM (AR s) .& BR s |>
  else if fn =? 5 then s <| AR := BR s |>
  else if fn =? 6 then s <| AR := AR s .^ BR s |>
  else if fn =? 7 then s <| AR := CM (CM (AR s) .& CM (BR s)) |>
  else if fn =? 8 then s <| AR := CM (AR s) .& CM (BR s) |>
  else if fn =? 9 then s <| AR := CM (AR s .^ BR s) |>
  else if fn =? 10 then s <| AR := CM (BR s) |>
  else if fn =? 11 then s <| AR := CM (CM (AR s) .& BR s) |>
  else if fn =? 12 then s <| AR := CM (AR s) |>
  else if fn =? 13 then s <| AR := CM (AR s .& CM (BR s)) |>
  else if fn =? 14 then s <| AR := CM (AR s .& BR s) |>
  else s <| AR := FMASK |>.

(** ** Instruction execution: half words *)

(** [case 0500] to [case 0560]: HxL, HxLZ, HxLO, HxLE, HxR, HxRZ, HxRO.
    The case 0570 (HxRE) tests a constant of [ka10_defs.h] that neither
    the sources at hand nor the specification give; it is not embedded,
    and the function yields [None] for it. *)
Definition op_half (s : cpu) : option cpu :=
  let* grp := IR s .& 0770%o in
  if grp =? 0500%o then Some (s <| AR := (AR s .& LMASK) .| (BR s .& RMASK) |>)
  else if grp =? 0510%o then Some (s <| AR := AR s .& LMASK |>)
  else if grp =? 0520%o then Some (s <| AR := (AR s .& LMASK) .| RMASK |>)
  else if grp =? 0530%o then
    let* s := s <| AD := if nz (AR s .& SMASK) then RMASK else 0 |> in
    Some (s <| AR := (AR s .& LMASK) .| AD s |>)
  else if grp =? 0540%o then Some (s <| AR := (BR s .& LMASK) .| (AR s .& RMASK) |>)
  else if grp =? 0550%o then Some (s <| AR := AR s .& RMASK |>)
  else if grp =? 0560%o then Some (s <| AR := LMASK .| (AR s .& RMASK) |>)
  else None.

(** ** Instruction execution: test and modify *)

(** [case 0600] to [case 0670] and the label [test_op] they go to. *)
Definition op_test (s : cpu) : cpu :=
  let* grp := IR s .& 0770%o in
  let* s :=
    if (grp =? 0600%o) || (grp =? 0610%o) then s <| MQ := AR s |>
    else if (grp =? 0620%o) || (grp =? 0630%o)
    then s <| MQ := CM (AR s) .& BR s |>
    else if (grp =? 0640%o) || (grp =? 0650%o)
    then s <| MQ := AR s .^ BR s |>
    else s <| MQ := AR s .| BR s |> in
  let* s := s <| AR := AR s .& BR s |> in
  let* s := s <| f := (b2z (AR s =? 0) .& ((IR s ≫ 1) .& 1))
                        .^ ((IR s ≫ 2) .& 1) |> in
  let* s := if nz (f s) then s <| PC := (PC s + 1) .& RMASK |> else s in
  s <| AR := MQ s |>.

(** ** Instruction execution: dispatch, write-back and epilogue *)

(** [switch (IR & 0770)], for the groups embedded in this development:
    the byte instructions, the full-word moves, MOVN and MOVM, IMUL and
    MUL, of the branch group EXCH, JFCL, XCT and MAP (which does nothing
    on the KA10), ADD and SUB, the compare, jump and skip group, the Boolean
    functions, the half-word moves but HxRE, and the tests.  Every other
    opcode yields [None]. *)
Definition dispatch (s : cpu) : option cpu :=
  let* grp := IR s .& 0770%o in
  if grp =? 0130%o then op_byte s
  else if grp =? 0200%o then Some s
  else if grp =? 0210%o then let* s := op_movn s in Some s
  else if grp =? 0220%o then let* s := op_mul s in Some s
  else if grp =? 0250%o then
    if (IR s .& 07%o) =? 0 then Some (set_reg (AC s) (BR s) s)
    else if (IR s .& 07%o) =? 5 then let* s := op_jfcl s in Some s
    else if (IR s .& 07%o) =? 6 then let* s := op_xct s in Some s
    else if (IR s .& 07%o) =? 7 then Some s
    else None
  else if grp =? 0270%o then let* s := op_add_sub s in Some s
  else if (grp =? 0300%o) || (grp =? 0310%o) then let* s := op_cam s in Some s
  else if (grp =? 0320%o) || (grp =? 0330%o) then
    let* s := op_jump_skip s in Some s
  else if (grp =? 0340%o) || (grp =? 0350%o) || (grp =? 0360%o) || (grp =? 0370%o)
  then let* s := op_aoj_sos s in Some s
  else if (grp =? 0400%o) || (grp =? 0410%o) || (grp =? 0420%o) || (grp =? 0430%o)
          || (grp =? 0440%o) || (grp =? 0450%o) || (grp =? 0460%o) || (grp =? 0470%o)
  then let* s := op_bool s in Some s
  else if (grp =? 0500%o) || (grp =? 0510%o) || (grp =? 0520%o) || (grp =? 0530%o)
          || (grp =? 0540%o) || (grp =? 0550%o) || (grp =? 0560%o)
  then op_half s
  else if (grp =? 0600%o) || (grp =? 0610%o) || (grp =? 0620%o) || (grp =? 0630%o)
          || (grp =? 0640%o) || (grp =? 0650%o) || (grp =? 0660%o) || (grp =? 0670%o)
  then let* s := op_test s in Some s
  else None.

(** From the end of the [switch] to the label [last]: the results go back
    to memory and to the accumulators as the flags ask. *)
Definition write_back (s : cpu) : flow * cpu :=
  let* (fl, s) :=
    if (sac_inh s =? 0) && nz (i_flags s .& (SCE .| FCEPSE)) then
      let* s := s <| MB := AR s |> in
      let* (r, s) := Mem_write 0 s in
      if nz r then (GotoLast, s) else (Next, s)
    else (Next, s) in
  match fl with
  | GotoLast => (GotoLast, s)
  | Next =>
      let* s :=
        if (sac_inh s =? 0)
           && (nz (i_flags s .& SAC) || (nz (i_flags s .& SACZ) && nz (AC s)))
        then set_reg (AC s) (AR s) s
        else s in
      let* s :=
        if (sac_inh s =? 0) && nz (i_flags s .& SAC2)
        then set_reg ((AC s + 1) .& 017%o) (MQ s) s
        else s in
      (Next, s)
  end.

(** How the loop body of [sim_instr] ends: it falls out of the body and
    the [while] loop comes round again, or it jumps back to [fetch] for
    the next word of an interrupt sequence. *)
Inductive resume : Type := LoopAgain | GotoFetch.

(** From the label [last] to the end of the loop body. *)
Definition last (s : cpu) : resume * cpu :=
  let* s :=
    if nz (lnot (f_pc_inh s) .& lnot (pi_cycle s)) then
      s <| PC := (PC s + 1) .& RMASK |>
    else s in
  let* refetch := fun s : cpu =>
    let* s := s <| AB := 040%o .| (pi_enc s ≪ 1) .| pi_ov s |> in
    (GotoFetch, s <| pi_ov := 0 |> <| pi_hold := 0 |>) in
  let* (r, s) :=
    if nz (pi_cycle s) then
      if ((IR s .& 0700%o) =? 0700%o) && ((AC s .& 04%o) =? 0) then
        let* s := s <| pi_hold := pi_ov s |> in
        if nz (lnot (pi_hold s) .& f_inst_fetch s) then
          (LoopAgain, s <| pi_restore := 1 |> <| pi_cycle := 0 |>)
        else refetch s
      else if nz (pi_hold s) then refetch s
      else (LoopAgain, s <| f_inst_fetch := 1 |> <| f_load_pc := 1 |> <| pi_cycle := 0 |>)
    else (LoopAgain, s) in
  match r with
  | GotoFetch => (GotoFetch, s)
  | LoopAgain =>
      let* s :=
        if nz (pi_restore s) then
          let* s := restore_pi_hold s in
          s <| pi_restore := 0 |>
        else s in
      (LoopAgain, s <| sim_interval := sim_interval s - 1 |>)
  end.

(** One instruction, from [fetch_opr] to the end of the loop body. *)
Definition execute (s : cpu) : option (resume * cpu) :=
  let* (fl, s) := fetch_opr s in
  match fl with
  | GotoLast => let* r := last s in Some r
  | Next =>
      let* d := dispatch s in
      match d with
      | None => None
      | Some s =>
          let* (_, s) := write_back s in
          let* r := last s in
          Some r
      end
  end.
(** * Verification *)

(** ** The state at power-up

    C initialises static storage to zero; [cpu_unit] is declared with the
    full memory size and the two-segment option. *)
Definition power_up : cpu := {|
  M := fun _ => 0; FM := replicate 16 0;
  AR := 0; MQ := 0; BR := 0; AD := 0; MB := 0;
  AB := 0; PC := 0; IR := 0; FLAGS := 0; AC := 0;
  BYF5 := 0; uuo_cycle := 0; SC := 0; SCAD := 0;
  Pl := 0; Ph := 0; Rl := 0; Rh := 0; Pflag := 0;
  push_ovf := 0; mem_prot := 0; nxm_flag := 0; clk_flg := 0;
  ov_irq := 0; fov_irq := 0;
  PIR := 0; PIH := 0; PIE := 0; pi_enable := 0; parity_irq := 0;
  pi_pending := 0; pi_req := 0; pi_enc := 0; apr_irq := 0;
  clk_en := 0; clk_irq := 0; pi_restore := 0; pi_hold := 0;
  dev_irq := replicate 128 0;
  sim_interval := 0; MEMSIZE := MAXMEMSIZE; twoseg := 1;
  i_flags := 0; pi_ov := 0; pi_cycle := 0;
  f_load_pc := 1; f_inst_fetch := 1; f_pc_inh := 0;
  sac_inh := 0; flag1 := 0; flag3 := 0; f := 0
|}.

(** Projections of updated states are simplified by [rsimp]: setters are
    unfolded where a projection meets them, and nothing else is; a [let]
    stays as it is. *)
Declare Reduction rstate :=
  cbn beta iota delta [apply_update fst snd
     M FM AR MQ BR AD MB AB PC IR FLAGS AC BYF5 uuo_cycle SC SCAD Pl
     Ph Rl Rh Pflag push_ovf mem_prot nxm_flag clk_flg ov_irq fov_irq
     PIR PIH PIE pi_enable parity_irq pi_pending pi_req pi_enc apr_irq
     clk_en clk_irq pi_restore pi_hold dev_irq sim_interval MEMSIZE
     twoseg i_flags pi_ov pi_cycle f_load_pc f_inst_fetch f_pc_inh
     sac_inh flag1 flag3 f
     upd_M upd_FM upd_AR upd_MQ upd_BR upd_AD upd_MB upd_AB upd_PC
     upd_IR upd_FLAGS upd_AC upd_BYF5 upd_uuo_cycle upd_SC upd_SCAD
     upd_Pl upd_Ph upd_Rl upd_Rh upd_Pflag upd_push_ovf upd_mem_prot
     upd_nxm_flag upd_clk_flg upd_ov_irq upd_fov_irq upd_PIR upd_PIH
     upd_PIE upd_pi_enable upd_parity_irq upd_pi_pending upd_pi_req
     upd_pi_enc upd_apr_irq upd_clk_en upd_clk_irq upd_pi_restore
     upd_pi_hold upd_dev_irq upd_sim_interval upd_MEMSIZE upd_twoseg
     upd_i_flags upd_pi_ov upd_pi_cycle upd_f_load_pc upd_f_inst_fetch
     upd_f_pc_inh upd_sac_inh upd_flag1 upd_flag3 upd_f].

Ltac rsimp :=
  cbn beta iota delta [apply_update fst snd
     M FM AR MQ BR AD MB AB PC IR FLAGS AC BYF5 uuo_cycle SC SCAD Pl
     Ph Rl Rh Pflag push_ovf mem_prot nxm_flag clk_flg ov_irq fov_irq
     PIR PIH PIE pi_enable parity_irq pi_pending pi_req pi_enc apr_irq
     clk_en clk_irq pi_restore pi_hold dev_irq sim_interval MEMSIZE
     twoseg i_flags pi_ov pi_cycle f_load_pc f_inst_fetch f_pc_inh
     sac_inh flag1 flag3 f
     upd_M upd_FM upd_AR upd_MQ upd_BR upd_AD upd_MB upd_AB upd_PC
     upd_IR upd_FLAGS upd_AC upd_BYF5 upd_uuo_cycle upd_SC upd_SCAD
     upd_Pl upd_Ph upd_Rl upd_Rh upd_Pflag upd_push_ovf upd_mem_prot
     upd_nxm_flag upd_clk_flg upd_ov_irq upd_fov_irq upd_PIR upd_PIH
     upd_PIE upd_pi_enable upd_parity_irq upd_pi_pending upd_pi_req
     upd_pi_enc upd_apr_irq upd_clk_en upd_clk_irq upd_pi_restore
     upd_pi_hold upd_dev_irq upd_sim_interval upd_MEMSIZE upd_twoseg
     upd_i_flags upd_pi_ov upd_pi_cycle upd_f_load_pc upd_f_inst_fetch
     upd_f_pc_inh upd_sac_inh upd_flag1 upd_flag3 upd_f];
  lazy beta delta [constant].

Ltac rsimp_in H :=
  let T := type of H in
  let T1 := eval rstate in T in
  let T2 := eval lazy beta delta [constant] in T1 in
  change T2 in H.

(** Two chains of updates of the same state are compared field by
    field. *)
Ltac state_eq :=
  cbv beta iota delta [constant apply_update fst snd
     M FM AR MQ BR AD MB AB PC IR FLAGS AC BYF5 uuo_cycle SC SCAD Pl
     Ph Rl Rh Pflag push_ovf mem_prot nxm_flag clk_flg ov_irq fov_irq
     PIR PIH PIE pi_enable parity_irq pi_pending pi_req pi_enc apr_irq
     clk_en clk_irq pi_restore pi_hold dev_irq sim_interval MEMSIZE
     twoseg i_flags pi_ov pi_cycle f_load_pc f_inst_fetch f_pc_inh
     sac_inh flag1 flag3 f
     upd_M upd_FM upd_AR upd_MQ upd_BR upd_AD upd_MB upd_AB upd_PC
     upd_IR upd_FLAGS upd_AC upd_BYF5 upd_uuo_cycle upd_SC upd_SCAD
     upd_Pl upd_Ph upd_Rl upd_Rh upd_Pflag upd_push_ovf upd_mem_prot
     upd_nxm_flag upd_clk_flg upd_ov_irq upd_fov_irq upd_PIR upd_PIH
     upd_PIE upd_pi_enable upd_parity_irq upd_pi_pending upd_pi_req
     upd_pi_enc upd_apr_irq upd_clk_en upd_clk_irq upd_pi_restore
     upd_pi_hold upd_dev_irq upd_sim_interval upd_MEMSIZE upd_twoseg
     upd_i_flags upd_pi_ov upd_pi_cycle upd_f_load_pc upd_f_inst_fetch
     upd_f_pc_inh upd_sac_inh upd_flag1 upd_flag3 upd_f];
  reflexivity.

(** ** Integer and array facts *)

Lemma to_char_small (x : Z) : 0 <= x < 128 -> to_char x = x.
Proof. intros H. unfold to_char. rewrite Z.mod_small by lia. lia. Qed.

Lemma nz_true (x : Z) : nz x = true <-> x <> 0.
Proof. unfold nz. destruct (Z.eqb_spec x 0); simpl; split; congruence. Qed.

Lemma nz_false (x : Z) : nz x = false <-> x = 0.
Proof. unfold nz. destruct (Z.eqb_spec x 0); simpl; split; congruence. Qed.

Lemma land_07 (x : Z) : x .& 07%o = x mod 8.
Proof. apply (Z.land_ones x 3). lia. Qed.

Lemma land_077 (x : Z) : x .& 077%o = x mod 64.
Proof. apply (Z.land_ones x 6). lia. Qed.

Lemma land_0777 (x : Z) : x .& 0777%o = x mod 512.
Proof. apply (Z.land_ones x 9). lia. Qed.

Lemma land_RMASK (x : Z) : x .& RMASK = x mod 2 ^ 18.
Proof. apply (Z.land_ones x 18). lia. Qed.

Lemma land_FMASK (x : Z) : x .& FMASK = x mod 2 ^ 36.
Proof. apply (Z.land_ones x 36). lia. Qed.

Lemma irq_bit_range (l : Z) : 1 <= l <= 7 -> 1 <= 0200%o ≫ l <= 64.
Proof.
  intros H. assert (Hl : l = 1 \/ l = 2 \/ l = 3 \/ l = 4 \/ l = 5 \/ l = 6 \/ l = 7) by lia.
  destruct Hl as [-> | [-> | [-> | [-> | [-> | [-> | ->]]]]]]; vm_compute; split; discriminate.
Qed.

#[local] Arguments array_get : simpl never.
#[local] Arguments array_set : simpl never.

Lemma array_get_set_eq (a : list Z) (i v : Z) :
  0 <= i < Z.of_nat (length a) -> array_get (array_set a i v) i = v.
Proof.
  intros H. unfold array_get, array_set.
  destruct (Z.ltb_spec i 0); [lia|].
  rewrite list_lookup_insert_eq by lia. reflexivity.
Qed.

Lemma array_get_set_other (a : list Z) (i j v : Z) :
  i <> j -> array_get (array_set a i v) j = array_get a j.
Proof.
  intros Hne. unfold array_get, array_set.
  destruct (Z.ltb_spec j 0); [reflexivity|].
  destruct (Z.ltb_spec i 0); [reflexivity|].
  rewrite list_lookup_insert_ne by lia. reflexivity.
Qed.

Lemma array_set_length (a : list Z) (i v : Z) :
  length (array_set a i v) = length a.
Proof. unfold array_set. destruct (i <? 0); [reflexivity | apply length_insert]. Qed.

Lemma array_set_Forall (P : Z -> Prop) (a : list Z) (i v : Z) :
  Forall P a -> P v -> Forall P (array_set a i v).
Proof.
  intros Ha Hv. unfold array_set. destruct (i <? 0); [assumption|].
  apply Forall_insert; assumption.
Qed.

(** ** Device interrupt requests *)

(** The device code [dev] of a handler carries the sub-function in its two
    low bits; the request entry of the device is [dev_irq[dev >> 2]]. *)
Definition irq_entry (dev : Z) (s : cpu) : Z := array_get (dev_irq s) (dev ≫ 2).

Lemma dev_index_range (dev : Z) : 0 <= dev < 512 -> 0 <= dev ≫ 2 < 128.
Proof.
  intros H. rewrite Z.shiftr_div_pow2 by lia. change (2 ^ 2) with 4.
  split; [apply Z.div_pos; lia | apply Z.div_lt_upper_bound; lia].
Qed.

(** C9.  For a device code [dev] (0..0777) and a level 1-7,
    [set_interrupt(dev, level)] leaves the bit [0200 >> level] set in the
    request entry of the device (the entry holds exactly that bit) and
    asserts [pi_pending]. *)
Theorem set_interrupt_requests (s : cpu) (dev lvl : Z) :
  length (dev_irq s) = 128%nat ->
  0 <= dev < 512 ->
  1 <= lvl <= 7 ->
  let s' := set_interrupt dev lvl s in
  irq_entry dev s' = 0200%o ≫ lvl
  /\ irq_entry dev s' .& (0200%o ≫ lvl) = 0200%o ≫ lvl
  /\ 0200%o ≫ lvl <> 0
  /\ pi_pending s' = 1.
Proof.
  intros Hlen Hdev Hlvl s'.
  pose proof (dev_index_range dev Hdev) as Hidx.
  pose proof (irq_bit_range lvl Hlvl) as Hbit.
  assert (Hl7 : lvl .& 07%o = lvl).
  { rewrite land_07. apply Z.mod_small. lia. }
  assert (Hs' : s' = s <| dev_irq := array_set (dev_irq s) (dev ≫ 2) (0200%o ≫ lvl) |>
                       <| pi_pending := 1 |>).
  { subst s'. unfold set_interrupt. rewrite Hl7.
    replace (nz lvl) with true by (symmetry; apply nz_true; lia).
    rewrite to_char_small by lia. reflexivity. }
  rewrite Hs'. unfold irq_entry. rsimp.
  rewrite array_get_set_eq by (rewrite Hlen; lia).
  rewrite Z.land_diag. repeat split; lia.
Qed.

Lemma set_interrupt_requests_witness :
  irq_entry 0120%o (set_interrupt 0120%o 3 power_up) = 0200%o ≫ 3
  /\ irq_entry 0120%o (set_interrupt 0120%o 3 power_up) .& (0200%o ≫ 3) = 0200%o ≫ 3
  /\ 0200%o ≫ 3 <> 0
  /\ pi_pending (set_interrupt 0120%o 3 power_up) = 1.
Proof.
  apply (set_interrupt_requests power_up 0120%o 3); [reflexivity | lia | lia].
Defined.

(** The number of bits set in the eight bits of a [char]. *)
Definition bits_set (x : Z) : nat :=
  List.length (List.filter (Z.testbit x) [0; 1; 2; 3; 4; 5; 6; 7]).

(** The states the request array can be in: it starts cleared (static
    storage), and the only statements of the program that assign to it are
    in [set_interrupt], [clr_interrupt] and [cpu_reset]. *)
Inductive irq_reachable : cpu -> Prop :=
| irq_start (s : cpu) :
    dev_irq s = replicate 128 0 -> irq_reachable s
| irq_set (dev lvl : Z) (s : cpu) :
    irq_reachable s -> irq_reachable (set_interrupt dev lvl s)
| irq_clr (dev : Z) (s : cpu) :
    irq_reachable s -> irq_reachable (clr_interrupt dev s)
| irq_reset (s : cpu) :
    irq_reachable s -> irq_reachable (cpu_reset s)
| irq_frame (s s' : cpu) :
    irq_reachable s -> dev_irq s' = dev_irq s -> irq_reachable s'.

(** An entry is empty or holds the bit of one level. *)
Definition level_bit (x : Z) : Prop :=
  x = 0 \/ exists l, 1 <= l <= 7 /\ x = 0200%o ≫ l.

Lemma level_bit_bits_set (x : Z) : level_bit x -> (bits_set x <= 1)%nat.
Proof.
  intros [-> | (l & Hl & ->)]; [vm_compute; lia|].
  assert (Hc : l = 1 \/ l = 2 \/ l = 3 \/ l = 4 \/ l = 5 \/ l = 6 \/ l = 7) by lia.
  destruct Hc as [-> | [-> | [-> | [-> | [-> | [-> | ->]]]]]]; vm_compute; lia.
Qed.

Lemma level_bit_range (x : Z) : level_bit x -> 0 <= x <= 64.
Proof.
  intros [-> | (l & Hl & ->)]; [lia|].
  pose proof (irq_bit_range l Hl). lia.
Qed.

Lemma set_interrupt_level0 (dev lvl : Z) (s : cpu) :
  lvl .& 07%o = 0 -> set_interrupt dev lvl s = s.
Proof. intros H. unfold set_interrupt. rewrite H. reflexivity. Qed.

Lemma set_interrupt_level (dev lvl : Z) (s : cpu) :
  lvl .& 07%o <> 0 ->
  set_interrupt dev lvl s =
  s <| dev_irq := array_set (dev_irq s) (dev ≫ 2) (0200%o ≫ (lvl .& 07%o)) |>
    <| pi_pending := 1 |>.
Proof.
  intros H. unfold set_interrupt.
  replace (nz (lvl .& 07%o)) with true by (symmetry; now apply nz_true).
  pose proof (Z.mod_pos_bound lvl 8 ltac:(lia)) as Hm. rewrite <- land_07 in Hm.
  pose proof (irq_bit_range (lvl .& 07%o) ltac:(lia)).
  rewrite to_char_small by lia. reflexivity.
Qed.

Lemma irq_reachable_inv (s : cpu) :
  irq_reachable s ->
  length (dev_irq s) = 128%nat /\ Forall level_bit (dev_irq s).
Proof.
  induction 1 as [s H | dev lvl s _ [IHl IHf] | dev s _ [IHl IHf]
                 | s _ _ | s s' _ [IHl IHf] Heq].
  - rewrite H. split; [apply length_replicate|].
    apply Forall_replicate. now left.
  - destruct (Z.eq_dec (lvl .& 07%o) 0) as [H0 | Hn].
    + rewrite set_interrupt_level0 by assumption. now split.
    + rewrite set_interrupt_level by assumption. rsimp.
      split; [now rewrite array_set_length|].
      apply array_set_Forall; [assumption|]. right.
      exists (lvl .& 07%o). split; [|reflexivity].
      pose proof (Z.mod_pos_bound lvl 8 ltac:(lia)) as Hm.
      rewrite <- land_07 in Hm. lia.
  - unfold clr_interrupt. rsimp.
    split; [now rewrite array_set_length|].
    apply array_set_Forall; [assumption | now left].
  - unfold cpu_reset. rsimp. split; [apply length_replicate|].
    apply Forall_replicate. now left.
  - rewrite Heq. now split.
Qed.

(** C10.  In every reachable state each entry of [dev_irq] has at most
    one bit set.  [set_interrupt] with a level that is not a multiple of
    eight overwrites the entry of the device with the one bit
    [0200 >> (level mod 8)], whatever the entry held before; with a level
    that is a multiple of eight it changes nothing at all (so neither the
    array nor [pi_pending]); [clr_interrupt] leaves the entry of the device
    at 0 and [cpu_reset] leaves every entry at 0. *)
Theorem dev_irq_single_bit (s : cpu) (dev lvl : Z) :
  irq_reachable s ->
  0 <= dev < 512 ->
  Forall (fun x => (bits_set x <= 1)%nat) (dev_irq s)
  /\ (lvl mod 8 <> 0 ->
      irq_entry dev (set_interrupt dev lvl s) = 0200%o ≫ (lvl mod 8)
      /\ (bits_set (irq_entry dev (set_interrupt dev lvl s)) = 1)%nat)
  /\ (lvl mod 8 = 0 -> set_interrupt dev lvl s = s)
  /\ irq_entry dev (clr_interrupt dev s) = 0
  /\ dev_irq (cpu_reset s) = replicate 128 0.
Proof.
  intros Hr Hdev. destruct (irq_reachable_inv s Hr) as [Hlen Hall].
  pose proof (dev_index_range dev Hdev) as Hidx.
  split; [|split; [|split; [|split]]].
  - eapply Forall_impl; [exact level_bit_bits_set | exact Hall].
  - intros Hl. rewrite <- land_07 in *.
    rewrite set_interrupt_level by assumption.
    unfold irq_entry. rsimp.
    rewrite array_get_set_eq by (rewrite Hlen; lia).
    split; [reflexivity|].
    pose proof (Z.mod_pos_bound lvl 8 ltac:(lia)) as Hm. rewrite <- land_07 in Hm.
    assert (Hc : lvl .& 07%o = 1 \/ lvl .& 07%o = 2 \/ lvl .& 07%o = 3
                 \/ lvl .& 07%o = 4 \/ lvl .& 07%o = 5 \/ lvl .& 07%o = 6
                 \/ lvl .& 07%o = 7) by lia.
    destruct Hc as [-> | [-> | [-> | [-> | [-> | [-> | ->]]]]]]; reflexivity.
  - intros H0. apply set_interrupt_level0. now rewrite land_07.
  - unfold irq_entry, clr_interrupt. rsimp.
    apply array_get_set_eq. rewrite Hlen. lia.
  - unfold cpu_reset. rsimp. reflexivity.
Qed.

(** A request at level 5 replaces the request at level 3 that the same
    device had pending. *)
Lemma dev_irq_single_bit_witness :
  let s := set_interrupt 0120%o 3 power_up in
  Forall (fun x => (bits_set x <= 1)%nat) (dev_irq s)
  /\ (5 mod 8 <> 0 ->
      irq_entry 0120%o (set_interrupt 0120%o 5 s) = 0200%o ≫ (5 mod 8)
      /\ (bits_set (irq_entry 0120%o (set_interrupt 0120%o 5 s)) = 1)%nat)
  /\ (5 mod 8 = 0 -> set_interrupt 0120%o 5 s = s)
  /\ irq_entry 0120%o (clr_interrupt 0120%o s) = 0
  /\ dev_irq (cpu_reset s) = replicate 128 0.
Proof.
  apply (dev_irq_single_bit (set_interrupt 0120%o 3 power_up) 0120%o 5).
  - apply irq_set, irq_start. reflexivity.
  - lia.
Defined.

(** ** The priority interrupt controller *)

(** Values of seven bits: the level masks PIR, PIH and PIE. *)
Definition in7 (x : Z) : Prop := 0 <= x < 128.

Lemma in7_land_ones (x : Z) : in7 x <-> x .& Z.ones 7 = x.
Proof.
  unfold in7. rewrite Z.land_ones by lia. change (2 ^ 7) with 128. split.
  - intros H. now apply Z.mod_small.
  - intros <-. apply Z.mod_pos_bound. lia.
Qed.

Lemma in7_land_l (a b : Z) : in7 a -> in7 (a .& b).
Proof.
  rewrite !in7_land_ones. intros H.
  rewrite <- Z.land_assoc, (Z.land_comm b), Z.land_assoc, H. reflexivity.
Qed.

Lemma in7_land_r (a b : Z) : in7 b -> in7 (a .& b).
Proof. rewrite Z.land_comm. apply in7_land_l. Qed.

Lemma in7_lor (a b : Z) : in7 a -> in7 b -> in7 (a .| b).
Proof.
  rewrite !in7_land_ones. intros Ha Hb.
  rewrite Z.land_lor_distr_l, Ha, Hb. reflexivity.
Qed.

Lemma in7_to_char (x : Z) : in7 x -> to_char x = x.
Proof. apply to_char_small. Qed.

Lemma in7_level_bit (x : Z) : level_bit x -> in7 x.
Proof. intros H. pose proof (level_bit_range x H). unfold in7. lia. Qed.

Lemma in7_foldl_lor (l : list Z) (a : Z) :
  in7 a -> Forall in7 l -> in7 (foldl Z.lor a l).
Proof.
  intros Ha Hl. revert a Ha.
  induction Hl as [| x l Hx _ IH]; intros a Ha; simpl; [assumption|].
  apply IH. now apply in7_lor.
Qed.

(** A fact about all seven-bit values, or about all pairs of them, follows
    from checking the 128 values, or the 16384 pairs. *)
Lemma in7_forall (P : Z -> bool) :
  forallb P (seqZ 0 128) = true -> forall a, in7 a -> P a = true.
Proof.
  intros H a Ha. rewrite forallb_forall in H. apply H.
  apply list_elem_of_In, elem_of_seqZ. unfold in7 in Ha. lia.
Qed.

Lemma in7_forall2 (P : Z -> Z -> bool) :
  forallb (fun a => forallb (P a) (seqZ 0 128)) (seqZ 0 128) = true ->
  forall a b, in7 a -> in7 b -> P a b = true.
Proof.
  intros H a b Ha Hb.
  apply (in7_forall (P a)); [|assumption].
  exact (in7_forall (fun a => forallb (P a) (seqZ 0 128)) H a Ha).
Qed.

(** The request [pi_req] that [check_irq_level] computes from the merged
    requests and the held levels. *)
Definition arbitrate (pir pih : Z) : Z :=
  let pi_t := (Z.lnot pir .& Z.lnot pih) ≫ 1 in
  let pi_ok := 0100%o .& (pir .& Z.lnot pih) in
  let pi_ok := if pi_ok =? 0 then pi_ok_scan 6 0040%o pi_t pi_ok else pi_ok in
  pir .& Z.lnot pih .& pi_ok.

Lemma check_irq_level_arbitrate (s : cpu) :
  let lvl := foldl Z.lor 0 (dev_irq s) in
  let pir := to_char (PIR s .| (lvl .& PIE s)) in
  let s1 := (if lvl =? 0 then s <| pi_pending := 0 |> else s)
              <| PIR := pir |> <| pi_req := arbitrate pir (PIH s) |> in
  check_irq_level s =
  if nz (arbitrate pir (PIH s))
  then (1, s1 <| pi_enc := pi_encode 7 1 (arbitrate pir (PIH s)) |>)
  else (0, s1).
Proof.
  unfold check_irq_level, arbitrate.
  destruct (foldl Z.lor 0 (dev_irq s) =? 0); rsimp; reflexivity.
Qed.

(** What arbitration guarantees, as a check on one pair of masks: a
    nonzero [pi_req] is the single bit of a level 1-7 that is requested,
    every held level has a larger number (a lower priority), and no
    request has a smaller one. *)
Definition arbitrate_ok (pir pih : Z) : bool :=
  let r := arbitrate pir pih in
  (r =? 0)
  || (let l := pi_encode 7 1 r in
      (1 <=? l) && (l <=? 7) && (r =? 0200%o ≫ l)
      && (pir .& r =? r)
      && forallb (fun j => (pih .& (0200%o ≫ j) =? 0) || (l <? j))
                 [1; 2; 3; 4; 5; 6; 7]
      && forallb (fun j => (pir .& (0200%o ≫ j) =? 0) || (l <=? j))
                 [1; 2; 3; 4; 5; 6; 7]).

Lemma arbitrate_checked (pir pih : Z) :
  in7 pir -> in7 pih -> arbitrate_ok pir pih = true.
Proof. apply in7_forall2. vm_compute. reflexivity. Qed.

(** The effect of the dismissal loop on PIH alone. *)
Fixpoint dismiss_mask (n : nat) (lvl pih : Z) : Z :=
  match n with
  | O => pih
  | S n' => if nz (lvl .& pih) then pih .& Z.lnot lvl else dismiss_mask n' (lvl ≫ 1) pih
  end.

Lemma pi_dismiss_PIH (n : nat) (lvl : Z) (s : cpu) :
  in7 (PIH s) -> PIH (pi_dismiss n lvl s) = dismiss_mask n lvl (PIH s).
Proof.
  revert lvl. induction n as [| n IH]; intros lvl H7; simpl; [reflexivity|].
  destruct (nz (lvl .& PIH s)).
  - rsimp. apply in7_to_char. now apply in7_land_l.
  - now apply IH.
Qed.

Lemma pi_dismiss_PIR (n : nat) (lvl : Z) (s : cpu) :
  in7 (PIR s) -> in7 (PIR (pi_dismiss n lvl s)).
Proof.
  revert lvl. induction n as [| n IH]; intros lvl H7; simpl; [assumption|].
  destruct (nz (lvl .& PIH s)).
  - rsimp. rewrite in7_to_char; now apply in7_land_l.
  - now apply IH.
Qed.

Lemma pi_dismiss_frame (n : nat) (lvl : Z) (s : cpu) :
  PIE (pi_dismiss n lvl s) = PIE s
  /\ dev_irq (pi_dismiss n lvl s) = dev_irq s
  /\ pi_enable (pi_dismiss n lvl s) = pi_enable s.
Proof.
  revert lvl. induction n as [| n IH]; intros lvl; simpl; [now repeat split|].
  destruct (nz (lvl .& PIH s)); [rsimp; now repeat split | apply IH].
Qed.

Lemma dismiss_mask_highest (pih : Z) :
  in7 pih -> pih <> 0 -> dismiss_mask 7 0100%o pih = pih - 2 ^ Z.log2 pih.
Proof.
  intros H7 Hn.
  pose proof (in7_forall
                (fun a => (a =? 0) || (dismiss_mask 7 0100%o a =? a - 2 ^ Z.log2 a))
                ltac:(vm_compute; reflexivity) pih H7) as H.
  cbv beta in H.
  apply orb_true_iff in H as [H | H]; [apply Z.eqb_eq in H; contradiction|].
  now apply Z.eqb_eq.
Qed.

(** The states of the interrupt controller: after a reset, the program
    sets the masks with CONO PI, devices raise and drop requests, the
    processor re-evaluates its own request, polls for a grant, holds the
    granted level, and dismisses.  No other statement of the program
    assigns to PIR, PIH, PIE or the request array. *)
Inductive pi_reachable : cpu -> Prop :=
| pi_start (s : cpu) :
    pi_reachable (cpu_reset s)
| pi_cono (data : Z) (s : cpu) :
    pi_reachable s -> pi_reachable (snd (dev_pi CONO data s))
| pi_request (dev lvl : Z) (s : cpu) :
    pi_reachable s -> pi_reachable (set_interrupt dev lvl s)
| pi_clear (dev : Z) (s : cpu) :
    pi_reachable s -> pi_reachable (clr_interrupt dev s)
| pi_apr (s : cpu) :
    pi_reachable s -> pi_reachable (check_apr_irq s)
| pi_poll (s : cpu) :
    pi_reachable s -> pi_reachable (snd (check_irq_level s))
| pi_grant (s : cpu) :
    pi_reachable s -> fst (check_irq_level s) = 1 ->
    pi_reachable (set_pi_hold (snd (check_irq_level s)))
| pi_dismissed (s : cpu) :
    pi_reachable s -> pi_reachable (restore_pi_hold s)
| pi_frame (s s' : cpu) :
    pi_reachable s ->
    PIR s' = PIR s -> PIH s' = PIH s -> PIE s' = PIE s ->
    dev_irq s' = dev_irq s ->
    pi_reachable s'.

(** The masks hold level bits only, and so do the request entries. *)
Definition pi_inv (s : cpu) : Prop :=
  in7 (PIR s) /\ in7 (PIH s) /\ in7 (PIE s) /\ Forall level_bit (dev_irq s).

Lemma in7_0 : in7 0.
Proof. unfold in7. lia. Qed.

Lemma in7_irq_bit (l : Z) : 1 <= l <= 7 -> in7 (0200%o ≫ l).
Proof. intros H. pose proof (irq_bit_range l H). unfold in7. lia. Qed.

Lemma set_interrupt_inv (dev lvl : Z) (s : cpu) :
  pi_inv s -> pi_inv (set_interrupt dev lvl s)
              /\ PIH (set_interrupt dev lvl s) = PIH s
              /\ pi_enable (set_interrupt dev lvl s) = pi_enable s.
Proof.
  intros Hinv.
  destruct (Z.eq_dec (lvl .& 07%o) 0) as [H0 | Hn].
  - rewrite set_interrupt_level0 by assumption. auto.
  - destruct Hinv as (Hr & Hh & He & Hd).
    rewrite set_interrupt_level by assumption. unfold pi_inv. rsimp.
    split; [|auto]. split; [|split; [|split]]; try assumption.
    apply array_set_Forall; [assumption|]. right.
    exists (lvl .& 07%o). split; [|reflexivity].
    pose proof (Z.mod_pos_bound lvl 8 ltac:(lia)) as Hm.
    rewrite <- land_07 in Hm. lia.
Qed.

Lemma clr_interrupt_inv (dev : Z) (s : cpu) :
  pi_inv s -> pi_inv (clr_interrupt dev s)
              /\ PIH (clr_interrupt dev s) = PIH s
              /\ pi_enable (clr_interrupt dev s) = pi_enable s.
Proof.
  intros (Hr & Hh & He & Hd). unfold pi_inv, clr_interrupt. rsimp.
  split; [|auto]. split; [|split; [|split]]; try assumption.
  apply array_set_Forall; [assumption | now left].
Qed.

Lemma check_apr_irq_inv (s : cpu) :
  pi_inv s -> pi_inv (check_apr_irq s)
              /\ PIH (check_apr_irq s) = PIH s
              /\ pi_enable (check_apr_irq s) = pi_enable s.
Proof.
  intros H0. unfold check_apr_irq.
  destruct (clr_interrupt_inv 0 s H0) as (H1 & E1 & F1).
  destruct (clr_interrupt_inv 4 _ H1) as (H2 & E2 & F2).
  set (s2 := clr_interrupt 4 (clr_interrupt 0 s)) in *.
  set (s3 := if nz (apr_irq s2) then _ else s2).
  assert (H3 : pi_inv s3 /\ PIH s3 = PIH s /\ pi_enable s3 = pi_enable s).
  { assert (Hs2 : pi_inv s2 /\ PIH s2 = PIH s /\ pi_enable s2 = pi_enable s)
      by (split; [assumption | split; congruence]).
    subst s3. destruct (nz (apr_irq s2)); [|exact Hs2].
    match goal with |- context [if ?c then _ else _] => destruct c end;
      [|exact Hs2].
    destruct (set_interrupt_inv 0 (apr_irq s2) s2 H2) as (H & E & F).
    split; [assumption | split; congruence]. }
  destruct H3 as (H3 & E3 & F3).
  destruct (nz (clk_flg s3 .& clk_en s3)); [|auto].
  destruct (set_interrupt_inv 4 (clk_irq s3) s3 H3) as (H & E & F).
  split; [assumption | split; congruence].
Qed.

(** One [let s := X in ...] of a sequence of conditional assignments: the
    invariant is shown for [X], and the rest of the sequence is continued
    from an arbitrary state that satisfies it. *)
Ltac peel_let Hinv :=
  lazymatch goal with
  | |- pi_inv (snd (let s := ?X in @?B s)) =>
      let H := fresh in
      assert (H : pi_inv X);
      [ | change (pi_inv (snd (B X))); revert H; generalize X;
          clear Hinv; intros ? Hinv; cbv beta ]
  end.

Lemma dev_pi_cono_inv (data : Z) (s : cpu) :
  pi_inv s -> pi_inv (snd (dev_pi CONO data s)).
Proof.
  intros Hinv. unfold dev_pi.
  assert (Hdat : in7 (data .& 0177%o)) by (apply in7_land_r; unfold in7; lia).
  change (pi_inv (snd (let s := s in
    let s := if nz (data .& 010000%o) then
               s <| PIR := 0 |> <| PIH := 0 |> <| PIE := 0 |>
                 <| pi_enable := 0 |> <| parity_irq := 0 |> else s in
    let s := if nz (data .& 0200%o) then s <| pi_enable := 1 |> else s in
    let s := if nz (data .& 0400%o) then s <| pi_enable := 0 |> else s in
    let s := if nz (data .& 01000%o) then
               s <| PIE := to_char (PIE s .& Z.lnot (data .& 0177%o)) |> else s in
    let s := if nz (data .& 02000%o) then
               s <| PIE := to_char (PIE s .| (data .& 0177%o)) |> else s in
    let s := if nz (data .& 04000%o) then
               s <| PIR := to_char (PIR s .| (data .& 0177%o)) |>
                 <| pi_pending := 1 |> else s in
    let s := if nz (data .& 040000%o) then s <| parity_irq := 1 |> else s in
    let s := if nz (data .& 0100000%o) then s <| parity_irq := 0 |> else s in
    (data, s)))).
  revert Hinv. generalize s. clear s. intros s Hinv.
  do 9 (peel_let Hinv;
        [ try assumption;
          destruct Hinv as (Hr & Hh & He & Hd);
          match goal with |- context [if ?c then _ else _] => destruct c end;
          unfold pi_inv; try rsimp;
          (split; [|split; [|split]]); try assumption; try apply in7_0;
          rewrite in7_to_char; auto using in7_land_l, in7_lor
        | ]).
  exact Hinv.
Qed.

Lemma check_irq_level_inv (s : cpu) :
  pi_inv s -> pi_inv (snd (check_irq_level s))
              /\ PIH (snd (check_irq_level s)) = PIH s.
Proof.
  intros (Hr & Hh & He & Hd).
  assert (Hl : in7 (foldl Z.lor 0 (dev_irq s))).
  { apply in7_foldl_lor; [apply in7_0|].
    eapply Forall_impl; [exact in7_level_bit | exact Hd]. }
  assert (Hp : in7 (PIR s .| (foldl Z.lor 0 (dev_irq s) .& PIE s)))
    by (apply in7_lor; [assumption | now apply in7_land_l]).
  rewrite check_irq_level_arbitrate. cbv zeta.
  rewrite (in7_to_char _ Hp). unfold pi_inv.
  destruct (nz (arbitrate _ _)); destruct (foldl Z.lor 0 (dev_irq s) =? 0);
    cbn [snd]; rsimp; (split; [|reflexivity]);
    (split; [|split; [|split]]); assumption.
Qed.

Lemma set_pi_hold_inv (s : cpu) :
  pi_inv s -> 1 <= pi_enc s <= 7 ->
  pi_inv (set_pi_hold s)
  /\ PIH (set_pi_hold s) = PIH s .| (0200%o ≫ pi_enc s).
Proof.
  intros (Hr & Hh & He & Hd) Hl.
  pose proof (in7_irq_bit _ Hl) as Hb.
  unfold set_pi_hold, pi_inv. rsimp.
  rewrite !in7_to_char by auto using in7_land_l, in7_lor.
  split; [|reflexivity].
  split; [|split; [|split]]; auto using in7_land_l, in7_lor.
Qed.

Lemma restore_pi_hold_inv (s : cpu) :
  pi_inv s ->
  pi_inv (restore_pi_hold s)
  /\ PIH (restore_pi_hold s) =
     if pi_enable s =? 0 then PIH s else dismiss_mask 7 0100%o (PIH s).
Proof.
  intros Hinv. unfold restore_pi_hold.
  destruct (pi_enable s =? 0); [auto|].
  destruct Hinv as (Hr & Hh & He & Hd).
  destruct (pi_dismiss_frame 7 0100%o s) as (Ee & Ed & _).
  assert (H1 : pi_inv (pi_dismiss 7 0100%o s)).
  { unfold pi_inv. rewrite Ee, Ed, pi_dismiss_PIH by assumption.
    split; [|split; [|split]]; try assumption.
    - now apply pi_dismiss_PIR.
    - rewrite <- pi_dismiss_PIH by assumption.
      clear - Hh. revert Hh. generalize 0100%o. generalize 7%nat.
      intros n. revert s. induction n as [| n IH]; intros s lvl H7; simpl; [assumption|].
      destruct (nz (lvl .& PIH s)); [|now apply IH].
      rsimp. rewrite in7_to_char; now apply in7_land_l. }
  set (s1 := pi_dismiss 7 0100%o s) in *.
  assert (H2 : pi_inv (if nz (array_get (dev_irq s1) 0) then check_apr_irq s1 else s1)
               /\ PIH (if nz (array_get (dev_irq s1) 0) then check_apr_irq s1 else s1)
                  = PIH s1).
  { destruct (nz (array_get (dev_irq s1) 0)); [|auto].
    destruct (check_apr_irq_inv s1 H1) as (H & E & _). auto. }
  destruct H2 as ((Hr2 & Hh2 & He2 & Hd2) & E2).
  unfold pi_inv. rsimp. rewrite E2 in Hh2 |- *.
  split; [split; [|split; [|split]]; assumption|].
  subst s1. now apply pi_dismiss_PIH.
Qed.

Lemma check_irq_level_grant (s : cpu) :
  pi_inv s -> fst (check_irq_level s) = 1 ->
  let s' := snd (check_irq_level s) in
  1 <= pi_enc s' <= 7
  /\ PIR s' .& (0200%o ≫ pi_enc s') <> 0
  /\ (forall j, 1 <= j <= 7 -> PIH s .& (0200%o ≫ j) <> 0 -> pi_enc s' < j)
  /\ (forall j, 1 <= j <= 7 -> PIR s' .& (0200%o ≫ j) <> 0 -> pi_enc s' <= j).
Proof.
  intros (Hr & Hh & He & Hd) Hg.
  assert (Hl : in7 (foldl Z.lor 0 (dev_irq s))).
  { apply in7_foldl_lor; [apply in7_0|].
    eapply Forall_impl; [exact in7_level_bit | exact Hd]. }
  assert (Hp : in7 (PIR s .| (foldl Z.lor 0 (dev_irq s) .& PIE s)))
    by (apply in7_lor; [assumption | now apply in7_land_l]).
  revert Hg. rewrite check_irq_level_arbitrate. cbv zeta.
  rewrite (in7_to_char _ Hp).
  set (pir := PIR s .| (foldl Z.lor 0 (dev_irq s) .& PIE s)) in *.
  pose proof (arbitrate_checked pir (PIH s) Hp Hh) as Hok.
  unfold arbitrate_ok in Hok.
  destruct (nz (arbitrate pir (PIH s))) eqn:Hnz; cbn [fst snd]; [intros _ | discriminate].
  apply nz_true in Hnz.
  apply orb_true_iff in Hok as [Hz | Hok]; [apply Z.eqb_eq in Hz; contradiction|].
  repeat (apply andb_true_iff in Hok as [Hok ?]).
  set (l := pi_encode 7 1 (arbitrate pir (PIH s))) in *.
  repeat match goal with
         | H : (_ <=? _) = true |- _ => apply Z.leb_le in H
         | H : (_ =? _) = true |- _ => apply Z.eqb_eq in H
         | H : forallb _ _ = true |- _ => rewrite forallb_forall in H
         end.
  rsimp.
  assert (Hin : forall j, 1 <= j <= 7 -> In j [1; 2; 3; 4; 5; 6; 7])
    by (intros j Hj; simpl; lia).
  split; [lia|]. split; [congruence|]. split.
  - intros j Hj Hheld.
    match goal with
    | H : forall x, In x _ -> (PIH s .& _ =? 0) || _ = true |- _ =>
        specialize (H j (Hin j Hj)); apply orb_true_iff in H as [H | H];
        [apply Z.eqb_eq in H; contradiction | now apply Z.ltb_lt in H]
    end.
  - intros j Hj Hreq.
    match goal with
    | H : forall x, In x _ -> (pir .& _ =? 0) || _ = true |- _ =>
        specialize (H j (Hin j Hj)); apply orb_true_iff in H as [H | H];
        [apply Z.eqb_eq in H; contradiction | now apply Z.leb_le in H]
    end.
Qed.

Lemma pi_reachable_inv (s : cpu) : pi_reachable s -> pi_inv s.
Proof.
  induction 1 as [s | data s _ IH | dev lvl s _ IH | dev s _ IH | s _ IH
                 | s _ IH | s _ IH Hg | s _ IH | s s' _ IH Er Eh Ee Ed].
  - unfold pi_inv, cpu_reset. rsimp.
    split; [|split; [|split]]; try apply in7_0.
    apply Forall_replicate. now left.
  - now apply dev_pi_cono_inv.
  - now apply set_interrupt_inv.
  - now apply clr_interrupt_inv.
  - now apply check_apr_irq_inv.
  - now apply check_irq_level_inv.
  - apply set_pi_hold_inv; [now apply check_irq_level_inv|].
    now apply check_irq_level_grant.
  - now apply restore_pi_hold_inv.
  - unfold pi_inv. rewrite Er, Eh, Ee, Ed. exact IH.
Qed.

(** Level [j] is held. *)
Definition held (j : Z) (s : cpu) : Prop := PIH s .& (0200%o ≫ j) <> 0.

(** C4, as amended.  In every reachable state PIH holds level bits only.
    A level that [check_irq_level] grants lies in 1-7, is requested, and
    has a smaller number (a higher priority) than every held level, so a
    held level and all levels of lower priority are masked; holding the
    grant adds its bit to PIH.  With the interrupt system enabled,
    [restore_pi_hold] clears the largest bit of PIH, that is the held
    level of highest priority. *)
Theorem pi_hold_masks_lower_levels (s : cpu) :
  pi_reachable s ->
  in7 (PIH s)
  /\ (fst (check_irq_level s) = 1 ->
      let s' := snd (check_irq_level s) in
      1 <= pi_enc s' <= 7
      /\ PIR s' .& (0200%o ≫ pi_enc s') <> 0
      /\ (forall j, 1 <= j <= 7 -> held j s -> pi_enc s' < j)
      /\ PIH (set_pi_hold s') = PIH s .| (0200%o ≫ pi_enc s'))
  /\ (pi_enable s <> 0 -> PIH s <> 0 ->
      PIH (restore_pi_hold s) = PIH s - 2 ^ Z.log2 (PIH s)).
Proof.
  intros Hr. pose proof (pi_reachable_inv s Hr) as Hinv.
  split; [apply Hinv|]. split.
  - intros Hg s'.
    destruct (check_irq_level_grant s Hinv Hg) as (Hl & Hq & Hh & _).
    destruct (check_irq_level_inv s Hinv) as (Hinv' & Eh).
    destruct (set_pi_hold_inv _ Hinv' Hl) as (_ & Es).
    split; [exact Hl|]. split; [exact Hq|]. split; [exact Hh|].
    subst s'. rewrite Es, Eh. reflexivity.
  - intros He Hn. destruct (restore_pi_hold_inv s Hinv) as (_ & E).
    rewrite E. destruct (Z.eqb_spec (pi_enable s) 0); [contradiction|].
    apply dismiss_mask_highest; [apply Hinv | assumption].
Qed.

(** ** A run that holds levels 5 and 3

    All levels are enabled; the console asks for level 5, which is granted
    and held; it then asks for level 3, which outranks the held level and
    is granted and held as well. *)
Definition pi_on : cpu :=
  snd (dev_pi CONO (02000%o .| 0200%o .| 0177%o) (cpu_reset power_up)).

Definition held_5 : cpu :=
  set_pi_hold (snd (check_irq_level (set_interrupt 0120%o 5 pi_on))).

Definition held_5_req_3 : cpu := set_interrupt 0120%o 3 held_5.

Definition held_5_and_3 : cpu :=
  set_pi_hold (snd (check_irq_level held_5_req_3)).

Lemma held_5_req_3_reachable : pi_reachable held_5_req_3.
Proof.
  apply pi_request, pi_grant; [|reflexivity].
  apply pi_request, pi_cono, pi_start.
Qed.

Lemma pi_hold_masks_lower_levels_witness :
  in7 (PIH held_5_req_3)
  /\ (fst (check_irq_level held_5_req_3) = 1 ->
      let s' := snd (check_irq_level held_5_req_3) in
      1 <= pi_enc s' <= 7
      /\ PIR s' .& (0200%o ≫ pi_enc s') <> 0
      /\ (forall j, 1 <= j <= 7 -> held j held_5_req_3 -> pi_enc s' < j)
      /\ PIH (set_pi_hold s') = PIH held_5_req_3 .| (0200%o ≫ pi_enc s'))
  /\ (pi_enable held_5_req_3 <> 0 -> PIH held_5_req_3 <> 0 ->
      PIH (restore_pi_hold held_5_req_3) =
      PIH held_5_req_3 - 2 ^ Z.log2 (PIH held_5_req_3)).
Proof.
  apply (pi_hold_masks_lower_levels held_5_req_3).
  apply pi_request, pi_grant; [|reflexivity].
  apply pi_request, pi_cono, pi_start.
Defined.

(** The reading of C4 as it is stated: the set bits of PIH are a run of
    levels that starts at level 1 ([0177 - ones k], levels 1 to 7-k) or one
    that ends at level 7 ([ones k], levels 8-k to 7). *)
Definition held_suffix (pih : Z) : bool :=
  existsb (fun k => (pih =? 0177%o - Z.ones k) || (pih =? Z.ones k))
          [0; 1; 2; 3; 4; 5; 6; 7].

(** C4 fails as stated: with levels 5 and 3 held PIH is 024, which is
    no run of levels at all. *)
Lemma pih_is_not_a_suffix :
  pi_reachable held_5_and_3
  /\ PIH held_5_and_3 = 024%o
  /\ held_suffix (PIH held_5_and_3) = false.
Proof.
  split; [|split; reflexivity].
  apply pi_grant; [exact held_5_req_3_reachable | reflexivity].
Qed.

(** ** Frames of the interrupt-request functions

    [set_interrupt], [clr_interrupt] and [check_apr_irq] assign to the
    request array and to [pi_pending] and to nothing else. *)

Lemma set_interrupt_frame (dev lvl : Z) (s : cpu) :
  set_interrupt dev lvl s =
  s <| dev_irq := dev_irq (set_interrupt dev lvl s) |>
    <| pi_pending := pi_pending (set_interrupt dev lvl s) |>.
Proof.
  unfold set_interrupt. destruct (nz (lvl .& 07%o)); destruct s; reflexivity.
Qed.

Lemma clr_interrupt_frame (dev : Z) (s : cpu) :
  clr_interrupt dev s =
  s <| dev_irq := dev_irq (clr_interrupt dev s) |>
    <| pi_pending := pi_pending (clr_interrupt dev s) |>.
Proof. unfold clr_interrupt. destruct s. reflexivity. Qed.

Lemma check_apr_irq_frame (s : cpu) :
  check_apr_irq s =
  s <| dev_irq := dev_irq (check_apr_irq s) |>
    <| pi_pending := pi_pending (check_apr_irq s) |>.
Proof.
  unfold check_apr_irq.
  set (f0 := 0 .| _ .| _ .| _).
  generalize (nz f0). intros b. clear f0.
  rewrite (clr_interrupt_frame 4), (clr_interrupt_frame 0).
  generalize (dev_irq (clr_interrupt 4 (clr_interrupt 0 s))).
  generalize (pi_pending (clr_interrupt 4 (clr_interrupt 0 s))).
  intros p d.
  destruct s. unfold set_interrupt.
  repeat match goal with |- context [if ?c then _ else _] => destruct c end;
    reflexivity.
Qed.

(** The dismissal loop and [restore_pi_hold] assign to PIR and PIH, and,
    through [check_apr_irq], to the request array and to [pi_pending]. *)
Lemma pi_dismiss_frame_eq (n : nat) (lvl : Z) (s : cpu) :
  pi_dismiss n lvl s =
  s <| PIR := PIR (pi_dismiss n lvl s) |> <| PIH := PIH (pi_dismiss n lvl s) |>.
Proof.
  revert lvl. induction n as [| n IH]; intros lvl; simpl.
  - destruct s. reflexivity.
  - destruct (nz (lvl .& PIH s)); [destruct s; reflexivity | apply IH].
Qed.

Lemma restore_pi_hold_frame (s : cpu) :
  restore_pi_hold s =
  s <| PIR := PIR (restore_pi_hold s) |>
    <| PIH := PIH (restore_pi_hold s) |>
    <| dev_irq := dev_irq (restore_pi_hold s) |>
    <| pi_pending := pi_pending (restore_pi_hold s) |>.
Proof.
  unfold restore_pi_hold.
  destruct (pi_enable s =? 0); [destruct s; reflexivity|].
  cbv zeta. rewrite (pi_dismiss_frame_eq 7 0100%o s).
  generalize (PIR (pi_dismiss 7 0100%o s)) (PIH (pi_dismiss 7 0100%o s)).
  intros pir pih.
  match goal with |- context [if ?c then _ else _] => destruct c end.
  - match goal with |- context [check_apr_irq ?x] =>
      rewrite (check_apr_irq_frame x);
      generalize (dev_irq (check_apr_irq x)) (pi_pending (check_apr_irq x))
    end.
    intros d p. state_eq.
  - state_eq.
Qed.

(** ** Words and flags *)

Definition word36 (x : Z) : Prop := 0 <= x < 2 ^ 36.

Definition flag_set (fl : Z) (s : cpu) : Prop := FLAGS s .& fl <> 0.

Lemma u64_small (x : Z) : 0 <= x < 2 ^ 64 -> u64 x = x.
Proof. intros H. unfold u64. now apply Z.mod_small. Qed.

Lemma word36_land_FMASK (x : Z) : word36 x <-> x .& FMASK = x.
Proof.
  unfold word36. rewrite land_FMASK. split.
  - intros H. now apply Z.mod_small.
  - intros <-. apply Z.mod_pos_bound. lia.
Qed.

Lemma CM_sub (x : Z) : word36 x -> CM x = FMASK - x.
Proof.
  intros H. apply word36_land_FMASK in H. unfold CM.
  assert (Hadd : x + (FMASK .^ x) = x .^ (FMASK .^ x)).
  { apply Z.add_nocarry_lxor. rewrite <- H at 1.
    apply Z.bits_inj'. intros n Hn.
    rewrite !Z.land_spec, Z.lxor_spec, Z.bits_0.
    destruct (Z.testbit x n), (Z.testbit FMASK n); reflexivity. }
  assert (Hx : x .^ (FMASK .^ x) = FMASK)
    by (rewrite (Z.lxor_comm FMASK), <- Z.lxor_assoc, Z.lxor_nilpotent; apply Z.lxor_0_l).
  lia.
Qed.

Lemma CM_word36 (x : Z) : word36 x -> word36 (CM x).
Proof.
  intros H. rewrite (CM_sub x H). unfold word36 in *.
  change FMASK with (2 ^ 36 - 1). lia.
Qed.

Lemma CM_land_CMASK (x : Z) : CM x .& CMASK = (x .& CMASK) .^ CMASK.
Proof.
  unfold CM. apply Z.bits_inj'. intros n Hn.
  rewrite Z.land_spec, !Z.lxor_spec, Z.land_spec.
  change FMASK with (Z.ones 36). change CMASK with (Z.ones 35).
  destruct (Z.lt_ge_cases n 35).
  - rewrite !Z.ones_spec_low by lia. now destruct (Z.testbit x n).
  - rewrite (Z.ones_spec_high 35) by lia.
    now rewrite !andb_false_r.
Qed.

(** The three arithmetic flags after [FLAGS &= 01777] and the conditional
    settings of CRY1, CRY0 and OVR. *)
Lemma arith_flags (fl : Z) (c1 c0 : bool) :
  let fl1 := fl .& 01777%o in
  let fl2 := if c1 then fl1 .| CRY1 else fl1 in
  let fl3 := if c0 then fl2 .| CRY0 else fl2 in
  let fl4 := if negb (Bool.eqb c1 c0) then fl3 .| OVR else fl3 in
  (fl4 .& CRY1 <> 0 <-> c1 = true)
  /\ (fl4 .& CRY0 <> 0 <-> c0 = true)
  /\ (fl4 .& OVR <> 0 <-> c1 <> c0).
Proof.
  assert (H1 : (fl .& 01777%o) .& CRY1 = 0)
    by (rewrite <- Z.land_assoc; apply Z.land_0_r).
  assert (H0 : (fl .& 01777%o) .& CRY0 = 0)
    by (rewrite <- Z.land_assoc; apply Z.land_0_r).
  assert (Hv : (fl .& 01777%o) .& OVR = 0)
    by (rewrite <- Z.land_assoc; apply Z.land_0_r).
  destruct c1, c0; cbv zeta; cbn [negb Bool.eqb];
    rewrite ?Z.land_lor_distr_l, ?H1, ?H0, ?Hv;
    (split; [|split]); split; intros H; vm_compute in H |- *; congruence.
Qed.

(** ** Running the embedded code symbolically

    A goal about the value [t] that a piece of code yields is read as
    [at_end Q t].  The code is then run in the order of evaluation, and the
    statements still to come wait in a continuation:
    - at [let* x := e in k], [e] is run first and [k] waits ([cont]);
    - at [if c then a else b], the test is simplified and split;
    - a call of one of the embedded functions is replaced by its body;
    - a chain of field updates is simplified and handed to the
      continuation that waits.
    Every state is a plain chain of updates before the next statement
    reads it, so the terms stay small. *)
Definition at_end {A : Type} (Q : A -> Prop) (x : A) : Prop := Q x.

Definition cont {A B : Type} (K : B -> Prop) (k : A -> B) (x : A) : Prop :=
  K (k x).

Lemma run_let_in {A B : Type} (K : B -> Prop) (e : A) (k : A -> B) :
  cont K k e -> K (let_in e k).
Proof. intros H. exact H. Qed.

Lemma run_value {A B : Type} (K : B -> Prop) (k : A -> B) (e e' : A) :
  e = e' -> K (k e') -> cont K k e.
Proof. intros ->. intros H. exact H. Qed.

Lemma run_end {A : Type} (Q : A -> Prop) (e e' : A) :
  e = e' -> Q e' -> at_end Q e.
Proof. intros ->. intros H. exact H. Qed.

Lemma run_call {A : Type} (K : A -> Prop) (e e' : A) :
  e = e' -> K e' -> K e.
Proof. intros ->. intros H. exact H. Qed.

Lemma run_test {A : Type} (K : A -> Prop) (c c' : bool) (a b : A) :
  c = c' -> K (if c' then a else b) -> K (if c then a else b).
Proof. intros ->. intros H. exact H. Qed.

Lemma run_then {A : Type} (K : A -> Prop) (a b : A) :
  K a -> K (if true then a else b).
Proof. intros H. exact H. Qed.

Lemma run_else {A : Type} (K : A -> Prop) (a b : A) :
  K b -> K (if false then a else b).
Proof. intros H. exact H. Qed.

(** Comparisons of two literals are decided. *)
Ltac pos_lit p :=
  lazymatch p with
  | xH => constr:(true)
  | xO ?q => pos_lit q
  | xI ?q => pos_lit q
  | _ => constr:(false)
  end.

Ltac Z_lit z :=
  lazymatch z with
  | Z0 => constr:(true)
  | Zpos ?p => pos_lit p
  | Zneg ?p => pos_lit p
  | _ => constr:(false)
  end.

Ltac decide_lits c :=
  match c with
  | context C [Z.eqb ?a ?b] =>
      lazymatch Z_lit a with
      | true =>
          lazymatch Z_lit b with
          | true =>
              let v := eval vm_compute in (Z.eqb a b) in
              let c' := context C [v] in decide_lits c'
          end
      end
  | context C [nz ?a] =>
      lazymatch Z_lit a with
      | true =>
          let v := eval vm_compute in (nz a) in
          let c' := context C [v] in decide_lits c'
      end
  | _ => c
  end.

Ltac norm_state t :=
  let t0 := eval lazy beta delta [get_reg set_reg] in t in
  let t1 := eval rstate in t0 in
  eval lazy beta delta [constant] in t1.

Ltac norm_test c :=
  let c1 := norm_state c in
  let c2 := decide_lits c1 in
  eval cbn [negb andb orb] in c2.

Ltac head_of t :=
  lazymatch t with
  | ?g _ => head_of g
  | _ => t
  end.

(** The embedded functions that are run statement by statement. *)
Ltac is_code h :=
  lazymatch h with
  | page_lookup => idtac | Mem_read => idtac | Mem_write => idtac
  | fetch_opr => idtac | byte_incr => idtac | byte_ldb_dpb => idtac
  | op_byte => idtac | op_movn => idtac | op_add_sub => idtac
  | skip_op => idtac | op_cam => idtac | op_jump_skip => idtac
  | op_aoj_sos => idtac | op_mul => idtac | op_jfcl => idtac
  | op_xct => idtac
  | op_bool => idtac | op_half => idtac | op_test => idtac
  | dispatch => idtac | write_back => idtac
  | last => idtac | execute => idtac
  end.

(** The calls that are not run: the state they yield is written as the
    state they start from with the fields they assign to. *)
Ltac call_frame e :=
  lazymatch e with
  | check_apr_irq ?x => constr:(check_apr_irq_frame x)
  | set_interrupt ?d ?l ?x => constr:(set_interrupt_frame d l x)
  | clr_interrupt ?d ?x => constr:(clr_interrupt_frame d x)
  | restore_pi_hold ?x => constr:(restore_pi_hold_frame x)
  | _ => constr:(tt)
  end.

(** [e = e'] where [e'] was computed from [e]. *)
Ltac by_conversion :=
  lazymatch goal with
  | |- @eq ?A _ ?e' => change (@eq A e' e'); reflexivity
  end.

Ltac by_frame e1 fr :=
  lazymatch type of fr with
  | _ = ?e2 =>
      transitivity e1; [by_conversion|];
      transitivity e2; [exact fr | by_conversion]
  | _ => by_conversion
  end.

(** [prune] is tried on each branch of a test: it closes the branches
    that the hypotheses rule out. *)
Ltac run_code prune :=
  lazymatch goal with
  | |- ?K (let_in ?e ?k) =>
      refine (run_let_in K e k _); run_code prune
  | |- ?K (if ?c then ?a else ?b) =>
      let c' := norm_test c in
      lazymatch c' with
      | true =>
          refine (run_test K c true a b _ (run_then K a b _));
          [by_conversion | run_code prune]
      | false =>
          refine (run_test K c false a b _ (run_else K a b _));
          [by_conversion | run_code prune]
      | _ =>
          refine (run_test K c c' a b _ _);
          [ by_conversion
          | destruct c' eqn:?;
            first
              [ solve [prune]
              | lazymatch goal with
                | |- ?K1 (if true then ?a1 else ?b1) => refine (run_then K1 a1 b1 _)
                | |- ?K1 (if false then ?a1 else ?b1) => refine (run_else K1 a1 b1 _)
                | |- _ => idtac
                end; run_code prune ] ]
      end
  | |- ?K ?e =>
      let h := head_of e in
      tryif is_code h then
        let e' := eval cbv beta delta [h] in e in
        refine (run_call K e e' _ _); [by_conversion | run_code prune]
      else
        let e1 := norm_state e in
        let fr := call_frame e1 in
        let e' :=
          lazymatch type of fr with
          | _ = ?e2 => norm_state e2
          | _ => e1
          end in
        lazymatch goal with
        | |- cont ?K1 ?k _ =>
            refine (run_value K1 k e e' _ _);
            [by_frame e1 fr | lazy beta iota; run_code prune]
        | |- at_end ?Q _ =>
            refine (run_end Q e e' _ _);
            [by_frame e1 fr | lazy beta; rsimp]
        end
  end.

(** [exec_in t]: run the code of the call [t] that the goal is about;
    [exec_with prune t] closes the excluded branches with [prune] on the
    way. *)
Ltac exec_with prune t :=
  pattern t;
  lazymatch goal with
  | |- ?P _ => change (at_end P t); run_code prune
  end.

Ltac exec_in t := exec_with ltac:(fail) t.

(** ** ADD and SUB *)

(** The flags and the result of [op_add_sub] in closed form: [c1] and [c0]
    are the two carries of the sum [sum] the case computes. *)
Lemma op_add_sub_result (s : cpu) (c1 c0 : bool) (sum : Z) :
  sum = (if nz (IR s .& 04%o) then u64 (CM (AR s) + BR s + 1) else u64 (AR s + BR s)) ->
  c1 = (if nz (IR s .& 04%o)
        then nz ((((AR s .& CMASK) .^ CMASK) + (BR s .& CMASK) + 1) .& SMASK)
        else nz (((AR s .& CMASK) + (BR s .& CMASK)) .& SMASK)) ->
  c0 = nz (sum .& C1) ->
  FLAGS (op_add_sub s) =
    (let fl1 := FLAGS s .& 01777%o in
     let fl2 := if c1 then fl1 .| CRY1 else fl1 in
     let fl3 := if c0 then fl2 .| CRY0 else fl2 in
     if negb (Bool.eqb c1 c0) then fl3 .| OVR else fl3)
  /\ AR (op_add_sub s) = sum .& FMASK.
Proof.
  intros -> -> ->.
  exec_in (op_add_sub s).
  all: split; reflexivity.
Qed.

(** The sum that the case 0270 forms from the accumulator [a] and the
    memory operand [b]: [a + b] for ADD, and [a + CM b + 1] for SUB.
    [addend] is the second term and [carry_in] the third. *)
Definition addend (ir b : Z) : Z := if nz (ir .& 04%o) then CM b else b.
Definition carry_in (ir : Z) : Z := if nz (ir .& 04%o) then 1 else 0.

(** C1 (amended): after ADD or SUB on 36-bit operands, with A the
    accumulator (BR) and B the memory operand (AR), CRY1 is set iff the sum
    of the low 35 bits of the terms has the SMASK bit, CRY0 iff the full sum
    has the C1 bit, and OVR iff exactly one of the two is set; the result is
    the sum modulo 2^36.  The terms are A and B for ADD, and A, the
    complement of B, and 1 for SUB: the carries are those of the
    three-term sum, not of A plus the negation of B. *)
Theorem add_sub_flags (s : cpu) :
  word36 (AR s) -> word36 (BR s) ->
  let A := BR s in
  let B := addend (IR s) (AR s) in
  let cin := carry_in (IR s) in
  let s' := op_add_sub s in
  (flag_set CRY1 s' <-> ((A .& CMASK) + (B .& CMASK) + cin) .& SMASK <> 0)
  /\ (flag_set CRY0 s' <-> (A + B + cin) .& C1 <> 0)
  /\ (flag_set OVR s' <-> (flag_set CRY0 s' <-> ~ flag_set CRY1 s'))
  /\ AR s' = (A + B + cin) mod 2 ^ 36.
Proof.
  intros Ha Hb A B cin s'.
  assert (HB : word36 B).
  { unfold B, addend. destruct (nz (IR s .& 04%o)); [now apply CM_word36 | exact Ha]. }
  assert (Hcin : 0 <= cin <= 1).
  { unfold cin, carry_in. destruct (nz (IR s .& 04%o)); lia. }
  assert (Hsum : 0 <= A + B + cin < 2 ^ 64).
  { unfold word36 in *. fold A in Hb. lia. }
  destruct (op_add_sub_result s
              (nz (((A .& CMASK) + (B .& CMASK) + cin) .& SMASK))
              (nz ((A + B + cin) .& C1)) (A + B + cin)) as [Hfl Har].
  - rewrite <- (u64_small _ Hsum). unfold A, B, cin, addend, carry_in.
    destruct (nz (IR s .& 04%o)); f_equal; lia.
  - unfold A, B, cin, addend, carry_in.
    destruct (nz (IR s .& 04%o)).
    + rewrite CM_land_CMASK. do 2 f_equal. lia.
    + rewrite Z.add_0_r. do 2 f_equal. lia.
  - reflexivity.
  - pose proof (arith_flags (FLAGS s)
                  (nz (((A .& CMASK) + (B .& CMASK) + cin) .& SMASK))
                  (nz ((A + B + cin) .& C1))) as Hflags.
    cbv zeta in Hflags, Hfl. rewrite <- Hfl in Hflags.
    destruct Hflags as (H1 & H0 & Hv).
    fold s' in H1, H0, Hv, Har.
    assert (Hnz : forall x, nz x = true <-> x <> 0).
    { intros x. unfold nz. rewrite negb_true_iff. apply Z.eqb_neq. }
    unfold flag_set. rewrite H1, H0, Hv.
    split; [apply Hnz|]. split; [apply Hnz|]. split.
    + destruct (nz (_ .& SMASK)), (nz (_ .& C1)); intuition congruence.
    + rewrite Har. apply land_FMASK.
Qed.

Lemma add_sub_flags_witness :
  let s := power_up <| IR := 0270%o |> <| AR := 5 |> <| BR := 3 |> in
  (flag_set CRY1 (op_add_sub s)
   <-> ((BR s .& CMASK) + (addend (IR s) (AR s) .& CMASK) + carry_in (IR s))
         .& SMASK <> 0)
  /\ (flag_set CRY0 (op_add_sub s)
      <-> (BR s + addend (IR s) (AR s) + carry_in (IR s)) .& C1 <> 0)
  /\ (flag_set OVR (op_add_sub s)
      <-> (flag_set CRY0 (op_add_sub s) <-> ~ flag_set CRY1 (op_add_sub s)))
  /\ AR (op_add_sub s)
     = (BR s + addend (IR s) (AR s) + carry_in (IR s)) mod 2 ^ 36.
Proof.
  intros s. apply (add_sub_flags s); unfold word36; vm_compute; split; congruence.
Defined.

(** SUB with both operands 0 (IR = 0274, AC = 0, memory operand 0): the
    code sets CRY1, CRY0 and not OVR, as 0 + 0777777777777 + 1 carries out
    of bit 1 and out of bit 0.  Read as the two-operand sum of A and the
    negation [CM B + 1] of B, the carry into bit 0 is absent. *)
Lemma sub_zero_sets_both_carries :
  let s := power_up <| IR := 0274%o |> in
  let A := BR s in
  let negB := CM (AR s) + 1 in
  flag_set CRY1 (op_add_sub s)
  /\ flag_set CRY0 (op_add_sub s)
  /\ ~ flag_set OVR (op_add_sub s)
  /\ ((A .& CMASK) + (negB .& CMASK)) .& SMASK = 0
  /\ (A + negB) .& C1 <> 0.
Proof.
  unfold flag_set. vm_compute. repeat split; congruence.
Qed.

(** ** MOVN *)

(** The three arithmetic flags when the setting of OVR is guarded by [g]
    (MOVN sets it outside an interrupt cycle only). *)
Lemma arith_flags_guarded (fl : Z) (c1 c0 g : bool) :
  let fl1 := fl .& 01777%o in
  let fl2 := if c1 then fl1 .| CRY1 else fl1 in
  let fl3 := if c0 then fl2 .| CRY0 else fl2 in
  let fl4 := if negb (Bool.eqb c1 c0) && g then fl3 .| (OVR .| TRP1) else fl3 in
  (fl4 .& CRY1 <> 0 <-> c1 = true)
  /\ (fl4 .& CRY0 <> 0 <-> c0 = true)
  /\ (fl4 .& OVR <> 0 <-> c1 <> c0 /\ g = true).
Proof.
  assert (H1 : (fl .& 01777%o) .& CRY1 = 0)
    by (rewrite <- Z.land_assoc; apply Z.land_0_r).
  assert (H0 : (fl .& 01777%o) .& CRY0 = 0)
    by (rewrite <- Z.land_assoc; apply Z.land_0_r).
  assert (Hv : (fl .& 01777%o) .& OVR = 0)
    by (rewrite <- Z.land_assoc; apply Z.land_0_r).
  change (OVR .| TRP1) with OVR.
  destruct c1, c0, g; cbv zeta; cbn [negb Bool.eqb andb];
    rewrite ?Z.land_lor_distr_l, ?H1, ?H0, ?Hv;
    (split; [|split]); split; intros H; vm_compute in H |- *;
    intuition congruence.
Qed.

(** MOVN in closed form: the result, the flags, and the registers it
    leaves alone. *)
Lemma op_movn_result (s : cpu) (c1 c0 : bool) (ad : Z) :
  nz (IR s .& 04%o) = false ->
  ad = u64 (CM (AR s) + 1) ->
  c1 = nz ((((AR s .& CMASK) .^ CMASK) + 1) .& SMASK) ->
  c0 = nz (ad .& C1) ->
  FLAGS (op_movn s) =
    (let fl1 := FLAGS s .& 01777%o in
     let fl2 := if c1 then fl1 .| CRY1 else fl1 in
     let fl3 := if c0 then fl2 .| CRY0 else fl2 in
     if negb (Bool.eqb c1 c0) && (pi_cycle s =? 0)
     then fl3 .| (OVR .| TRP1) else fl3)
  /\ AR (op_movn s) = ad .& FMASK
  /\ IR (op_movn s) = IR s
  /\ pi_cycle (op_movn s) = pi_cycle s.
Proof.
  intros Hir -> -> ->.
  exec_with ltac:(rewrite Hir in *; discriminate) (op_movn s).
  all: repeat split; reflexivity.
Qed.

(** Bit [n] of a number in 0..2^n is set for 2^n alone. *)
Lemma land_pow2_top (n v : Z) :
  0 <= n -> 0 <= v <= 2 ^ n -> (v .& 2 ^ n <> 0 <-> v = 2 ^ n).
Proof.
  intros Hn Hv. split.
  - intros H. destruct (Z.eq_dec v (2 ^ n)) as [|Hne]; [assumption|].
    exfalso. apply H. apply Z.bits_inj'. intros m Hm.
    rewrite Z.land_spec, Z.bits_0, Z.pow2_bits_eqb by lia.
    destruct (Z.eqb_spec n m) as [<-|]; [|apply andb_false_r].
    rewrite <- (Z.mod_small v (2 ^ n)) by lia.
    rewrite Z.mod_pow2_bits_high by lia. reflexivity.
  - intros ->. rewrite Z.land_diag. lia.
Qed.

(** Complementing the low [n] bits of a number below 2^n. *)
Lemma lxor_ones_sub (n x : Z) :
  0 <= n -> 0 <= x < 2 ^ n -> x .^ Z.ones n = Z.ones n - x.
Proof.
  intros Hn Hx.
  assert (Hland : x .& Z.ones n = x)
    by (rewrite Z.land_ones by lia; apply Z.mod_small; lia).
  assert (Hadd : x + (x .^ Z.ones n) = x .^ (x .^ Z.ones n)).
  { apply Z.add_nocarry_lxor. rewrite <- Hland at 1.
    apply Z.bits_inj'. intros m Hm.
    rewrite !Z.land_spec, Z.lxor_spec, Z.bits_0.
    destruct (Z.testbit x m), (Z.testbit (Z.ones n) m); reflexivity. }
  rewrite <- Z.lxor_assoc, Z.lxor_nilpotent, Z.lxor_0_l in Hadd.
  lia.
Qed.

(** The sum MOVN forms: [CM x + 1] is 2^36 - x. *)
Lemma movn_sum (x : Z) : word36 x -> u64 (CM x + 1) = 2 ^ 36 - x.
Proof.
  intros Hx. rewrite (CM_sub x Hx). unfold word36 in Hx.
  change FMASK with (2 ^ 36 - 1).
  replace (2 ^ 36 - 1 - x + 1) with (2 ^ 36 - x) by lia.
  apply u64_small. lia.
Qed.

Lemma movn_carry0 (x : Z) :
  word36 x -> (nz (u64 (CM x + 1) .& C1) = true <-> x = 0).
Proof.
  intros Hx. rewrite (movn_sum x Hx), nz_true.
  change C1 with (2 ^ 36). unfold word36 in Hx.
  rewrite land_pow2_top by lia. lia.
Qed.

Lemma movn_carry1 (x : Z) :
  word36 x ->
  (nz ((((x .& CMASK) .^ CMASK) + 1) .& SMASK) = true <-> x mod 2 ^ 35 = 0).
Proof.
  intros Hx. rewrite nz_true.
  change CMASK with (Z.ones 35). change SMASK with (2 ^ 35).
  rewrite Z.land_ones by lia.
  pose proof (Z.mod_pos_bound x (2 ^ 35) ltac:(lia)) as Hlow.
  rewrite lxor_ones_sub by lia.
  rewrite Z.ones_equiv.
  rewrite land_pow2_top by lia. lia.
Qed.

Lemma movn_value (x : Z) :
  word36 x -> u64 (CM x + 1) .& FMASK = (2 ^ 36 - x) mod 2 ^ 36.
Proof. intros Hx. rewrite (movn_sum x Hx). apply land_FMASK. Qed.

(** C6 (amended): for a 36-bit word x in AR, two MOVNs return x, and
    MOVN of SMASK yields SMASK.  Outside an interrupt cycle
    ([pi_cycle = 0]) one MOVN sets OVR exactly when x is SMASK; in an
    interrupt cycle it never sets OVR. *)
Theorem movn_twice (s : cpu) :
  word36 (AR s) -> IR s .& 04%o = 0 ->
  AR (op_movn (op_movn s)) = AR s
  /\ (AR s = SMASK -> AR (op_movn s) = SMASK)
  /\ (pi_cycle s = 0 -> (flag_set OVR (op_movn s) <-> AR s = SMASK))
  /\ (pi_cycle s <> 0 -> ~ flag_set OVR (op_movn s)).
Proof.
  intros Hx Hir.
  assert (Hnz : nz (IR s .& 04%o) = false) by (rewrite Hir; reflexivity).
  destruct (op_movn_result s _ _ _ Hnz eq_refl eq_refl eq_refl)
    as (Hfl & Har & Hir' & _).
  rewrite (movn_value _ Hx) in Har.
  assert (Hx' : word36 (AR (op_movn s))).
  { rewrite Har. apply Z.mod_pos_bound. lia. }
  assert (Hnz' : nz (IR (op_movn s) .& 04%o) = false) by (rewrite Hir'; exact Hnz).
  destruct (op_movn_result (op_movn s) _ _ _ Hnz' eq_refl eq_refl eq_refl)
    as (_ & Har2 & _).
  rewrite (movn_value _ Hx') in Har2.
  pose proof (arith_flags_guarded (FLAGS s)
                (nz ((((AR s .& CMASK) .^ CMASK) + 1) .& SMASK))
                (nz (u64 (CM (AR s) + 1) .& C1))
                (pi_cycle s =? 0)) as Hflags.
  cbv zeta in Hflags, Hfl. rewrite <- Hfl in Hflags.
  destruct Hflags as (_ & _ & Hv).
  pose proof (movn_carry0 _ Hx) as Hc0.
  pose proof (movn_carry1 _ Hx) as Hc1.
  unfold word36 in Hx. change SMASK with (2 ^ 35).
  split; [|split; [|split]].
  - rewrite Har2, Har.
    destruct (Z.eq_dec (AR s) 0) as [->|Hne]; [reflexivity|].
    rewrite (Z.mod_small (2 ^ 36 - AR s)) by lia.
    replace (2 ^ 36 - (2 ^ 36 - AR s)) with (AR s) by lia.
    apply Z.mod_small. lia.
  - intros He. rewrite Har, He. reflexivity.
  - intros Hpi. unfold flag_set. rewrite Hv, Hpi.
    destruct (nz (_ .& SMASK)), (nz (_ .& C1)).
    + split; [intros [H _]; congruence|].
      intros He. rewrite He in Hc0. vm_compute in Hc0.
      destruct Hc0 as [Hc0 _]. specialize (Hc0 eq_refl). discriminate.
    + split; [intros _|intros _; split; [congruence|reflexivity]].
      destruct Hc1 as [Hc1 _]. specialize (Hc1 eq_refl).
      assert (AR s <> 0) by (intros H0; apply Hc0 in H0; discriminate).
      pose proof (Z.div_mod (AR s) (2 ^ 35) ltac:(lia)). nia.
    + split; [intros _|intros He].
      * destruct Hc0 as [Hc0 _]. specialize (Hc0 eq_refl). rewrite Hc0 in Hc1.
        destruct Hc1 as [_ Hc1]. specialize (Hc1 eq_refl). discriminate.
      * rewrite He in Hc1. destruct Hc1 as [_ Hc1].
        specialize (Hc1 eq_refl). discriminate.
    + split; [intros [H _]; congruence|].
      intros He. rewrite He in Hc1. destruct Hc1 as [_ Hc1].
      specialize (Hc1 eq_refl). discriminate.
  - intros Hpi. unfold flag_set. rewrite Hv.
    intros [_ H]. apply Z.eqb_eq in H. contradiction.
Qed.

Lemma movn_twice_witness :
  let s := power_up <| IR := 0210%o |> <| AR := SMASK |> in
  AR (op_movn (op_movn s)) = AR s
  /\ (AR s = SMASK -> AR (op_movn s) = SMASK)
  /\ (pi_cycle s = 0 -> (flag_set OVR (op_movn s) <-> AR s = SMASK))
  /\ (pi_cycle s <> 0 -> ~ flag_set OVR (op_movn s)).
Proof.
  intros s. apply (movn_twice s); [unfold word36; vm_compute; split; congruence | reflexivity].
Defined.

(** MOVN of SMASK as the instruction of an interrupt cycle
    ([pi_cycle = 1]): the result is SMASK and OVR stays clear. *)
Lemma movn_smask_in_pi_cycle :
  let s := power_up <| IR := 0210%o |> <| AR := SMASK |> <| pi_cycle := 1 |> in
  AR (op_movn s) = SMASK /\ ~ flag_set OVR (op_movn s).
Proof.
  unfold flag_set. vm_compute. split; [reflexivity | congruence].
Qed.

(** ** Byte pointers *)

(** The fields of a byte-pointer word, as the byte group reads them:
    position [(AR >> 30) & 077], size [(AR >> 24) & 077], and the word
    address in the right half. *)
Definition ptr_pos (w : Z) : Z := (w ≫ 30) .& 077%o.
Definition ptr_size (w : Z) : Z := (w ≫ 24) .& 077%o.
Definition ptr_addr (w : Z) : Z := w .& RMASK.

(** The pointer [byte_incr] leaves in AR, in closed form. *)
Lemma byte_incr_result (s : cpu) :
  AR (byte_incr s) =
  if nz ((ptr_pos (AR s) + (0777%o .^ ptr_size (AR s)) + 1) .& 0777%o .& 0400%o)
  then ((u64 (AR s + 1) .& FMASK) .& PMASK)
       .| u64 (((((0777%o .^ ptr_size (AR s)) + 044%o + 1) .& 0777%o) .& 077%o) ≪ 30)
  else (AR s .& PMASK)
       .| u64 ((((ptr_pos (AR s) + (0777%o .^ ptr_size (AR s)) + 1) .& 0777%o) .& 077%o) ≪ 30).
Proof.
  unfold ptr_pos, ptr_size.
  exec_in (byte_incr s); reflexivity.
Qed.

(** What the increment computes on the position P and the size S, checked
    for all pairs of six-bit fields: the sign bit of SCAD tells P < S, and
    the new position is P - S, or 36 - S as a six-bit number. *)
Definition incr_fields_ok (P S : Z) : bool :=
  let scad := (P + (0777%o .^ S) + 1) .& 0777%o in
  if (P <? 64) && (S <? 64) then
    Bool.eqb (nz (scad .& 0400%o)) (P <? S)
    && (if P <? S
        then ((((0777%o .^ S) + 044%o + 1) .& 0777%o) .& 077%o) =? (36 - S) mod 64
        else (scad .& 077%o) =? P - S)
  else true.

Lemma incr_fields_checked (P S : Z) :
  in7 P -> in7 S -> incr_fields_ok P S = true.
Proof. apply in7_forall2. vm_compute. reflexivity. Qed.

Lemma field6_range (x : Z) : 0 <= x .& 077%o < 64.
Proof. rewrite land_077. apply Z.mod_pos_bound. lia. Qed.

Lemma u64_shiftl_30 (p : Z) : 0 <= p < 64 -> u64 (p ≪ 30) = p ≪ 30.
Proof.
  intros Hp. apply u64_small. rewrite Z.shiftl_mul_pow2 by lia. lia.
Qed.

(** Writing [p] into the position field of a word. *)
Lemma pos_insert_pos (a p : Z) :
  0 <= p < 64 -> ptr_pos ((a .& PMASK) .| u64 (p ≪ 30)) = p.
Proof.
  intros Hp. rewrite (u64_shiftl_30 p Hp). unfold ptr_pos.
  rewrite <- (Z.mod_small p 64) at 2 by lia.
  change 64 with (2 ^ 6). rewrite <- Z.land_ones by lia.
  change 077%o with (Z.ones 6).
  apply Z.bits_inj'. intros n Hn.
  rewrite !Z.land_spec, Z.shiftr_spec, Z.lor_spec, Z.land_spec by lia.
  change PMASK with (Z.ones 30).
  rewrite (Z.ones_spec_high 30), andb_false_r, orb_false_l by lia.
  rewrite Z.shiftl_spec by lia. do 2 f_equal. lia.
Qed.

Lemma pos_insert_rest (a p : Z) :
  0 <= p < 64 -> ((a .& PMASK) .| u64 (p ≪ 30)) .& PMASK = a .& PMASK.
Proof.
  intros Hp. rewrite (u64_shiftl_30 p Hp).
  apply Z.bits_inj'. intros n Hn.
  rewrite !Z.land_spec, Z.lor_spec, Z.land_spec.
  change PMASK with (Z.ones 30).
  destruct (Z.lt_ge_cases n 30).
  - rewrite Z.shiftl_spec_low by lia. now rewrite orb_false_r, <- andb_assoc, andb_diag.
  - rewrite (Z.ones_spec_high 30) by lia. now rewrite !andb_false_r.
Qed.

Lemma land_PMASK_RMASK (x : Z) : x .& RMASK = (x .& PMASK) .& RMASK.
Proof. rewrite <- Z.land_assoc. reflexivity. Qed.

(** C7: the increment-pointer phase of IBP, ILDB and IDPB on a 36-bit
    pointer word w with position P and size S.  When P - S is not
    negative, the position field becomes P - S and every other bit of the
    word stays.  When P - S is negative, the position field becomes 36 - S
    (as a six-bit number: 36 - S itself when S is at most 36), the word
    below the position field is that of w + 1, and so the address is
    incremented by one modulo 2^18. *)
Theorem byte_pointer_increment (s : cpu) :
  word36 (AR s) ->
  let w := AR s in
  let w' := AR (byte_incr s) in
  (ptr_size w <= ptr_pos w ->
     ptr_pos w' = ptr_pos w - ptr_size w
     /\ w' .& PMASK = w .& PMASK
     /\ ptr_addr w' = ptr_addr w)
  /\ (ptr_pos w < ptr_size w ->
     ptr_pos w' = (36 - ptr_size w) mod 64
     /\ (ptr_size w <= 36 -> ptr_pos w' = 36 - ptr_size w)
     /\ w' .& PMASK = (w + 1) .& PMASK
     /\ ptr_addr w' = (ptr_addr w + 1) mod 2 ^ 18).
Proof.
  intros Hw w w'. unfold w'. rewrite byte_incr_result. fold w.
  pose proof (field6_range (w ≫ 30)) as HP.
  pose proof (field6_range (w ≫ 24)) as HS.
  fold (ptr_pos w) in HP. fold (ptr_size w) in HS.
  pose proof (incr_fields_checked (ptr_pos w) (ptr_size w)
                ltac:(unfold in7; lia) ltac:(unfold in7; lia)) as Hok.
  unfold incr_fields_ok in Hok. cbv zeta in Hok.
  destruct (Z.ltb_spec (ptr_pos w) 64) as [_|]; [|lia].
  destruct (Z.ltb_spec (ptr_size w) 64) as [_|]; [|lia].
  cbn [andb] in Hok. apply andb_true_iff in Hok. destruct Hok as [Hsign Hval].
  apply Bool.eqb_prop in Hsign. rewrite Hsign.
  destruct (Z.ltb_spec (ptr_pos w) (ptr_size w)) as [Hlt|Hge];
    apply Z.eqb_eq in Hval; rewrite Hval; (split; [intros Hc|intros Hc]); try lia.
  - assert (Hr : 0 <= (36 - ptr_size w) mod 64 < 64)
      by (apply Z.mod_pos_bound; lia).
    assert (Hw1 : (u64 (w + 1) .& FMASK) .& PMASK = (w + 1) .& PMASK).
    { unfold word36 in Hw. rewrite u64_small by lia.
      rewrite <- Z.land_assoc. reflexivity. }
    rewrite Hw1. rewrite (pos_insert_pos _ _ Hr), (pos_insert_rest _ _ Hr).
    split; [reflexivity|]. split; [|split; [reflexivity|]].
    + intros Hs36. apply Z.mod_small. lia.
    + unfold ptr_addr. rewrite land_PMASK_RMASK, (pos_insert_rest _ _ Hr).
      rewrite <- land_PMASK_RMASK. rewrite !land_RMASK.
      rewrite Z.add_mod_idemp_l by lia. reflexivity.
  - assert (Hr : 0 <= ptr_pos w - ptr_size w < 64) by lia.
    rewrite (pos_insert_pos _ _ Hr), (pos_insert_rest _ _ Hr).
    split; [reflexivity|]. split; [reflexivity|].
    unfold ptr_addr. rewrite land_PMASK_RMASK, (pos_insert_rest _ _ Hr).
    rewrite <- land_PMASK_RMASK. reflexivity.
Qed.

Lemma byte_pointer_increment_witness :
  let s := power_up <| AR := 0060700000100%o |> in
  let w := AR s in
  let w' := AR (byte_incr s) in
  (ptr_size w <= ptr_pos w ->
     ptr_pos w' = ptr_pos w - ptr_size w
     /\ w' .& PMASK = w .& PMASK
     /\ ptr_addr w' = ptr_addr w)
  /\ (ptr_pos w < ptr_size w ->
     ptr_pos w' = (36 - ptr_size w) mod 64
     /\ (ptr_size w <= 36 -> ptr_pos w' = 36 - ptr_size w)
     /\ w' .& PMASK = (w + 1) .& PMASK
     /\ ptr_addr w' = (ptr_addr w + 1) mod 2 ^ 18).
Proof.
  intros s. apply (byte_pointer_increment s).
  unfold word36. vm_compute. split; congruence.
Defined.

(** ** LDB and DPB *)

Lemma ldb_shift_done (ar : Z) : ldb_shift ar 0 = (ar, 0).
Proof.
  rewrite ldb_shift_equation_1.
  destruct (Z.eq_dec 0 0); [reflexivity | contradiction].
Qed.

Lemma ldb_shift_step (ar sc : Z) :
  sc <> 0 -> ldb_shift ar sc = ldb_shift (ar ≫ 1) ((sc + 1) .& 0777%o).
Proof.
  intros Hsc. rewrite ldb_shift_equation_1.
  destruct (Z.eq_dec sc 0); [contradiction | reflexivity].
Qed.

Lemma dpb_shift_done (ar mq : Z) : dpb_shift ar mq 0 = (ar, mq, 0).
Proof.
  rewrite dpb_shift_equation_1.
  destruct (Z.eq_dec 0 0); [reflexivity | contradiction].
Qed.

Lemma dpb_shift_step (ar mq sc : Z) :
  sc <> 0 ->
  dpb_shift ar mq sc
  = dpb_shift (u64 (ar ≪ 1)) (u64 (mq ≪ 1)) ((sc + 1) .& 0777%o).
Proof.
  intros Hsc. rewrite dpb_shift_equation_1.
  destruct (Z.eq_dec sc 0); [contradiction | reflexivity].
Qed.

(** The counter that is [n] steps from 0. *)
Definition steps_left (n : nat) : Z := (512 - Z.of_nat n) mod 512.

Lemma steps_left_S (n : nat) :
  (n < 511)%nat ->
  steps_left (S n) <> 0
  /\ (steps_left (S n) + 1) .& 0777%o = steps_left n.
Proof.
  intros Hn. unfold steps_left. rewrite land_0777.
  rewrite (Z.mod_small (512 - Z.of_nat (S n))) by lia.
  split; [lia|]. f_equal. lia.
Qed.

(** The loop of LDB shifts right once for each step of the counter. *)
Lemma ldb_shift_count (n : nat) (ar : Z) :
  (n < 512)%nat -> ldb_shift ar (steps_left n) = (ar ≫ Z.of_nat n, 0).
Proof.
  revert ar. induction n as [| n IH]; intros ar Hn.
  - apply ldb_shift_done.
  - destruct (steps_left_S n ltac:(lia)) as [Hne Hnext].
    rewrite (ldb_shift_step _ _ Hne), Hnext, IH by lia.
    rewrite Z.shiftr_shiftr by lia. do 2 f_equal. lia.
Qed.

Lemma u64_range (x : Z) : 0 <= u64 x < 2 ^ 64.
Proof. apply Z.mod_pos_bound. lia. Qed.

Lemma u64_shiftl_shiftl (x : Z) (n : nat) :
  u64 (u64 (x ≪ 1) ≪ Z.of_nat n) = u64 (x ≪ Z.of_nat (S n)).
Proof.
  unfold u64. rewrite !Z.shiftl_mul_pow2 by lia.
  rewrite Z.mul_mod_idemp_l by lia.
  f_equal. rewrite Nat2Z.inj_succ, Z.pow_succ_r by lia. lia.
Qed.

(** The loop of DPB shifts AR and MQ left once for each step, in 64 bits. *)
Lemma dpb_shift_count (n : nat) (ar mq : Z) :
  (n < 512)%nat -> 0 <= ar < 2 ^ 64 -> 0 <= mq < 2 ^ 64 ->
  dpb_shift ar mq (steps_left n)
  = (u64 (ar ≪ Z.of_nat n), u64 (mq ≪ Z.of_nat n), 0).
Proof.
  revert ar mq. induction n as [| n IH]; intros ar mq Hn Har Hmq.
  - change (Z.of_nat 0) with 0. rewrite !Z.shiftl_0_r, !u64_small by assumption.
    apply dpb_shift_done.
  - destruct (steps_left_S n ltac:(lia)) as [Hne Hnext].
    rewrite (dpb_shift_step _ _ _ Hne), Hnext.
    rewrite IH by (try apply u64_range; lia).
    rewrite !u64_shiftl_shiftl. reflexivity.
Qed.

(** The shift count the first pass leaves in SC for a pointer of
    position [P]. *)
Lemma first_pass_count (x : Z) :
  ((0777%o .^ (x .& 077%o)) + 1) .& 0777%o
  = steps_left (Z.to_nat (x .& 077%o)).
Proof.
  pose proof (field6_range x) as Hx.
  unfold steps_left. rewrite Z2Nat.id by lia. rewrite land_0777.
  rewrite Z.lxor_comm. change 0777%o with (Z.ones 9).
  rewrite lxor_ones_sub by lia. rewrite Z.ones_equiv.
  f_equal. change (2 ^ 9) with 512. lia.
Qed.

(** The mask the first pass leaves in MQ for a byte of [S] bits. *)
Lemma first_pass_mask (x : Z) :
  u64 (u64 (1 ≪ (077%o .& x)) - 1) = Z.ones (077%o .& x).
Proof.
  rewrite (Z.land_comm 077%o). pose proof (field6_range x) as Hx.
  rewrite Z.shiftl_1_l.
  assert (H : 0 < 2 ^ (x .& 077%o) < 2 ^ 64).
  { split; [apply Z.pow_pos_nonneg; lia|].
    apply Z.pow_lt_mono_r; lia. }
  rewrite (u64_small (2 ^ _)) by lia.
  rewrite u64_small by lia. rewrite Z.ones_equiv. lia.
Qed.

(** *** The two passes in closed form *)

(** The first pass of LDB and of DPB: the shift count and the mask are
    set up from the pointer in AR, and a second pass is asked for. *)
Lemma byte_first_pass (s : cpu) :
  FLAGS s .& BYTI = 0 ->
  byte_ldb_dpb s =
  s <| SC := ((0777%o .^ ((AR s ≫ 30) .& 077%o)) + 1) .& 0777%o |>
    <| MQ := u64 (u64 (1 ≪ (077%o .& (AR s ≫ 24))) - 1) |>
    <| f_load_pc := 0 |> <| f_inst_fetch := 0 |> <| f_pc_inh := 1 |>
    <| FLAGS := FLAGS s .| BYTI |>
    <| BYF5 := 1 |>.
Proof.
  intros Hb.
  exec_with ltac:(rewrite Hb in *; discriminate) (byte_ldb_dpb s).
  destruct s. reflexivity.
Qed.

Lemma second_pass_test (s : cpu) :
  FLAGS s .& BYTI <> 0 -> BYF5 s <> 0 ->
  ((FLAGS s .& BYTI) =? 0) || (BYF5 s =? 0) = false.
Proof.
  intros Hf Hb. apply orb_false_iff. split; now apply Z.eqb_neq.
Qed.

(** The second pass of LDB: the word in MB is shifted down and masked,
    and the byte goes to AR and to the accumulator. *)
Lemma ldb_second_pass (s : cpu) :
  FLAGS s .& BYTI <> 0 -> BYF5 s <> 0 -> IR s .& 06%o = 4 ->
  AR (byte_ldb_dpb s) = fst (ldb_shift (MB s) (SC s)) .& MQ s
  /\ FM (byte_ldb_dpb s)
     = array_set (FM s) (AC s .& 017%o) (fst (ldb_shift (MB s) (SC s)) .& MQ s).
Proof.
  intros Hf Hb Hir. pose proof (second_pass_test s Hf Hb) as Ht.
  exec_with ltac:(first [congruence | rewrite Hir in *; discriminate])
    (byte_ldb_dpb s).
  split; reflexivity.
Qed.

(** The second pass of DPB: the byte of the accumulator is shifted up
    under the mask and merged into the word in MB, which is written
    back. *)
Lemma dpb_second_pass (s : cpu) :
  FLAGS s .& BYTI <> 0 -> BYF5 s <> 0 -> IR s .& 06%o = 6 ->
  let r := dpb_shift (get_reg (AC s) s .& MQ s) (MQ s) (SC s) in
  MB (byte_ldb_dpb s)
  = (MB s .& CM (snd (fst r))) .| ((fst (fst r) .& FMASK) .& snd (fst r)).
Proof.
  intros Hf Hb Hir. pose proof (second_pass_test s Hf Hb) as Ht.
  cbv zeta. unfold get_reg.
  exec_with ltac:(first [congruence | rewrite Hir in *; discriminate])
    (byte_ldb_dpb s).
  all: reflexivity.
Qed.

(** *** The round trip *)

Lemma word36_bits_high (w n : Z) : word36 w -> 36 <= n -> Z.testbit w n = false.
Proof.
  intros Hw Hn. rewrite <- (Z.mod_small w (2 ^ 36)) by exact Hw.
  apply Z.mod_pow2_bits_high. lia.
Qed.

(** Depositing, at position [P] under a mask of [S] bits, the byte that was
    loaded from there gives the word back. *)
Lemma deposit_loaded (w P S : Z) :
  word36 w -> 0 <= P < 64 -> 0 <= S < 64 ->
  let b := (w ≫ P) .& Z.ones S in
  let ar := u64 ((b .& Z.ones S) ≪ P) in
  let mq := u64 (Z.ones S ≪ P) in
  (w .& CM mq) .| ((ar .& FMASK) .& mq) = w.
Proof.
  intros Hw HP HS b ar mq. unfold ar, mq, b, CM, u64.
  apply Z.bits_inj'. intros n Hn.
  rewrite Z.lor_spec, !Z.land_spec, Z.lxor_spec.
  change FMASK with (Z.ones 36).
  destruct (Z.lt_ge_cases n 36) as [Hlt|Hge].
  - rewrite Z.ones_spec_low by lia.
    rewrite !Z.mod_pow2_bits_low by lia.
    rewrite !Z.shiftl_spec by lia.
    destruct (Z.lt_ge_cases n P) as [HnP|HnP].
    + rewrite !(Z.testbit_neg_r _ (n - P)) by lia.
      now destruct (Z.testbit w n).
    + rewrite !Z.land_spec, Z.shiftr_spec by lia.
      replace (n - P + P) with n by lia.
      now destruct (Z.testbit w n), (Z.testbit (Z.ones S) (n - P)).
  - rewrite (word36_bits_high w n Hw Hge), Z.ones_spec_high by lia.
    now rewrite andb_false_r.
Qed.

(** LDB or DPB, as the opcode in IR says, with the pointer [p] on the
    memory word [w]: the first pass runs with the pointer in AR, and the
    second pass with the word fetched into MB. *)
Definition byte_op (p w : Z) (s : cpu) : cpu :=
  byte_ldb_dpb (byte_ldb_dpb (s <| AR := p |>) <| MB := w |>).

(** The state the second pass starts from. *)
Lemma first_pass_of (p w : Z) (s : cpu) :
  FLAGS s .& BYTI = 0 ->
  byte_ldb_dpb (s <| AR := p |>) <| MB := w |> =
  s <| AR := p |>
    <| SC := ((0777%o .^ ((p ≫ 30) .& 077%o)) + 1) .& 0777%o |>
    <| MQ := u64 (u64 (1 ≪ (077%o .& (p ≫ 24))) - 1) |>
    <| f_load_pc := 0 |> <| f_inst_fetch := 0 |> <| f_pc_inh := 1 |>
    <| FLAGS := FLAGS s .| BYTI |>
    <| BYF5 := 1 |>
    <| MB := w |>.
Proof. intros Hb. rewrite byte_first_pass by exact Hb. reflexivity. Qed.

Lemma byti_set (fl : Z) : (fl .| BYTI) .& BYTI <> 0.
Proof.
  rewrite Z.land_lor_distr_l, Z.land_diag.
  intros H. apply Z.lor_eq_0_iff in H. destruct H as [_ H]. discriminate.
Qed.

(** C8: for every pointer p and every 36-bit word w, LDB loads the byte
    [(w >> P) & (2^S - 1)] into AR and into the accumulator, and DPB with
    the same pointer, from an accumulator that holds that byte, puts the
    word w itself into MB to be written back: DPB(p, LDB(p, w), w) = w. *)
Theorem ldb_dpb_round_trip (sl sd : cpu) (p w : Z) :
  word36 w ->
  IR sl .& 06%o = 4 -> FLAGS sl .& BYTI = 0 ->
  IR sd .& 06%o = 6 -> FLAGS sd .& BYTI = 0 ->
  get_reg (AC sd) sd = AR (byte_op p w sl) ->
  AR (byte_op p w sl) = (w ≫ ptr_pos p) .& Z.ones (ptr_size p)
  /\ FM (byte_op p w sl)
     = array_set (FM sl) (AC sl .& 017%o) (AR (byte_op p w sl))
  /\ MB (byte_op p w sd) = w.
Proof.
  intros Hw Hirl Hfl Hird Hfd Hac.
  pose proof (field6_range (p ≫ 30)) as HP. fold (ptr_pos p) in HP.
  pose proof (field6_range (p ≫ 24)) as HS. fold (ptr_size p) in HS.
  assert (Hload : AR (byte_op p w sl) = (w ≫ ptr_pos p) .& Z.ones (ptr_size p)
                  /\ FM (byte_op p w sl)
                     = array_set (FM sl) (AC sl .& 017%o) (AR (byte_op p w sl))).
  { unfold byte_op.
    rewrite (first_pass_of _ _ _ Hfl).
    match goal with |- context [byte_ldb_dpb ?s1] =>
      destruct (ldb_second_pass s1) as [Har Hfm]
    end.
    - rsimp. apply byti_set.
    - rsimp. discriminate.
    - exact Hirl.
    - rewrite Hfm, Har. rsimp.
      rewrite first_pass_count, first_pass_mask.
      rewrite (Z.land_comm 077%o). fold (ptr_pos p) (ptr_size p).
      rewrite ldb_shift_count by lia.
      rewrite Z2Nat.id by lia.
      split; reflexivity. }
  destruct Hload as [Har Hfm]. split; [exact Har|]. split; [exact Hfm|].
  rewrite Har in Hac.
  unfold byte_op.
  rewrite (first_pass_of _ _ _ Hfd).
  match goal with |- context [byte_ldb_dpb ?s1] =>
    rewrite (dpb_second_pass s1)
  end.
  - rsimp. unfold get_reg in *. rsimp. rewrite Hac.
    rewrite first_pass_count, first_pass_mask.
    rewrite (Z.land_comm 077%o). fold (ptr_pos p) (ptr_size p).
    assert (Hm : 0 <= Z.ones (ptr_size p) < 2 ^ 64).
    { rewrite Z.ones_equiv.
      assert (0 < 2 ^ ptr_size p <= 2 ^ 63)
        by (split; [apply Z.pow_pos_nonneg; lia | apply Z.pow_le_mono_r; lia]).
      lia. }
    assert (Hb : 0 <= (w ≫ ptr_pos p) .& Z.ones (ptr_size p) .& Z.ones (ptr_size p) < 2 ^ 64).
    { rewrite Z.land_ones by lia.
      pose proof (Z.mod_pos_bound ((w ≫ ptr_pos p) .& Z.ones (ptr_size p))
                    (2 ^ ptr_size p) ltac:(apply Z.pow_pos_nonneg; lia)).
      rewrite Z.ones_equiv in Hm. lia. }
    rewrite dpb_shift_count by (assumption || lia).
    rewrite Z2Nat.id by lia. cbn [fst snd].
    apply (deposit_loaded w (ptr_pos p) (ptr_size p) Hw HP HS).
  - rsimp. apply byti_set.
  - rsimp. discriminate.
  - exact Hird.
Qed.

Lemma ldb_dpb_round_trip_witness :
  let p := 0060600000100%o in
  let w := 0123456712345%o in
  let sl := power_up <| IR := 0135%o |> in
  let sd := power_up <| IR := 0137%o |> <| FM := array_set (FM power_up) 0 023%o |> in
  AR (byte_op p w sl) = (w ≫ ptr_pos p) .& Z.ones (ptr_size p)
  /\ FM (byte_op p w sl)
     = array_set (FM sl) (AC sl .& 017%o) (AR (byte_op p w sl))
  /\ MB (byte_op p w sd) = w.
Proof.
  intros p w sl sd. apply (ldb_dpb_round_trip sl sd p w).
  - unfold word36. vm_compute. split; congruence.
  - reflexivity.
  - reflexivity.
  - reflexivity.
  - reflexivity.
  - vm_compute. reflexivity.
Defined.

(** ** Memory access: non-existent memory *)

(** When [page_lookup] yields an address it leaves the state alone. *)
Lemma page_lookup_some (addr flag wr : Z) (s s' : cpu) (loc : Z) :
  page_lookup addr flag wr s = (Some loc, s') -> s' = s.
Proof.
  unfold page_lookup, let_in.
  repeat match goal with |- context [if ?c then _ else _] => destruct c end;
    intros H; inversion H; reflexivity.
Qed.

(** C3, for the addresses the test [addr > MEMSIZE] catches: when the
    translated address of an access beyond the fast registers lies above
    MEMSIZE, [Mem_read] and [Mem_write] set [nxm_flag], request the APR
    interrupt at level [apr_irq], and return 1; nothing is delivered to MB
    and nothing is stored in M or FM. *)
Theorem nxm_above_memsize (flag : Z) (s : cpu) (addr : Z) :
  020%o <= AB s ->
  MEMSIZE s < addr ->
  let s1 := s <| sim_interval := sim_interval s - 1 |> in
  let s2 := set_interrupt 0 (apr_irq s) (s1 <| nxm_flag := 1 |>) in
  (fst (page_lookup (AB s) flag 0 s1) = Some addr -> Mem_read flag s = (1, s2))
  /\ (fst (page_lookup (AB s) flag 1 s1) = Some addr -> Mem_write flag s = (1, s2))
  /\ nxm_flag s2 = 1 /\ MB s2 = MB s /\ M s2 = M s /\ FM s2 = FM s.
Proof.
  intros Hab Hmem s1 s2.
  assert (Hlt : (AB s <? 020%o) = false) by (apply Z.ltb_ge; exact Hab).
  assert (Hgt : (addr >? MEMSIZE s) = true) by (apply Z.gtb_lt; exact Hmem).
  split; [|split].
  - intros Hpl. unfold Mem_read, let_in. rewrite Hlt. fold s1.
    change (AB s1) with (AB s).
    destruct (page_lookup (AB s) flag 0 s1) as [loc s'] eqn:Hp.
    cbn [fst] in Hpl. subst loc.
    rewrite (page_lookup_some _ _ _ _ _ _ Hp).
    change (MEMSIZE s1) with (MEMSIZE s). rewrite Hgt. reflexivity.
  - intros Hpl. unfold Mem_write, let_in. rewrite Hlt. fold s1.
    change (AB s1) with (AB s).
    destruct (page_lookup (AB s) flag 1 s1) as [loc s'] eqn:Hp.
    cbn [fst] in Hpl. subst loc.
    rewrite (page_lookup_some _ _ _ _ _ _ Hp).
    change (MEMSIZE s1) with (MEMSIZE s). rewrite Hgt. reflexivity.
  - unfold s2. rewrite set_interrupt_frame. rsimp. repeat split; reflexivity.
Qed.

(** A machine of 16K words in executive mode. *)
Definition small_machine : cpu := power_up <| MEMSIZE := 040000%o |>.

Lemma nxm_above_memsize_witness :
  let s := small_machine <| AB := 040001%o |> in
  let s1 := s <| sim_interval := sim_interval s - 1 |> in
  let s2 := set_interrupt 0 (apr_irq s) (s1 <| nxm_flag := 1 |>) in
  (020%o <= AB s /\ MEMSIZE s < 040001%o
   /\ fst (page_lookup (AB s) 0 0 s1) = Some 040001%o
   /\ fst (page_lookup (AB s) 0 1 s1) = Some 040001%o)
  /\ Mem_read 0 s = (1, s2) /\ Mem_write 0 s = (1, s2)
  /\ nxm_flag s2 = 1 /\ MB s2 = MB s /\ M s2 = M s /\ FM s2 = FM s.
Proof.
  intros s s1 s2.
  assert (Hab : 020%o <= AB s) by (vm_compute; congruence).
  assert (Hmem : MEMSIZE s < 040001%o) by reflexivity.
  destruct (nxm_above_memsize 0 s 040001%o Hab Hmem) as (Hr & Hw & Hrest).
  split; [repeat split; try reflexivity; assumption|].
  split; [apply Hr; reflexivity|]. split; [apply Hw; reflexivity|].
  exact Hrest.
Defined.

(** A failing access sends the instruction to its epilogue: the operand
    fetch and the write-back go to [last] when the helper returns 1. *)
Lemma fetch_opr_unwinds (s : cpu) :
  let s0 := s <| f_inst_fetch := 1 |> <| f_load_pc := 1 |> <| f_pc_inh := 0 |>
              <| sac_inh := 0 |> in
  i_flags s .& (FCEPSE .| FCE) <> 0 ->
  fst (Mem_read 0 s0) = 1 ->
  fetch_opr s = (GotoLast, snd (Mem_read 0 s0)).
Proof.
  intros s0 Hfl Hr. unfold fetch_opr, let_in. fold s0.
  change (i_flags s0) with (i_flags s).
  rewrite (proj2 (nz_true _) Hfl).
  destruct (Mem_read 0 s0) as [r s']. cbn [fst snd] in *. subst r. reflexivity.
Qed.

Lemma write_back_unwinds (s : cpu) :
  sac_inh s = 0 ->
  i_flags s .& (SCE .| FCEPSE) <> 0 ->
  fst (Mem_write 0 (s <| MB := AR s |>)) = 1 ->
  write_back s = (GotoLast, snd (Mem_write 0 (s <| MB := AR s |>))).
Proof.
  intros Hs Hfl Hr. unfold write_back, let_in.
  rewrite Hs, (proj2 (nz_true _) Hfl).
  change (0 =? 0) with true. cbn [andb].
  destruct (Mem_write 0 _) as [r s']. cbn [fst snd] in *. subst r. reflexivity.
Qed.

(** The word just above the configured memory: with MEMSIZE = 040000 the
    address 040000 is not in 0 .. MEMSIZE - 1, and the examine and deposit
    hooks refuse it, yet [Mem_read] and [Mem_write] take the access as
    good: they return 0, [nxm_flag] stays 0, no interrupt is requested, the
    word M[040000] is delivered to MB, and MB is stored there. *)
Lemma word_at_memsize_is_accessed :
  let s := small_machine <| AB := 040000%o |> <| MB := 0123%o |> in
  fst (page_lookup (AB s) 0 0 s) = Some (MEMSIZE s)
  /\ fst (Mem_read 0 s) = 0
  /\ nxm_flag (snd (Mem_read 0 s)) = 0
  /\ dev_irq (snd (Mem_read 0 s)) = dev_irq s
  /\ MB (snd (Mem_read 0 s)) = M s 040000%o
  /\ fst (Mem_write 0 s) = 0
  /\ nxm_flag (snd (Mem_write 0 s)) = 0
  /\ M (snd (Mem_write 0 s)) 040000%o = 0123%o
  /\ fst (cpu_ex 040000%o 0 s) = SCPE_NXM
  /\ fst (cpu_dep 0123%o 040000%o 0 s) = SCPE_NXM.
Proof. vm_compute. repeat split; reflexivity. Qed.

(** ** Memory access: KA10 protection *)

(** [(x << 10) | 01777] and [(x << 10) + 01777] are the same number. *)
Lemma shiftl_lor_low (x : Z) : (x ≪ 10) .| 01777%o = (x ≪ 10) + 01777%o.
Proof.
  symmetry. apply Z.add_nocarry_lor.
  apply Z.bits_inj'. intros n Hn. rewrite Z.land_spec, Z.bits_0.
  destruct (Z.lt_ge_cases n 10).
  - now rewrite Z.shiftl_spec_low by lia.
  - change 01777%o with (Z.ones 10).
    rewrite Z.ones_spec_high by lia. apply andb_false_r.
Qed.

(** The two tests a user-mode address has to pass one of.  The bit 0400000
    is tested in AB, which is the address in every call of the KA10
    build. *)
Definition low_segment (addr : Z) (s : cpu) : Prop :=
  addr <= (Pl s ≪ 10) .| 01777%o.

Definition high_segment (addr wr : Z) (s : cpu) : Prop :=
  twoseg s <> 0
  /\ AB s .& 0400000%o <> 0
  /\ lnot (Pflag s) .& wr = wr
  /\ addr <= (Ph s ≪ 10) .| 01777%o.

Lemma low_segment_test (addr : Z) (s : cpu) :
  ~ low_segment addr s -> (addr <=? (Pl s ≪ 10) + 01777%o) = false.
Proof.
  unfold low_segment. rewrite shiftl_lor_low. intros H. apply Z.leb_gt. lia.
Qed.

Lemma high_segment_test (addr wr : Z) (s : cpu) :
  ~ high_segment addr wr s ->
  nz (twoseg s) && ((lnot (Pflag s) .& wr) =? wr) && nz (AB s .& 0400000%o)
  && (addr <=? (Ph s ≪ 10) + 01777%o) = false.
Proof.
  intros H. apply not_true_is_false. intros Ht. apply H.
  rewrite !andb_true_iff, !nz_true, Z.eqb_eq, Z.leb_le in Ht.
  unfold high_segment. rewrite shiftl_lor_low. tauto.
Qed.

Lemma page_lookup_denied (addr wr : Z) (s : cpu) :
  FLAGS s .& USER <> 0 ->
  ~ low_segment addr s -> ~ high_segment addr wr s ->
  page_lookup addr 0 wr s
  = (None, set_interrupt 0 (apr_irq s) (s <| mem_prot := 1 |>)).
Proof.
  intros Hu Hl Hh. unfold page_lookup, let_in.
  change (0 =? 0) with true. cbn [andb].
  rewrite (proj2 (nz_true _) Hu).
  rewrite (low_segment_test _ _ Hl), (high_segment_test _ _ _ Hh).
  reflexivity.
Qed.

(** An address that passes the low-segment test is relocated by Rl; one
    that fails it and passes the high-segment test is relocated by Rh.
    The state is not touched. *)
Lemma page_lookup_allowed (addr wr : Z) (s : cpu) :
  FLAGS s .& USER <> 0 ->
  (low_segment addr s ->
   page_lookup addr 0 wr s = (Some ((AB s + (Rl s ≪ 10)) .& RMASK), s))
  /\ (~ low_segment addr s -> high_segment addr wr s ->
      page_lookup addr 0 wr s = (Some ((AB s + (Rh s ≪ 10)) .& RMASK), s)).
Proof.
  intros Hu. unfold page_lookup, let_in.
  change (0 =? 0) with true. cbn [andb].
  rewrite (proj2 (nz_true _) Hu). split.
  - unfold low_segment. rewrite shiftl_lor_low. intros Hl.
    rewrite (proj2 (Z.leb_le _ _) Hl). reflexivity.
  - intros Hl (Ht & Hb & Hp & Hh).
    rewrite (low_segment_test _ _ Hl).
    rewrite shiftl_lor_low in Hh.
    rewrite (proj2 (nz_true _) Ht), (proj2 (nz_true _) Hb),
      (proj2 (Z.eqb_eq _ _) Hp), (proj2 (Z.leb_le _ _) Hh).
    reflexivity.
Qed.

(** What the call [set_interrupt(0, apr_irq)] of a denied access leaves
    in [s'], for the state [s] before it: with a level 1-7 assigned to the
    processor, the request entry of device 0 holds the bit of that level
    and [pi_pending] is set; with no level assigned (the low three bits of
    [apr_irq] are 0) no request is posted. *)
Definition apr_request_posted (s s' : cpu) : Prop :=
  let lvl := apr_irq s .& 07%o in
  (lvl <> 0 -> irq_entry 0 s' = 0200%o ≫ lvl /\ pi_pending s' = 1)
  /\ (lvl = 0 -> dev_irq s' = dev_irq s /\ pi_pending s' = pi_pending s).

(** A denied access: [mem_prot] is set, the request is posted as far as
    a level is assigned, and neither memory nor the fast registers have
    changed. *)
Definition access_denied (s s' : cpu) : Prop :=
  mem_prot s' = 1 /\ apr_request_posted s s' /\ M s' = M s /\ FM s' = FM s.

Lemma posted_by_set_interrupt (s y : cpu) :
  length (dev_irq s) = 128%nat ->
  dev_irq y = dev_irq s -> pi_pending y = pi_pending s ->
  apr_request_posted s (set_interrupt 0 (apr_irq s) y).
Proof.
  intros Hlen Hd Hp. unfold apr_request_posted, irq_entry. cbv zeta. split.
  - intros Hl. rewrite (set_interrupt_level _ _ _ Hl). rsimp.
    rewrite array_get_set_eq by (rewrite Hd, Hlen; vm_compute; split; congruence).
    split; reflexivity.
  - intros Hl. rewrite (set_interrupt_level0 _ _ _ Hl). auto.
Qed.

Lemma denied_by_page_lookup (s y : cpu) (l : Z) :
  length (dev_irq s) = 128%nat ->
  dev_irq y = dev_irq s -> pi_pending y = pi_pending s ->
  M y = M s -> FM y = FM s -> l = apr_irq s ->
  access_denied s (set_interrupt 0 l (y <| mem_prot := 1 |>)).
Proof.
  intros Hlen Hd Hp HM HFM ->. unfold access_denied.
  split; [rewrite set_interrupt_frame; reflexivity|].
  split; [apply posted_by_set_interrupt; assumption|].
  rewrite set_interrupt_frame. rsimp. auto.
Qed.

(** A denied read and a denied write: 1 is returned and nothing is
    transferred. *)
Lemma Mem_read_denied (s : cpu) :
  FLAGS s .& USER <> 0 ->
  ~ low_segment (AB s) s -> ~ high_segment (AB s) 0 s ->
  020%o <= AB s ->
  Mem_read 0 s =
  (1, set_interrupt 0 (apr_irq s)
        (s <| sim_interval := sim_interval s - 1 |> <| mem_prot := 1 |>)).
Proof.
  intros Hu Hl Hh Hab. unfold Mem_read, let_in.
  assert (Hlt : (AB s <? 020%o) = false) by (apply Z.ltb_ge; exact Hab).
  rewrite Hlt.
  match goal with
  | |- context [page_lookup _ 0 0 ?x] =>
      change (AB x) with (AB s);
      rewrite (page_lookup_denied (AB s) 0 x Hu Hl Hh)
  end.
  reflexivity.
Qed.

Lemma Mem_write_denied (s : cpu) :
  FLAGS s .& USER <> 0 ->
  ~ low_segment (AB s) s -> ~ high_segment (AB s) 1 s ->
  020%o <= AB s ->
  Mem_write 0 s =
  (1, set_interrupt 0 (apr_irq s)
        (s <| sim_interval := sim_interval s - 1 |> <| mem_prot := 1 |>)).
Proof.
  intros Hu Hl Hh Hab. unfold Mem_write, let_in.
  assert (Hlt : (AB s <? 020%o) = false) by (apply Z.ltb_ge; exact Hab).
  rewrite Hlt.
  match goal with
  | |- context [page_lookup _ 0 1 ?x] =>
      change (AB x) with (AB s);
      rewrite (page_lookup_denied (AB s) 1 x Hu Hl Hh)
  end.
  reflexivity.
Qed.

(** The operand fetch of an instruction in user mode from an address
    beyond the fast registers that passes neither test: the instruction
    goes to its epilogue and ends with M and FM as they were and with
    [mem_prot] set; the request stands as posted when the epilogue does
    not dismiss an interrupt. *)
Lemma fetch_denied (s : cpu) :
  FLAGS s .& USER <> 0 ->
  ~ low_segment (AB s) s -> ~ high_segment (AB s) 0 s ->
  020%o <= AB s ->
  length (dev_irq s) = 128%nat ->
  i_flags s .& (FCEPSE .| FCE) <> 0 ->
  exists r s',
    execute s = Some (r, s')
    /\ FM s' = FM s /\ M s' = M s /\ mem_prot s' = 1
    /\ (pi_cycle s = 0 -> pi_restore s = 0 -> apr_request_posted s s').
Proof.
  intros Hu Hl Hh Hab Hlen Hfce.
  apply nz_true in Hu, Hfce.
  apply low_segment_test in Hl. apply high_segment_test in Hh.
  assert (Hlt : (AB s <? 020%o) = false) by (apply Z.ltb_ge; exact Hab).
  exec_with ltac:(congruence) (execute s).
  all: eexists _, _; (split; [reflexivity|]); rsimp;
    (split; [reflexivity|]); (split; [reflexivity|]); (split; [reflexivity|]).
  all: intros Hpc Hpr;
    try (exfalso;
         repeat match goal with
                | H : nz _ = true |- _ => apply nz_true in H
                end;
         unfold lnot, b2z in *;
         rewrite ?Hpc, ?Hpr in *; cbn in *; congruence).
  all: unfold apr_request_posted, irq_entry; rsimp;
    match goal with
    | |- context [set_interrupt 0 (apr_irq ?x) ?y] =>
        pose proof (posted_by_set_interrupt x y Hlen eq_refl eq_refl) as Hpost
    end;
    unfold apr_request_posted, irq_entry in Hpost; exact Hpost.
Qed.

(** The write-back of an instruction in user mode to an address that
    passes neither test for a write: nothing is stored in memory, the
    accumulator stores of the write-back are skipped, and the instruction
    goes to its epilogue. *)
Lemma write_back_denied (s : cpu) :
  FLAGS s .& USER <> 0 ->
  ~ low_segment (AB s) s -> ~ high_segment (AB s) 1 s ->
  020%o <= AB s ->
  length (dev_irq s) = 128%nat ->
  sac_inh s = 0 ->
  i_flags s .& (SCE .| FCEPSE) <> 0 ->
  fst (write_back s) = GotoLast /\ access_denied s (snd (write_back s)).
Proof.
  intros Hu Hl Hh Hab Hlen Hs Hfl. unfold write_back, let_in.
  rewrite Hs, (proj2 (nz_true _) Hfl).
  change (0 =? 0) with true. cbn [andb].
  match goal with
  | |- context [Mem_write 0 ?x] => rewrite (Mem_write_denied x Hu Hl Hh Hab)
  end.
  cbn [nz Z.eqb negb fst snd].
  split; [reflexivity|].
  apply denied_by_page_lookup; first [assumption | reflexivity].
Qed.

(** C5, as amended.  In user mode, for an access that is not a
    privileged fetch ([flag = 0]): an address that passes the low-segment
    test is relocated by Rl, and one that fails it and passes the
    high-segment test (two segments, bit 0400000 of AB, the access allowed
    by Pflag, the limit Ph) is relocated by Rh.  An address that passes
    neither is denied: [page_lookup] reports failure, sets [mem_prot] and
    calls [set_interrupt(0, apr_irq)], which posts the request of the
    processor when a level 1-7 is assigned to it and posts nothing when
    the level is 0; M and FM are as before.  When the address is AB,
    beyond the fast registers, [Mem_read] (for a read) and [Mem_write]
    (for a write) return 1 with the same effect and transfer nothing.  A
    denied operand fetch sends the instruction to its epilogue with every
    accumulator and every word of memory unchanged.  A denied write-back
    stores nothing in memory and skips the accumulator stores of the
    write-back; what the case body has stored before remains. *)
Theorem user_access_denied (s : cpu) (addr wr : Z) :
  FLAGS s .& USER <> 0 ->
  length (dev_irq s) = 128%nat ->
  (low_segment addr s ->
   page_lookup addr 0 wr s = (Some ((AB s + (Rl s ≪ 10)) .& RMASK), s))
  /\ (~ low_segment addr s -> high_segment addr wr s ->
      page_lookup addr 0 wr s = (Some ((AB s + (Rh s ≪ 10)) .& RMASK), s))
  /\ (~ low_segment addr s -> ~ high_segment addr wr s ->
      fst (page_lookup addr 0 wr s) = None
      /\ access_denied s (snd (page_lookup addr 0 wr s))
      /\ (addr = AB s -> 020%o <= AB s ->
          (wr = 0 ->
           fst (Mem_read 0 s) = 1
           /\ access_denied s (snd (Mem_read 0 s))
           /\ MB (snd (Mem_read 0 s)) = MB s)
          /\ (wr = 1 ->
              fst (Mem_write 0 s) = 1
              /\ access_denied s (snd (Mem_write 0 s)))
          /\ (wr = 0 -> i_flags s .& (FCEPSE .| FCE) <> 0 ->
              exists r s'',
                execute s = Some (r, s'')
                /\ FM s'' = FM s /\ M s'' = M s /\ mem_prot s'' = 1
                /\ (pi_cycle s = 0 -> pi_restore s = 0 ->
                    apr_request_posted s s''))
          /\ (wr = 1 -> sac_inh s = 0 -> i_flags s .& (SCE .| FCEPSE) <> 0 ->
              fst (write_back s) = GotoLast
              /\ access_denied s (snd (write_back s))))).
Proof.
  intros Hu Hlen.
  destruct (page_lookup_allowed addr wr s Hu) as (Hlow & Hhigh).
  split; [exact Hlow|]. split; [exact Hhigh|].
  intros Hl Hh.
  rewrite (page_lookup_denied addr wr s Hu Hl Hh). cbn [fst snd].
  split; [reflexivity|].
  split; [apply denied_by_page_lookup; first [assumption | reflexivity]|].
  intros -> Hab. split; [|split; [|split]].
  - intros ->. rewrite (Mem_read_denied s Hu Hl Hh Hab). cbn [fst snd].
    split; [reflexivity|]. split.
    + apply denied_by_page_lookup; first [assumption | reflexivity].
    + rewrite set_interrupt_frame. reflexivity.
  - intros ->. rewrite (Mem_write_denied s Hu Hl Hh Hab). cbn [fst snd].
    split; [reflexivity|].
    apply denied_by_page_lookup; first [assumption | reflexivity].
  - intros -> Hfce. now apply fetch_denied.
  - intros -> Hs Hfl. now apply write_back_denied.
Qed.

(** MOVE 1,400000 in user mode with Pl = 0 and one segment; the
    accumulator 1 holds 0777.  No interrupt level is assigned to the
    processor, as after a reset. *)
Definition move_1_400000 : cpu :=
  power_up <| FLAGS := USER |> <| twoseg := 0 |>
           <| IR := 0200%o |> <| AC := 1 |> <| AB := 0400000%o |>
           <| i_flags := array_get opflags 0200%o |>
           <| FM := array_set (FM power_up) 1 0777%o |>.

(** The same with level 3 assigned to the processor. *)
Definition move_1_400000_level_3 : cpu := move_1_400000 <| apr_irq := 3 |>.

Lemma user_access_denied_witness :
  let s := move_1_400000_level_3 in
  (FLAGS s .& USER <> 0 /\ ~ low_segment (AB s) s /\ ~ high_segment (AB s) 0 s
   /\ length (dev_irq s) = 128%nat)
  /\ fst (page_lookup (AB s) 0 0 s) = None
  /\ mem_prot (snd (page_lookup (AB s) 0 0 s)) = 1
  /\ irq_entry 0 (snd (page_lookup (AB s) 0 0 s)) = 020%o
  /\ pi_pending (snd (page_lookup (AB s) 0 0 s)) = 1
  /\ fst (Mem_read 0 s) = 1
  /\ exists r s'',
       execute s = Some (r, s'')
       /\ FM s'' = FM s /\ M s'' = M s /\ mem_prot s'' = 1
       /\ irq_entry 0 s'' = 020%o /\ pi_pending s'' = 1.
Proof.
  intros s.
  assert (H1 : FLAGS s .& USER <> 0) by (vm_compute; congruence).
  assert (H2 : ~ low_segment (AB s) s)
    by (unfold low_segment; vm_compute; intros H; apply H; reflexivity).
  assert (H3 : ~ high_segment (AB s) 0 s)
    by (unfold high_segment; intros [H _]; apply H; reflexivity).
  assert (H4 : length (dev_irq s) = 128%nat) by reflexivity.
  destruct (user_access_denied s (AB s) 0 H1 H4) as (_ & _ & Hden).
  destruct (Hden H2 H3) as (Hn & (Hm & (Hp & _) & _) & Hrest).
  destruct (Hrest eq_refl ltac:(vm_compute; congruence))
    as ((Hr & _) & _ & Hf & _); [reflexivity|].
  destruct (Hf eq_refl ltac:(vm_compute; congruence))
    as (r & s'' & He & HFM & HM & Hmp & Hq).
  destruct (Hq eq_refl eq_refl) as (Hq1 & _).
  destruct (Hp ltac:(vm_compute; congruence)) as (Hp1 & Hp2).
  destruct (Hq1 ltac:(vm_compute; congruence)) as (Hq2 & Hq3).
  split; [exact (conj H1 (conj H2 (conj H3 H4)))|].
  split; [exact Hn|]. split; [exact Hm|]. split; [exact Hp1|].
  split; [exact Hp2|]. split; [exact Hr|].
  exists r, s''. repeat split; assumption.
Defined.

(** EXCH 1,400100 in user mode with two segments, the high segment
    reaching to the top of the address space and write-protected: the
    word at 0400100 holds 5 and the accumulator 1 holds 7. *)
Definition exch_1_400100 : cpu :=
  power_up <| FLAGS := USER |> <| Ph := 0377%o |> <| Pflag := 1 |>
           <| IR := 0250%o |> <| AC := 1 |> <| AB := 0400100%o |>
           <| i_flags := array_get opflags 0250%o |>
           <| M := <[0400100%o := 5]> (M power_up) |>
           <| FM := array_set (FM power_up) 1 7 |>.

(** C5 fails as stated, in two ways.  The instruction of the claim, MOVE
    1,400000 with USER set, Pl = 0, Pflag = 0 and one segment, is denied
    and sets [mem_prot], but with no level assigned to the processor (the
    state after a reset) no interrupt is posted: the request array and
    [pi_pending] are as before.  And a denied access need not leave the
    accumulator alone: EXCH 1,400100 reads its operand from the
    write-protected high segment, loads the accumulator 1 with it in its
    case body, and is denied at the write-back; it ends with [mem_prot]
    set, the word of memory still 5, and the accumulator changed from 7
    to 5. *)
Lemma denied_access_without_level_and_exch :
  (FLAGS move_1_400000 .& USER <> 0
   /\ ~ low_segment (AB move_1_400000) move_1_400000
   /\ ~ high_segment (AB move_1_400000) 0 move_1_400000
   /\ exists s',
       execute move_1_400000 = Some (LoopAgain, s')
       /\ mem_prot s' = 1
       /\ dev_irq s' = dev_irq move_1_400000
       /\ irq_entry 0 s' = 0
       /\ pi_pending s' = 0
       /\ get_reg 1 s' = 0777%o)
  /\ (FLAGS exch_1_400100 .& USER <> 0
      /\ ~ low_segment (AB exch_1_400100) exch_1_400100
      /\ ~ high_segment (AB exch_1_400100) 1 exch_1_400100
      /\ exists s',
          execute exch_1_400100 = Some (LoopAgain, s')
          /\ mem_prot s' = 1
          /\ M s' 0400100%o = 5
          /\ get_reg 1 exch_1_400100 = 7
          /\ get_reg 1 s' = 5).
Proof.
  split.
  - split; [vm_compute; congruence|].
    split; [unfold low_segment; vm_compute; intros H; apply H; reflexivity|].
    split; [unfold high_segment; intros [H _]; apply H; reflexivity|].
    eexists. vm_compute. repeat split; reflexivity.
  - split; [vm_compute; congruence|].
    split; [unfold low_segment; vm_compute; intros H; apply H; reflexivity|].
    split; [unfold high_segment; intros (_ & _ & H & _); vm_compute in H;
            discriminate|].
    eexists. vm_compute. repeat split; reflexivity.
Qed.
(** ** What an instruction stores *)

(** The translation of an address reads the user flag, the protection
    and relocation registers, the segment option and AB; the test for
    non-existent memory reads MEMSIZE. *)
Definition same_map (s s' : cpu) : Prop :=
  FLAGS s' .& USER = FLAGS s .& USER
  /\ Pl s' = Pl s /\ Ph s' = Ph s /\ Rl s' = Rl s /\ Rh s' = Rh s
  /\ Pflag s' = Pflag s /\ twoseg s' = twoseg s /\ MEMSIZE s' = MEMSIZE s.

Lemma same_map_refl (s : cpu) : same_map s s.
Proof. unfold same_map. repeat split; reflexivity. Qed.

Lemma same_map_trans (s s' s'' : cpu) :
  same_map s s' -> same_map s' s'' -> same_map s s''.
Proof. unfold same_map. intuition congruence. Qed.

(** In executive mode, or with the flag that bypasses the map, the
    address is taken as it is. *)
Lemma page_lookup_direct (addr flag wr : Z) (s : cpu) :
  ((flag =? 0) && nz (FLAGS s .& USER)) = false ->
  page_lookup addr flag wr s = (Some addr, s).
Proof. intros H. unfold page_lookup. rewrite H. reflexivity. Qed.

Lemma page_lookup_same (addr flag wr : Z) (s s' : cpu) :
  same_map s s' -> AB s' = AB s ->
  fst (page_lookup addr flag wr s') = fst (page_lookup addr flag wr s).
Proof.
  intros (Hu & Hpl & Hph & Hrl & Hrh & Hpf & Hts & _) Hab.
  unfold page_lookup, let_in. rewrite Hu, Hpl, Hph, Hrl, Hrh, Hpf, Hts, Hab.
  repeat match goal with |- context [if ?c then _ else _] => destruct c end;
    reflexivity.
Qed.

(** The operand fetch stores nothing, and leaves the instruction, its
    flags, the effective address and the map alone. *)
Lemma fetch_opr_frame (s : cpu) :
  M (snd (fetch_opr s)) = M s
  /\ FM (snd (fetch_opr s)) = FM s
  /\ i_flags (snd (fetch_opr s)) = i_flags s
  /\ IR (snd (fetch_opr s)) = IR s
  /\ AB (snd (fetch_opr s)) = AB s
  /\ AC (snd (fetch_opr s)) = AC s
  /\ sac_inh (snd (fetch_opr s)) = 0
  /\ same_map s (snd (fetch_opr s)).
Proof.
  unfold same_map.
  exec_in (fetch_opr s).
  all: repeat split; reflexivity.
Qed.

(** The opcodes of the embedded part whose case bodies store nothing by
    themselves: the full-word moves, MOVN and MOVM, IMUL and MUL, JFCL,
    XCT and MAP,
    ADD and SUB, CAM and CAI, JUMP and SKIP, AOJ, AOS, SOJ and SOS, the
    Boolean functions, the half-word moves but HxRE, and the tests. *)
Definition plain_group (ir : Z) : bool :=
  let grp := ir .& 0770%o in
  (grp =? 0200%o) || (grp =? 0210%o) || (grp =? 0220%o)
  || ((grp =? 0250%o)
      && (((ir .& 07%o) =? 5) || ((ir .& 07%o) =? 6) || ((ir .& 07%o) =? 7)))
  || (grp =? 0270%o)
  || ((grp =? 0300%o) || (grp =? 0310%o))
  || ((grp =? 0320%o) || (grp =? 0330%o))
  || ((grp =? 0340%o) || (grp =? 0350%o) || (grp =? 0360%o) || (grp =? 0370%o))
  || ((grp =? 0400%o) || (grp =? 0410%o) || (grp =? 0420%o) || (grp =? 0430%o)
      || (grp =? 0440%o) || (grp =? 0450%o) || (grp =? 0460%o) || (grp =? 0470%o))
  || ((grp =? 0500%o) || (grp =? 0510%o) || (grp =? 0520%o) || (grp =? 0530%o)
      || (grp =? 0540%o) || (grp =? 0550%o) || (grp =? 0560%o))
  || ((grp =? 0600%o) || (grp =? 0610%o) || (grp =? 0620%o) || (grp =? 0630%o)
      || (grp =? 0640%o) || (grp =? 0650%o) || (grp =? 0660%o) || (grp =? 0670%o)).

(** Of the 512 opcodes, 249 have an entry without SAC, SACZ, SAC2 and
    SCE; they are the opcodes without SAC, SACZ and SCE, since no entry
    has SAC2 without SAC.  Of these, 72 are opcodes of [plain_group], and
    29 of the 72 have FCEPSE in their entry. *)
Definition store_free_entry (ir : Z) : bool :=
  array_get opflags ir .& (SAC .| SACZ .| SAC2 .| SCE) =? 0.

Lemma store_free_opcodes :
  length (List.filter store_free_entry (seqZ 0 512)) = 249%nat
  /\ length (List.filter
               (fun ir => array_get opflags ir .& (SAC .| SACZ .| SCE) =? 0)
               (seqZ 0 512)) = 249%nat
  /\ length (List.filter (fun ir => store_free_entry ir && plain_group ir)
                         (seqZ 0 512)) = 72%nat
  /\ length (List.filter
               (fun ir => store_free_entry ir && plain_group ir
                          && nz (array_get opflags ir .& FCEPSE))
               (seqZ 0 512)) = 29%nat.
Proof. vm_compute. repeat split; reflexivity. Qed.

(** [s'] differs from [s] in the pseudo registers and the flags only;
    the user flag is as it was. *)
Definition stores_nothing (s s' : cpu) : Prop :=
  M s' = M s /\ FM s' = FM s /\ i_flags s' = i_flags s
  /\ AB s' = AB s /\ AC s' = AC s /\ sac_inh s' = sac_inh s
  /\ same_map s s'.

Lemma land_user_and (x m : Z) : m .& USER = USER -> x .& m .& USER = x .& USER.
Proof. intros H. rewrite <- Z.land_assoc, H. reflexivity. Qed.

Lemma land_user_or (x c : Z) : c .& USER = 0 -> (x .| c) .& USER = x .& USER.
Proof. intros H. rewrite Z.land_lor_distr_l, H. apply Z.lor_0_r. Qed.

(** JFCL clears flags from bit 9 of the flag word up; the user flag is
    bit 7. *)
Lemma jfcl_mask_user (ac : Z) : (017777%o .^ (ac ≪ 9)) .& USER = USER.
Proof.
  apply Z.bits_inj'. intros n Hn. rewrite Z.land_spec, Z.lxor_spec.
  change USER with (2 ^ 7). rewrite Z.pow2_bits_eqb by lia.
  destruct (Z.eqb_spec 7 n) as [<- | _]; [|apply andb_false_r].
  rewrite Z.shiftl_spec_low by lia. reflexivity.
Qed.

Ltac user_bit :=
  repeat first
    [ rewrite land_user_or by reflexivity
    | rewrite land_user_and by first [reflexivity | apply jfcl_mask_user] ];
  reflexivity.

Ltac prune_group Hp :=
  first
    [ repeat match goal with
             | H : (_ =? _) = true |- _ => apply Z.eqb_eq in H; rewrite H in Hp
             end;
      vm_compute in Hp; discriminate Hp
    | repeat match goal with
             | H : _ = false |- _ => rewrite H in Hp
             end;
      cbn [orb andb] in Hp; rewrite ?andb_false_r in Hp; cbn [orb andb] in Hp;
      discriminate Hp
    | match goal with
      | H : _ = true |- _ => cbn [orb andb] in H; discriminate H
      end ].

Lemma dispatch_frame (s : cpu) :
  plain_group (IR s) = true ->
  exists s', dispatch s = Some s' /\ stores_nothing s s'.
Proof.
  intros Hp. unfold plain_group in Hp. cbv zeta in Hp.
  unfold stores_nothing, same_map.
  exec_with ltac:(prune_group Hp) (dispatch s).
  all: eexists; (split; [reflexivity|]); rsimp;
    repeat split; first [reflexivity | user_bit].
Qed.

(** The epilogue stores nothing. *)
Lemma last_frame (s : cpu) :
  M (snd (last s)) = M s /\ FM (snd (last s)) = FM s.
Proof.
  exec_in (last s).
  all: split; reflexivity.
Qed.

Lemma land_lor_0 (x a b : Z) : x .& (a .| b) = 0 <-> x .& a = 0 /\ x .& b = 0.
Proof. rewrite Z.land_lor_distr_r. apply Z.lor_eq_0_iff. Qed.

(** A fast register that differs after a store is the one stored, and
    holds the value stored. *)
Lemma array_set_differs (a : list Z) (i j v : Z) :
  array_get (array_set a i v) j <> array_get a j ->
  j = i /\ array_get (array_set a i v) j = v.
Proof.
  intros Hne. destruct (Z.eq_dec i j) as [<- | Hij].
  - split; [reflexivity|]. revert Hne. unfold array_get, array_set.
    destruct (i <? 0); [congruence|].
    destruct (lt_dec (Z.to_nat i) (length a)) as [Hlt | Hge].
    + rewrite list_lookup_insert_eq by exact Hlt. reflexivity.
    + rewrite list_insert_ge by lia. congruence.
  - exfalso. apply Hne. apply array_get_set_other. exact Hij.
Qed.

(** What [Mem_write] stores: a fast register when AB is below 020, and
    otherwise the word of M at the address that [page_lookup] translates
    AB to, unless the access is denied or lies beyond MEMSIZE. *)
Lemma Mem_write_stores (flag : Z) (s : cpu) :
  let w := snd (Mem_write flag s) in
  (forall i, array_get (FM w) i <> array_get (FM s) i ->
     AB s < 020%o /\ i = AB s .& 017%o /\ array_get (FM w) i = MB s)
  /\ (forall a, M w a <> M s a ->
        020%o <= AB s
        /\ fst (page_lookup (AB s) flag 1 s) = Some a
        /\ a <= MEMSIZE s
        /\ M w a = MB s).
Proof.
  unfold Mem_write, let_in.
  destruct (Z.ltb_spec (AB s) 020%o) as [Hlo | Hhi]; cbn [snd].
  - unfold set_reg. rsimp. split.
    + intros i Hi. apply array_set_differs in Hi as [-> Hv]. auto.
    + intros a Ha. congruence.
  - match goal with
    | |- context [page_lookup ?a flag 1 ?x] =>
        change a with (AB s);
        pose proof (page_lookup_same (AB s) flag 1 s x (same_map_refl s) eq_refl)
          as Hsame;
        destruct (page_lookup (AB s) flag 1 x) as [loc s2] eqn:Hp
    end.
    cbn [fst] in Hsame.
    destruct loc as [addr|].
    + pose proof (page_lookup_some _ _ _ _ _ _ Hp) as ->.
      destruct (Z.gtb_spec addr (MEMSIZE (s <| sim_interval := sim_interval s - 1 |>)))
        as [Hgt | Hle]; cbn [snd].
      * rewrite set_interrupt_frame. rsimp. split; intros ? Hd; congruence.
      * rsimp. rsimp_in Hle. split; [intros ? Hd; congruence|].
        intros a Ha.
        destruct (Z.eq_dec addr a) as [<- | Hne].
        -- rewrite fn_lookup_insert. auto.
        -- exfalso. apply Ha. apply fn_lookup_insert_ne. exact Hne.
    + cbn [snd].
      assert (HM : M s2 = M s /\ FM s2 = FM s).
      { revert Hp. unfold page_lookup, let_in.
        repeat match goal with |- context [if ?c then _ else _] => destruct c end;
          intros Hp; inversion Hp; subst; try rewrite set_interrupt_frame; rsimp;
          split; reflexivity. }
      destruct HM as [-> ->]. split; intros ? Hd; congruence.
Qed.

(** [Mem_write] leaves the flags of the instruction, the inhibit and AR
    alone. *)
Lemma Mem_write_keeps (flag : Z) (s : cpu) :
  i_flags (snd (Mem_write flag s)) = i_flags s
  /\ sac_inh (snd (Mem_write flag s)) = sac_inh s.
Proof.
  exec_in (Mem_write flag s).
  all: split; reflexivity.
Qed.

(** The write-back of an instruction whose flags ask for no accumulator
    to be stored: nothing is stored when the flags ask for no store to
    memory either, or when the case has inhibited the stores; otherwise
    AR is stored in the word that AB addresses, and nowhere else. *)
Lemma write_back_stores (s : cpu) :
  i_flags s .& (SAC .| SACZ .| SAC2) = 0 ->
  let w := snd (write_back s) in
  (i_flags s .& (SCE .| FCEPSE) = 0 \/ sac_inh s <> 0 -> M w = M s /\ FM w = FM s)
  /\ (forall i, array_get (FM w) i <> array_get (FM s) i ->
        AB s < 020%o /\ i = AB s .& 017%o /\ array_get (FM w) i = AR s)
  /\ (forall a, M w a <> M s a ->
        020%o <= AB s
        /\ fst (page_lookup (AB s) 0 1 s) = Some a
        /\ a <= MEMSIZE s
        /\ M w a = AR s).
Proof.
  intros Hfl.
  apply land_lor_0 in Hfl as [Hfl Hsac2]. apply land_lor_0 in Hfl as [Hsac Hsacz].
  apply nz_false in Hsac, Hsacz, Hsac2.
  unfold write_back, let_in.
  destruct ((sac_inh s =? 0) && nz (i_flags s .& (SCE .| FCEPSE))) eqn:Hc.
  - apply andb_true_iff in Hc as [Hs Hn].
    apply Z.eqb_eq in Hs. apply nz_true in Hn.
    match goal with
    | |- context [Mem_write 0 ?x] =>
        pose proof (Mem_write_stores 0 x) as [Hf Hm];
        pose proof (Mem_write_keeps 0 x) as [Hk1 Hk2];
        pose proof (page_lookup_same (AB s) 0 1 s x (same_map_refl s) eq_refl)
          as Hsame;
        destruct (Mem_write 0 x) as [r s2]
    end.
    cbn [snd] in Hf, Hm, Hk1, Hk2.
    rsimp_in Hf. rsimp_in Hm. rsimp_in Hk1. rsimp_in Hk2. rsimp_in Hsame.
    destruct (nz r); cbn [snd];
      repeat (rewrite ?Hk1, ?Hsac, ?Hsacz, ?Hsac2, ?andb_false_r;
              cbn [andb orb snd]);
      (split; [intros [H | H]; contradiction|]);
      (split; [exact Hf|]); intros a Ha; destruct (Hm a Ha) as (H1 & H2 & H3 & H4);
      rewrite Hsame in H2; auto.
  - repeat (rewrite ?Hsac, ?Hsacz, ?Hsac2, ?andb_false_r; cbn [andb orb snd]).
    split; [auto|]. split; intros ? Hd; congruence.
Qed.

(** One instruction with the case [body]: the operand fetch, the case,
    the write-back and the epilogue, as in [execute]. *)
Definition run_case (body : cpu -> cpu) (s : cpu) : resume * cpu :=
  let* (fl, s) := fetch_opr s in
  match fl with
  | GotoLast => last s
  | Next =>
      let* s := body s in
      let* (_, s) := write_back s in
      last s
  end.

Lemma execute_run_case (s s1 : cpu) :
  dispatch (snd (fetch_opr s)) = Some s1 ->
  execute s = Some (run_case (fun _ => s1) s).
Proof.
  unfold execute, run_case, let_in.
  destruct (fetch_opr s) as [fl s0]. cbn [snd]. intros Hd.
  destruct fl; [rewrite Hd; destruct (write_back s1)|]; reflexivity.
Qed.

(** The stores of an instruction with the case [body], next to those of
    the case. *)
Lemma run_case_stores (body : cpu -> cpu) (s0 : cpu) :
  let s1 := body (snd (fetch_opr s0)) in
  let s' := snd (run_case body s0) in
  i_flags s1 .& (SAC .| SACZ .| SAC2) = 0 ->
  (fst (fetch_opr s0) = GotoLast -> M s' = M s0 /\ FM s' = FM s0)
  /\ (fst (fetch_opr s0) = Next ->
      (i_flags s1 .& (SCE .| FCEPSE) = 0 \/ sac_inh s1 <> 0 ->
       M s' = M s1 /\ FM s' = FM s1)
      /\ (forall i, array_get (FM s') i <> array_get (FM s1) i ->
            AB s1 < 020%o /\ i = AB s1 .& 017%o /\ array_get (FM s') i = AR s1)
      /\ (forall a, M s' a <> M s1 a ->
            020%o <= AB s1
            /\ fst (page_lookup (AB s1) 0 1 s1) = Some a
            /\ a <= MEMSIZE s1
            /\ M s' a = AR s1)).
Proof.
  intros s1 s' Hfl. subst s1 s'. unfold run_case, let_in.
  pose proof (fetch_opr_frame s0) as (HM1 & HFM1 & _).
  destruct (fetch_opr s0) as [fl sf]. cbn [fst snd] in *.
  destruct fl.
  - split; [discriminate|]. intros _.
    pose proof (write_back_stores (body sf) Hfl) as Hw. cbv zeta in Hw.
    destruct (write_back (body sf)) as [fl2 s3]. cbn [snd] in *.
    pose proof (last_frame s3) as [HM4 HFM4].
    rewrite HM4, HFM4. exact Hw.
  - split; [|discriminate]. intros _.
    pose proof (last_frame sf) as [HM4 HFM4].
    rewrite HM4, HFM4. auto.
Qed.

(** C2, as amended.  Take an instruction whose opflags entry has none
    of SAC, SACZ, SAC2 and SCE.  Whatever its case body is, the
    instruction stores nothing next to what the case body stores when the
    entry has no FCEPSE or the case inhibits the stores; with FCEPSE it
    stores AR in the one word that AB addresses: the fast register AB when
    AB is below 020, otherwise the word of M at the address that
    [page_lookup] translates AB to (nothing, when the access is denied or
    beyond MEMSIZE).  For the opcodes of [plain_group], whose case bodies
    store nothing, this is all the instruction does to M and FM: they are
    unchanged without FCEPSE, and with FCEPSE only that one word may
    change, which in executive mode is the word M[AB]. *)
Theorem plain_instruction_stores (s : cpu) :
  let entry := array_get opflags (IR s) in
  let s0 := s <| i_flags := entry |> in
  entry .& (SAC .| SACZ .| SAC2 .| SCE) = 0 ->
  (forall body : cpu -> cpu,
     let s1 := body (snd (fetch_opr s0)) in
     let s' := snd (run_case body s0) in
     i_flags s1 = entry ->
     (fst (fetch_opr s0) = GotoLast -> M s' = M s /\ FM s' = FM s)
     /\ (fst (fetch_opr s0) = Next ->
         (entry .& FCEPSE = 0 \/ sac_inh s1 <> 0 -> M s' = M s1 /\ FM s' = FM s1)
         /\ (forall i, array_get (FM s') i <> array_get (FM s1) i ->
               AB s1 < 020%o /\ i = AB s1 .& 017%o
               /\ array_get (FM s') i = AR s1)
         /\ (forall a, M s' a <> M s1 a ->
               020%o <= AB s1
               /\ fst (page_lookup (AB s1) 0 1 s1) = Some a
               /\ a <= MEMSIZE s1
               /\ M s' a = AR s1)))
  /\ (plain_group (IR s) = true ->
      exists r s',
        execute s0 = Some (r, s')
        /\ (entry .& FCEPSE = 0 -> M s' = M s /\ FM s' = FM s)
        /\ (forall i, array_get (FM s') i <> array_get (FM s) i ->
              AB s < 020%o /\ i = AB s .& 017%o)
        /\ (forall a, M s' a <> M s a ->
              020%o <= AB s
              /\ fst (page_lookup (AB s) 0 1 s) = Some a
              /\ a <= MEMSIZE s
              /\ (FLAGS s .& USER = 0 -> a = AB s))).
Proof.
  intros entry s0 Hfl.
  pose proof Hfl as Hfl'.
  apply land_lor_0 in Hfl' as [Hfl3 Hsce].
  assert (Hgen : forall body : cpu -> cpu,
             i_flags (body (snd (fetch_opr s0))) = entry ->
             i_flags (body (snd (fetch_opr s0))) .& (SAC .| SACZ .| SAC2) = 0
             /\ (entry .& FCEPSE = 0 ->
                 i_flags (body (snd (fetch_opr s0))) .& (SCE .| FCEPSE) = 0)).
  { intros body ->. split; [exact Hfl3|]. intros Hf.
    apply land_lor_0. split; assumption. }
  split.
  - intros body s1 s' Hif.
    destruct (Hgen body Hif) as (H3 & Hno).
    destruct (run_case_stores body s0 H3) as (Hg & Hn).
    split; [exact Hg|]. intros Hnext.
    destruct (Hn Hnext) as (Ha & Hb & Hc).
    split; [|split; assumption].
    intros [Hf | Hs]; apply Ha; [left; apply Hno; exact Hf | right; exact Hs].
  - intros Hp.
    pose proof (fetch_opr_frame s0)
      as (HM1 & HFM1 & Hif1 & Hir1 & Hab1 & Hac1 & Hsi1 & Hmap1).
    assert (Hp1 : plain_group (IR (snd (fetch_opr s0))) = true)
      by (rewrite Hir1; exact Hp).
    destruct (dispatch_frame _ Hp1)
      as (s2 & Hd & HM2 & HFM2 & Hif2 & Hab2 & Hac2 & Hsi2 & Hmap2).
    pose proof (execute_run_case s0 s2 Hd) as He.
    assert (Hif : i_flags ((fun _ : cpu => s2) (snd (fetch_opr s0))) = entry)
      by (cbv beta; rewrite Hif2, Hif1; reflexivity).
    destruct (Hgen _ Hif) as (H3 & Hno).
    destruct (run_case_stores (fun _ => s2) s0 H3) as (Hg & Hn).
    cbv beta in Hg, Hn, Hno.
    destruct (run_case (fun _ => s2) s0) as [r s'] eqn:Hrun.
    cbn [snd] in Hg, Hn.
    exists r, s'. split; [exact He|].
    assert (Hmap : same_map s s2).
    { apply (same_map_trans s (snd (fetch_opr s0))); [|exact Hmap2].
      apply (same_map_trans s s0); [|exact Hmap1].
      unfold same_map. repeat split; reflexivity. }
    assert (HAB : AB s2 = AB s) by (rewrite Hab2, Hab1; reflexivity).
    assert (HMs : M s2 = M s) by (rewrite HM2, HM1; reflexivity).
    assert (HFMs : FM s2 = FM s) by (rewrite HFM2, HFM1; reflexivity).
    destruct (fst (fetch_opr s0)) eqn:Hfo.
    + destruct (Hn eq_refl) as (Ha & Hb & Hc).
      rewrite HMs, HFMs, HAB in *.
      split; [intros Hf; apply Ha; left; apply Hno; exact Hf|].
      split.
      * intros i Hi. destruct (Hb i Hi) as (H1 & H2 & _). auto.
      * intros a Ha'. destruct (Hc a Ha') as (H1 & H2 & H4 & _).
        rewrite (page_lookup_same (AB s) 0 1 s s2 Hmap HAB) in H2.
        destruct Hmap as (_ & _ & _ & _ & _ & _ & _ & Hms).
        rewrite Hms in H4.
        split; [exact H1|]. split; [exact H2|]. split; [exact H4|].
        intros Hu. rewrite page_lookup_direct in H2
          by (rewrite (proj2 (nz_false _) Hu); reflexivity).
        cbn [fst] in H2. congruence.
    + destruct (Hg eq_refl) as (Ha & Hb).
      change (M s0) with (M s) in Ha. change (FM s0) with (FM s) in Hb.
      rewrite Ha, Hb.
      split; [auto|]. split; intros ? Hd'; congruence.
Qed.

(** ADDM 1,100 (opcode 0272, entry FCEPSE|FBR) in executive mode, with 5
    in the memory word 0100 and 7 in the accumulator 1. *)
Definition addm_1_100 : cpu :=
  power_up <| IR := 0272%o |> <| AC := 1 |> <| AB := 0100%o |>
           <| M := <[0100%o := 5]> (M power_up) |>
           <| FM := array_set (FM power_up) 1 7 |>.

Lemma plain_instruction_stores_witness :
  let s := addm_1_100 in
  let entry := array_get opflags (IR s) in
  let s0 := s <| i_flags := entry |> in
  (entry .& (SAC .| SACZ .| SAC2 .| SCE) = 0 /\ plain_group (IR s) = true)
  /\ exists r s',
       execute s0 = Some (r, s')
       /\ M s 0100%o = 5 /\ M s' 0100%o = 12
       /\ (forall i, array_get (FM s') i <> array_get (FM s) i ->
             AB s < 020%o /\ i = AB s .& 017%o)
       /\ (forall a, M s' a <> M s a ->
             020%o <= AB s
             /\ fst (page_lookup (AB s) 0 1 s) = Some a
             /\ a <= MEMSIZE s
             /\ (FLAGS s .& USER = 0 -> a = AB s)).
Proof.
  intros s entry s0.
  assert (H1 : entry .& (SAC .| SACZ .| SAC2 .| SCE) = 0) by reflexivity.
  assert (H2 : plain_group (IR s) = true) by reflexivity.
  split; [exact (conj H1 H2)|].
  destruct (plain_instruction_stores s H1) as (_ & Hplain).
  destruct (Hplain H2) as (r & s' & He & _ & Hf & Hm).
  exists r, s'. split; [exact He|]. split; [reflexivity|].
  split; [|split; assumption].
  assert (Hrun : exists x, execute s0 = Some x /\ M (snd x) 0100%o = 12)
    by (eexists; split; [vm_compute; reflexivity | reflexivity]).
  destruct Hrun as (x & Hx & Hv).
  assert (Heq : Some (r, s') = Some x) by (rewrite <- He; exact Hx).
  inversion Heq; subst x. exact Hv.
Defined.

(** SKIP 1,100 and EXCH 1,100, with 5 in the memory word 0100 and 7 in
    the accumulator 1.  Neither entry has SAC or SCE, and AB is not a fast
    register; yet SKIP (entry SACZ|FCE) loads the accumulator, and EXCH
    (entry FAC|FCEPSE) stores the accumulator from its case body, next to
    the word at AB. *)
Definition skip_1_100 : cpu :=
  power_up <| IR := 0330%o |> <| AC := 1 |> <| AB := 0100%o |>
           <| i_flags := array_get opflags 0330%o |>
           <| M := <[0100%o := 5]> (M power_up) |>
           <| FM := array_set (FM power_up) 1 7 |>.

Definition exch_1_100 : cpu :=
  skip_1_100 <| IR := 0250%o |> <| i_flags := array_get opflags 0250%o |>.

Lemma skip_and_exch_store_the_accumulator :
  (i_flags skip_1_100 .& (SAC .| SCE) = 0
   /\ i_flags skip_1_100 .& FCEPSE = 0
   /\ exists r s',
       execute skip_1_100 = Some (r, s')
       /\ get_reg 1 skip_1_100 = 7 /\ get_reg 1 s' = 5)
  /\ (i_flags exch_1_100 .& (SAC .| SCE) = 0
      /\ 020%o <= AB exch_1_100
      /\ exists r s',
          execute exch_1_100 = Some (r, s')
          /\ get_reg 1 exch_1_100 = 7 /\ get_reg 1 s' = 5
          /\ M s' 0100%o = 7).
Proof.
  split.
  - split; [reflexivity|]. split; [reflexivity|].
    eexists _, _. vm_compute. repeat split; reflexivity.
  - split; [reflexivity|]. split; [vm_compute; congruence|].
    eexists _, _. vm_compute. repeat split; reflexivity.
Qed.
